(** * Coordinate scaling and junction layout of pysashimi

    A shallow embedding of the layout computations of
    [utils/sashimi_plot_utils.py] and of its older sibling
    [new_src/sashimi_plot_utils.py], with the properties the
    specification states about them.

    Numbers.  Python floats (and the float32 cells of [graph_coords]) are
    idealised as exact rationals [Q]; every statement about coordinates,
    depths and widths is therefore a statement about the exact values the
    arithmetic denotes.  Rounding is not modelled: where the code rounds
    (the accumulator of [get_scaling], a bucket mean, a point of a
    curve), the embedding holds the exact value.  Equality of such values
    is [Qeq] ([==]).  Genomic positions and array indices are integers
    [Z].

    Effects.  The drawing calls (matplotlib) are replaced by the values
    handed to them; Python exceptions are the [Raise] results of a small
    error monad. *)

From Stdlib Require Import ZArith QArith Qabs Qround List Lia String Bool.
From Stdlib Require Import Permutation Sorted.
From Stdlib Require Import Lqa.
From stdpp Require Import base list sorting.

Local Open Scope Z_scope.

(** ** Python and numpy primitives *)

Module Py.

Inductive exn : Set :=
| ZeroDivisionError
| IndexError
| ValueError
| KeyError.

Inductive result (A : Type) : Type :=
| Ok (a : A)
| Raise (e : exn).
Arguments Ok {A} a.
Arguments Raise {A} e.

#[global] Instance result_ret : MRet result := fun A a => Ok a.

#[global] Instance result_bind : MBind result := fun A B k m =>
  match m with
  | Ok a => k a
  | Raise e => Raise e
  end.

(** A Python value that is compared with [==] against a string literal. *)
Inductive pyval : Set :=
| PyStr (s : string)
| PyInt (z : Z).

Definition py_eq (a b : pyval) : bool :=
  match a, b with
  | PyStr s, PyStr t => String.eqb s t
  | PyInt n, PyInt m => Z.eqb n m
  | _, _ => false
  end.

(** [l[i]] with Python's negative indices. *)
Definition norm_index (n i : Z) : Z := if i <? 0 then i + n else i.

Definition in_range (n j : Z) : bool := (0 <=? j) && (j <? n).

Definition getitem {A} (l : list A) (i : Z) : result A :=
  let n := Z.of_nat (length l) in
  let j := norm_index n i in
  if in_range n j then
    match l !! Z.to_nat j with
    | Some a => Ok a
    | None => Raise IndexError
    end
  else Raise IndexError.

(** [l[i] = v]. *)
Definition setitem {A} (l : list A) (i : Z) (v : A) : result (list A) :=
  let n := Z.of_nat (length l) in
  let j := norm_index n i in
  if in_range n j then Ok (<[Z.to_nat j := v]> l) else Raise IndexError.

(** Bounds of the slice [a:b] on an array of length [n]. *)
Definition slice_bound (n i : Z) : Z :=
  if i <? 0 then Z.max (i + n) 0 else Z.min i n.

(** [l[a:b] = v] on a numpy array (broadcast of a scalar). *)
Definition slice_assign {A} (l : list A) (a b : Z) (v : A) : list A :=
  let n := Z.of_nat (length l) in
  let lo := slice_bound n a in
  let hi := slice_bound n b in
  imap (fun k x => if (lo <=? Z.of_nat k) && (Z.of_nat k <? hi) then v else x) l.

(** [pylab.zeros(n)]. *)
Definition zeros (n : Z) : result (list Q) :=
  if n <? 0 then Raise ValueError else Ok (replicate (Z.to_nat n) 0%Q).

(** [range(n)]. *)
Definition range (n : Z) : list Z := map Z.of_nat (seq 0 (Z.to_nat n)).

(** A [for] loop threading the loop-carried variables [S]. *)
Fixpoint for_each {I S} (body : I -> S -> result S) (l : list I) (s : S)
  : result S :=
  match l with
  | [] => Ok s
  | i :: l' => s' ← body i s; for_each body l' s'
  end.

(** A [for] loop that appends what each round produces to a list. *)
Fixpoint for_samples {A B} (f : A -> result B) (l : list A)
  : result (list B) :=
  match l with
  | [] => Ok []
  | a :: l' => b ← f a; bs ← for_samples f l'; Ok (b :: bs)
  end.

(** [a / b] on Python numbers. *)
Definition pydiv (a b : Q) : result Q :=
  if Qeq_bool b 0 then Raise ZeroDivisionError else Ok (a / b)%Q.

(** [int(x)]: truncation towards zero. *)
Definition int (x : Q) : Z := Z.quot (Qnum x) (Zpos (Qden x)).

(** [a < b] and [a > b] on numbers. *)
Definition Qltb (a b : Q) : bool := negb (Qle_bool b a).

(** [d[k] = v] on a dict kept in insertion order. *)
Fixpoint dict_set {V} (d : list (Z * V)) (k : Z) (v : V) : list (Z * V) :=
  match d with
  | [] => [(k, v)]
  | (k', v') :: d' =>
      if k' =? k then (k', v) :: d' else (k', v') :: dict_set d' k v
  end.

(** [d[k]] on such a dict. *)
Fixpoint dict_getitem {V} (d : list (Z * V)) (k : Z) : result V :=
  match d with
  | [] => Raise KeyError
  | (k', v) :: d' => if k' =? k then Ok v else dict_getitem d' k
  end.

(** [pylab.linspace(start, stop, num)]. *)
Definition linspace (start stop : Q) (num : Z) : result (list Q) :=
  if num <? 0 then Raise ValueError
  else if num =? 1 then Ok [start]
  else Ok (map (fun i => start + inject_Z i * ((stop - start)
                                               / inject_Z (num - 1)))%Q
             (range num)).

(** [max(l)] and [min(l)]. *)
Definition py_max (l : list Q) : result Q :=
  match l with
  | [] => Raise ValueError
  | a :: l' => Ok (fold_left (fun m x => if Qltb m x then x else m) l' a)
  end.

Definition py_min (l : list Q) : result Q :=
  match l with
  | [] => Raise ValueError
  | a :: l' => Ok (fold_left (fun m x => if Qltb x m then x else m) l' a)
  end.

(** [sum(l)]. *)
Definition py_sum (l : list Q) : Q := fold_left Qplus l 0%Q.

End Py.

Import Py.

(** ** get_scaling

    The function is the same, line for line, in both files. *)

Section Scaling.

Variables (tx_start tx_end : Z) (strand : pyval).
Variables (exon_starts exon_ends : list Z).
Variables (intron_scale exon_scale : Q) (reverse_minus : bool).

(** The marking loop:
    [exon_coords[exon_starts[i] - tx_start: exon_ends[i] - tx_start] = 1]. *)
Definition mark_exon (i : Z) (exon_coords : list Q) : result (list Q) :=
  s ← getitem exon_starts i;
  e ← getitem exon_ends i;
  Ok (slice_assign exon_coords (s - tx_start) (e - tx_start) 1%Q).

Definition exon_coords_of : result (list Q) :=
  exon_coords ← zeros (tx_end - tx_start + 1);
  for_each mark_exon (range (Z.of_nat (length exon_starts))) exon_coords.

(** The distance [x] advances by after a cell of [exon_coords]. *)
Definition advance (cell : Q) : result Q :=
  if Qeq_bool cell 1 then pydiv 1 exon_scale else pydiv 1 intron_scale.

(** Loop-carried variables of the walk: [x], [graph_coords],
    [graph_to_gene]. *)
Definition walk_state : Type := Q * list Q * list (Z * Z).

Definition forward_body (exon_coords : list Q) (i : Z) (st : walk_state)
  : result walk_state :=
  let '(x, graph_coords, graph_to_gene) := st in
  graph_coords ← setitem graph_coords i x;
  let graph_to_gene := dict_set graph_to_gene (int x) (i + tx_start) in
  cell ← getitem exon_coords i;
  d ← advance cell;
  Ok ((x + d)%Q, graph_coords, graph_to_gene).

Definition backward_body (exon_coords : list Q) (i : Z) (st : walk_state)
  : result walk_state :=
  let '(x, graph_coords, graph_to_gene) := st in
  graph_coords ← setitem graph_coords (- (i + 1)) x;
  let graph_to_gene := dict_set graph_to_gene (int x) (tx_end - i + 1) in
  cell ← getitem exon_coords (- (i + 1));
  d ← advance cell;
  Ok ((x + d)%Q, graph_coords, graph_to_gene).

(** The test [strand == '+' or not reverse_minus]. *)
Definition fills_forward : bool :=
  py_eq strand (PyStr "+") || negb reverse_minus.

Definition get_scaling : result (list Q * list (Z * Z)) :=
  exon_coords ← exon_coords_of;
  let graph_to_gene := [] in
  graph_coords ← zeros (tx_end - tx_start + 1);
  let x := 0%Q in
  '(_, graph_coords, graph_to_gene) ←
    (if fills_forward then
       for_each (forward_body exon_coords) (range (tx_end - tx_start + 1))
         (x, graph_coords, graph_to_gene)
     else
       for_each (backward_body exon_coords) (range (tx_end - tx_start + 1))
         (x, graph_coords, graph_to_gene));
  Ok (graph_coords, graph_to_gene).

End Scaling.

(** ** Data handed in by the readers

    The classes [Junction], [ReadDepth], [Exon], [Transcript] and
    [SpliceRegion] are declared outside the plotting module; the records
    keep the attributes the plotting code reads. *)

Record Junction : Set := {
  jxn_chromosome : string;
  jxn_start : Z;
  jxn_end : Z
}.

Definition junction_eqb (a b : Junction) : bool :=
  String.eqb (jxn_chromosome a) (jxn_chromosome b)
  && (jxn_start a =? jxn_start b) && (jxn_end a =? jxn_end b).

(** [junctions_dict]: junction to count, in insertion order. *)
Definition junctions := list (Junction * Q).

Definition keys (jxns : junctions) : list Junction := map fst jxns.
Definition values (jxns : junctions) : list Q := map snd jxns.

(** [jxns[jxn]]. *)
Fixpoint dict_get (jxns : junctions) (jxn : Junction) : result Q :=
  match jxns with
  | [] => Raise KeyError
  | (k, v) :: rest => if junction_eqb k jxn then Ok v else dict_get rest jxn
  end.

Record ReadDepth : Type := {
  rd_start : Z;
  wiggle : list Q;
  junctions_dict : junctions;
  rd_max : Q
}.

Record Exon : Set := {
  exon_start : Z;
  exon_end : Z;
  exon_strand : string
}.

Record Transcript : Set := {
  tr_transcript : string;
  tr_gene : string;
  tr_exons : list Exon;
  tr_start : Z;
  tr_end : Z
}.

(** [sites] holds the positions of the indicator lines; it is empty when
    the region has none. *)
Record SpliceRegion : Type := {
  sr_chromosome : string;
  sr_start : Z;
  sr_end : Z;
  sr_strand : string;
  sr_exon_starts : list Z;
  sr_exon_ends : list Z;
  sr_transcripts : list Transcript;
  sr_sites : list Z
}.

(** The entries of [settings] the layout reads; [colors] is [None] or
    holds one colour per sample. *)
Record Settings : Type := {
  intron_scale : Q;
  exon_scale : Q;
  reverse_minus : bool;
  number_junctions : bool;
  resolution : Q;
  nxticks : Z;
  nyticks : Z;
  colors : option (list string)
}.

(** ** Sorting and bezier points, shared by both files *)

(** [sorted] is stable; it is modelled by insertion of each element in
    front of the already sorted rest of the list, before the first
    element that is not smaller. *)
Fixpoint insert_sorted {A} (lt : A -> A -> bool) (x : A) (l : list A)
  : list A :=
  match l with
  | [] => [x]
  | y :: l' => if lt y x then y :: insert_sorted lt x l' else x :: y :: l'
  end.

Definition stable_sort {A} (lt : A -> A -> bool) (l : list A) : list A :=
  fold_right (insert_sorted lt) [] l.

(** [sorted(l, key=key, reverse=reverse)]: a reverse sort reverses the
    list, sorts it and reverses the outcome, which keeps the sort stable. *)
Definition sorted_key {A} (key : A -> Z) (reverse_flag : bool) (l : list A)
  : list A :=
  let lt := fun a b => key a <? key b in
  if reverse_flag then reverse (stable_sort lt (reverse l))
  else stable_sort lt l.

(** [enumerate(l)]. *)
Definition enumerate {A} (l : list A) : list (Z * A) :=
  imap (fun i a => (Z.of_nat i, a)) l.

Definition point : Set := (Q * Q)%type.

Definition scale (k : Q) (p : point) : point := ((k * fst p)%Q, (k * snd p)%Q).
Definition padd (p q : point) : point :=
  ((fst p + fst q)%Q, (snd p + snd q)%Q).

(** [cubic_bezier]: the Bernstein-weighted sum of the four control
    points; unpacking [pts] fails unless there are four. *)
Definition cubic_bezier (pts : list point) (t : Q) : result point :=
  match pts with
  | [p0; p1; p2; p3] =>
      Ok (padd (padd (padd (scale ((1 - t) ^ 3) p0)
                           (scale (3 * t * (1 - t) ^ 2) p1))
                     (scale (3 * t ^ 2 * (1 - t)) p2))
               (scale (t ^ 3) p3))
  | _ => Raise ValueError
  end.

(** One junction arc as handed to the canvas: the control points of the
    [Path], the anchor and the number of the label ([None] when junctions
    are not numbered; its formatting is left to the canvas), and the [lw]
    of the [PathPatch]. *)
Record arc : Set := {
  pts : list point;
  midpt : point;
  label_count : option Q;
  lw : Q
}.

(** What one call of [plot_density_single] draws: the two compressed
    sequences (the area under them is filled), the patches added to the
    axes, the x ticks with their labels when the x axis is shown, and the
    upper x limit. *)
Record panel : Set := {
  compressed_x : list Q;
  compressed_wiggle : list Q;
  arcs : list arc;
  xticks : option (list Q * list Z);
  xlim_upper : Q
}.

(** What [plot_density] adds to a drawn panel: the x positions of the
    dashed indicator lines, each running from [0] to the upper end of the
    left spine (only [utils] draws them), [set_ybound(lower, upper)], the
    upper end of the left spine and the y ticks. *)
Record yaxis : Set := {
  indicator_lines : list Q;
  ybound_lower : Q;
  ybound_upper : Q;
  spine_upper : Q;
  yticks : list Q
}.

(** The x ticks of a panel and their labels, read off [graph_to_gene];
    the same lines in both files. *)
Definition x_tick_labels (graph_to_gene : list (Z * Z))
    (graph_coords : list Q) (nx_ticks : Z) : result (list Q * list Z) :=
  m ← py_max graph_coords;
  let max_graph_coords := (m - 1)%Q in
  ticks ← linspace 0 max_graph_coords nx_ticks;
  labels ← for_samples (fun x => dict_getitem graph_to_gene (int x)) ticks;
  Ok (ticks, labels).

(** ** plot_transcripts *)

(** What [plot_transcripts] draws for one transcript: the texts
    [(x, y, s)], the filled exon boxes, the intron line and the arrows,
    each as the x and y lists handed to the canvas.  Font sizes are left
    to the canvas. *)
Record transcript_row : Set := {
  row_texts : list (Q * Q * string);
  row_exons : list (list Q * list Q);
  row_intron : list Q * list Q;
  row_arrows : list (list Q * list Q)
}.

(** The body of the loop over [transcript.exons], the same in both files;
    it carries [strand] and the boxes filled so far.  Each of
    [graph_coords[s]] and [graph_coords[e]] is looked up twice by the
    source. *)
Definition exon_body (tx_start : Z) (graph_coords : list Q) (y_loc : Q)
    (exon : Exon) (st : string * list (list Q * list Q))
  : result (string * list (list Q * list Q)) :=
  let '(_, boxes) := st in
  let exon_width := (3 # 10)%Q in
  let '(s, e, strand) := (exon_start exon, exon_end exon, exon_strand exon) in
  let s := s - tx_start in
  let e := e - tx_start in
  gs ← getitem graph_coords s;
  ge ← getitem graph_coords e;
  let x := [gs; ge; ge; gs] in
  let y := [y_loc - exon_width / 2; y_loc - exon_width / 2;
            y_loc + exon_width / 2; y_loc + exon_width / 2]%Q in
  Ok (strand, boxes ++ [(x, y)]).

(** One intron arrow with its tip at [loc]; the test is
    [strand == '+' or reverse_minus]. *)
Definition arrow_at (strand : string) (reverse_minus : bool)
    (loc spread y_loc : Q) : list Q * list Q :=
  let exon_width := (3 # 10)%Q in
  let x :=
    if String.eqb strand "+" || reverse_minus
    then [loc - spread; loc; loc - spread]%Q
    else [loc + spread; loc; loc + spread]%Q in
  let y := [y_loc - exon_width / 5; y_loc; y_loc + exon_width / 5]%Q in
  (x, y).

(** *** plot_transcripts of new_src/sashimi_plot_utils.py *)

Module NewSrcTranscripts.

Section PlotTranscripts.

(** [Exon.__eq__] and [Exon.__lt__], which the tuples of the sort key are
    compared with; the class is declared outside the plotting module. *)
Variables (exon_eqb exon_ltb : Exon -> Exon -> bool).

(** The key [(len(x.exons), x.exons[0])]. *)
Definition sort_key (x : Transcript) : result (Z * Exon) :=
  first ← getitem (tr_exons x) 0;
  Ok (Z.of_nat (length (tr_exons x)), first).

(** [a < b] on two such tuples: the first components that differ decide,
    and equal tuples are not smaller. *)
Definition key_lt (a b : Z * Exon) : bool :=
  if fst a =? fst b then
    if exon_eqb (snd a) (snd b) then false else exon_ltb (snd a) (snd b)
  else fst a <? fst b.

(** [sorted(transcripts, key=...)]: the keys are computed first. *)
Definition sorted_transcripts (transcripts : list Transcript)
  : result (list Transcript) :=
  keyed ← for_samples (fun x => k ← sort_key x; Ok (k, x)) transcripts;
  Ok (map snd (stable_sort (fun a b => key_lt (fst a) (fst b)) keyed)).

Variables (tx_start : Z) (graphcoords : list Q).
Variables (reverse_minus show_gene : bool) (label_x_axis : Q).

(** The body of the loop over the sorted transcripts; it carries [yloc]
    and the rows drawn so far. *)
Definition transcript_body (transcript : Transcript)
    (st : Q * list transcript_row) : result (Q * list transcript_row) :=
  let '(yloc, rows) := st in
  let narrows := 50 in
  let texts :=
    if show_gene then
      [ ((label_x_axis + 400)%Q, (yloc + (1 # 10))%Q, tr_gene transcript);
        ((label_x_axis + 400)%Q, (yloc - (2 # 10))%Q,
         tr_transcript transcript) ]
    else [ (label_x_axis, (yloc - (1 # 10))%Q, tr_transcript transcript) ] in
  '(strand, boxes) ←
    for_each (exon_body tx_start graphcoords yloc) (tr_exons transcript)
      ("+"%string, []);
  lo ← py_min graphcoords;
  hi ← py_max graphcoords;
  let intron := ([lo; hi], [yloc; yloc]) in
  let spread := ((2 # 10) * hi / inject_Z narrows)%Q in
  let arrows :=
    map (fun i =>
           let loc := (inject_Z i * hi / inject_Z narrows)%Q in
           arrow_at strand reverse_minus loc spread yloc)
      (range narrows) in
  Ok ((yloc + 1)%Q,
      rows ++ [{| row_texts := texts; row_exons := boxes;
                  row_intron := intron; row_arrows := arrows |}]).

(** The rows, the upper x limit and the two y limits. *)
Definition plot_transcripts (transcripts : list Transcript)
  : result (list transcript_row * Q * (Q * Q)) :=
  let yloc := 1%Q in
  transcripts ← sorted_transcripts transcripts;
  '(_, rows) ← for_each transcript_body transcripts (yloc, []);
  xlim ← py_max graphcoords;
  Ok (rows, xlim,
      ((- (5 # 10))%Q,
       (inject_Z (Z.of_nat (length transcripts)) + (5 # 10))%Q)).

End PlotTranscripts.

End NewSrcTranscripts.

(** *** plot_transcripts of utils/sashimi_plot_utils.py *)

Module UtilsTranscripts.

(** [math.ceil] raises OverflowError on an infinite float, which none of
    the primitives above raises: the outcome of a step is a result or
    that exception. *)
Inductive outcome (A : Type) : Type :=
| Returns (r : result A)
| RaisesOverflowError.
Arguments Returns {A} r.
Arguments RaisesOverflowError {A}.

#[global] Instance outcome_ret : MRet outcome := fun A a => Returns (Ok a).

#[global] Instance outcome_bind : MBind outcome := fun A B k m =>
  match m with
  | Returns (Ok a) => k a
  | Returns (Raise e) => Returns (Raise e)
  | RaisesOverflowError => RaisesOverflowError
  end.

(** The loop over the transcripts. *)
Fixpoint for_rows {I S} (body : I -> S -> outcome S) (l : list I) (s : S)
  : outcome S :=
  match l with
  | [] => Returns (Ok s)
  | i :: l' => s' ← body i s; for_rows body l' s'
  end.

(** [math.ceil(length / max(graph_coords) * 50)] on numpy floats: a zero
    divisor gives nan or an infinity, which [math.ceil] refuses. *)
Definition narrows_of (length max_graph_coords : Q) : outcome Z :=
  if Qeq_bool max_graph_coords 0 then
    if Qeq_bool length 0 then Returns (Raise ValueError)
    else RaisesOverflowError
  else Returns (Ok (Qceiling (length / max_graph_coords * 50))).

Section PlotTranscripts.

Variables (tx_start : Z) (graph_coords : list Q).
Variables (reverse_minus show_gene : bool).

(** The body of the loop over the transcripts; it carries [y_loc] and the
    rows drawn so far.  When [narrows] is [0] the quotient [spread] is
    numpy's nan or infinity, and no arrow is drawn with it. *)
Definition transcript_body (distance : Q) (transcript : Transcript)
    (st : Q * list transcript_row) : outcome (Q * list transcript_row) :=
  let '(y_loc, rows) := st in
  let texts :=
    if show_gene then
      [ ((- (1) * distance)%Q, (y_loc + (15 # 100))%Q, tr_gene transcript);
        ((- (1) * distance)%Q, (y_loc - (25 # 100))%Q,
         tr_transcript transcript) ]
    else [ ((- (1) * distance)%Q, (y_loc - (1 # 10))%Q,
            tr_transcript transcript) ] in
  '(strand, boxes) ←
    Returns (for_each (exon_body tx_start graph_coords y_loc)
               (tr_exons transcript) ("+"%string, []));
  start_x ← Returns (getitem graph_coords (tr_start transcript - tx_start));
  end_x ← Returns (getitem graph_coords (tr_end transcript - tx_start));
  let intron := ([start_x; end_x], [y_loc; y_loc]) in
  let length := (end_x - start_x)%Q in
  hi ← Returns (py_max graph_coords);
  narrows ← narrows_of length hi;
  let spread := ((2 # 10) * length / inject_Z narrows)%Q in
  let arrows :=
    map (fun i =>
           let loc := (inject_Z i * length / inject_Z narrows + start_x)%Q in
           arrow_at strand reverse_minus loc spread y_loc)
      (range narrows) in
  Returns (Ok ((y_loc + 1)%Q,
               rows ++ [{| row_texts := texts; row_exons := boxes;
                           row_intron := intron; row_arrows := arrows |}])).

(** The rows, the upper x limit and the two y limits. *)
Definition plot_transcripts (transcripts : list Transcript)
  : outcome (list transcript_row * Q * (Q * Q)) :=
  let y_loc := 0%Q in
  hi ← Returns (py_max graph_coords);
  lo ← Returns (py_min graph_coords);
  let distance := ((3 # 10) * (hi - lo))%Q in
  '(_, rows) ← for_rows (transcript_body distance) transcripts (y_loc, []);
  xlim ← Returns (py_max graph_coords);
  Returns (Ok (rows, xlim,
               ((- (5 # 10))%Q,
                (inject_Z (Z.of_nat (List.length transcripts))
                 + (5 # 10))%Q))).

End PlotTranscripts.

End UtilsTranscripts.

(** ** utils/sashimi_plot_utils.py *)

Module Utils.

Definition __get_limited_index__ (num length : Z) : Z * bool :=
  if num <? 0 then (0, true)
  else if num >=? length then (length - 1, true)
  else (num, false).

Section PlotDensitySingle.

Variables (read_depth_object : ReadDepth) (graph_coords : list Q).
Variable graph_to_gene : list (Z * Z).
Variables (y_max_arg : option Q) (number_junctions_arg show_x_axis : bool).
Variables (nx_ticks : Z) (no_bam : bool).

Definition tx_start : Z := rd_start read_depth_object.
Definition jxns : junctions := junctions_dict read_depth_object.
Definition max_height : Q := rd_max read_depth_object.

Definition y_max : Q :=
  match y_max_arg with
  | None => ((11 # 10) * max_height)%Q
  | Some y => y
  end.
Definition y_min : Q := (- (1 # 2) * y_max)%Q.

(** The copy loop that fills [compressed_x] and [compressed_wiggle]. *)
Definition copy_body (i : Z) (st : list Q * list Q)
  : result (list Q * list Q) :=
  let '(compressed_x, compressed_wiggle) := st in
  w ← getitem (wiggle read_depth_object) i;
  let compressed_wiggle := compressed_wiggle ++ [w] in
  g ← getitem graph_coords i;
  Ok (compressed_x ++ [g], compressed_wiggle).

Definition jxns_sorted_list : list Junction :=
  sorted_key (fun x => jxn_end x - jxn_start x) true (keys jxns).

Definition junction_count_bounds : result (Q * Q) :=
  match jxns with
  | [] => Ok (0%Q, 0%Q)
  | _ =>
      max_junction_count ← py_max (values jxns);
      min_junction_count ← py_min (values jxns);
      Ok (max_junction_count, min_junction_count)
  end.

Definition current_height : Q := (- 3 * y_min / 4)%Q.

(** The two index lookups of one junction. *)
Definition junction_indices (jxn : Junction) : (Z * bool) * (Z * bool) :=
  let leftss := jxn_start jxn in
  let rightss := jxn_end jxn in
  (__get_limited_index__ (leftss - tx_start - 1)
     (Z.of_nat (length graph_coords)),
   __get_limited_index__ (rightss - tx_start)
     (Z.of_nat (length graph_coords))).

(** The body of the loop over [enumerate(jxns_sorted_list)]. *)
Definition junction_body (min_junction_count junction_count_gap : Q)
    (item : Z * Junction) (patches : list arc) : result (list arc) :=
  let '(plotted_count, jxn) := item in
  let '((ss1_idx, ss1_modified), (ss2_idx, ss2_modified)) :=
    junction_indices jxn in
  ss1 ← getitem graph_coords ss1_idx;
  ss2 ← getitem graph_coords ss2_idx;
  pts ←
    (if plotted_count mod 2 =? 0 then
       Ok [ (ss1, if negb ss1_modified then 0 else - current_height);
            (ss1, - current_height);
            (ss2, - current_height);
            (ss2, if negb ss2_modified then 0 else - current_height) ]%Q
     else
       left_dens ← getitem (wiggle read_depth_object) ss1_idx;
       right_dens ← getitem (wiggle read_depth_object) ss2_idx;
       let left_dens := if no_bam then (left_dens / 2)%Q else left_dens in
       let right_dens := if no_bam then (right_dens / 2)%Q else right_dens in
       Ok [ (ss1, if negb ss1_modified then left_dens
                  else left_dens + current_height);
            (ss1, left_dens + current_height);
            (ss2, right_dens + current_height);
            (ss2, if negb ss2_modified then right_dens
                  else right_dens + current_height) ]%Q);
  midpt ← cubic_bezier pts (1 # 2);
  label ←
    (if number_junctions_arg then
       count ← dict_get jxns jxn; Ok (Some count)
     else Ok None);
  line_width ←
    (if Qltb 0 junction_count_gap then
       count ← dict_get jxns jxn;
       pydiv (count - min_junction_count) junction_count_gap
     else Ok 0%Q);
  Ok (patches ++
      [{| pts := pts; midpt := midpt; label_count := label;
          lw := (line_width + (2 # 10))%Q |}]).

Definition plot_density_single : result panel :=
  '(compressed_x, compressed_wiggle) ←
    for_each copy_body (range (Z.of_nat (length graph_coords))) ([], []);
  _ ← (if no_bam then py_max compressed_wiggle else Ok 0%Q);
  '(max_junction_count, min_junction_count) ← junction_count_bounds;
  let junction_count_gap := (max_junction_count - min_junction_count)%Q in
  patches ←
    for_each (junction_body min_junction_count junction_count_gap)
      (enumerate jxns_sorted_list) [];
  xticks ←
    (if show_x_axis then
       t ← x_tick_labels graph_to_gene graph_coords nx_ticks; Ok (Some t)
     else Ok None);
  xlim ← py_max graph_coords;
  Ok {| compressed_x := compressed_x;
        compressed_wiggle := compressed_wiggle;
        arcs := patches;
        xticks := xticks;
        xlim_upper := xlim |}.

End PlotDensitySingle.

(** [x % 2 == 1] on a number. *)
Definition is_odd (x : Q) : bool :=
  Qeq_bool (x - 2 * inject_Z (Qfloor (x / 2))) 1.

(** One round of the loop of [plot_density] over the enumerated samples:
    it fixes the y axis of the sample, draws it and adds the indicator
    lines at [graph_coords[site - tx_start]]. *)
Definition plot_sample (settings : Settings) (splice_region : SpliceRegion)
    (graph_coords : list Q) (graph_to_gene : list (Z * Z)) (no_bam : bool)
    (n_samples : Z) (item : Z * ReadDepth) : result (panel * yaxis) :=
  let tx_start := sr_start splice_region in
  let '(i, average_read_depth) := item in
  let show_x_axis := i =? n_samples - 1 in
  let max_used_y_val := rd_max average_read_depth in
  let fake_y_min := (- (1 # 2) * max_used_y_val)%Q in
  let max_used_y_val :=
    if is_odd max_used_y_val then (max_used_y_val + 1)%Q
    else max_used_y_val in
  universal_y_ticks ← linspace 0 max_used_y_val (nyticks settings + 1);
  p ← plot_density_single average_read_depth graph_coords graph_to_gene
        (Some max_used_y_val) (number_junctions settings) show_x_axis
        (nxticks settings) no_bam;
  vlines ←
    for_samples (fun site => getitem graph_coords (site - tx_start))
      (sr_sites splice_region);
  Ok (p, {| indicator_lines := vlines;
            ybound_lower := fake_y_min;
            ybound_upper := ((12 # 10) * max_used_y_val)%Q;
            spine_upper := max_used_y_val;
            yticks := if no_bam then [] else universal_y_ticks |}).

(** [plot_density]: the coordinates, the panels of the samples and, when
    the region has transcripts, the gene structure [plot_transcripts]
    draws below them.  Colours, fonts and label texts are left to the
    canvas.  [max] of the alias lengths fails when there is no sample. *)
Definition plot_density (settings : Settings)
    (read_depths_dict : list ReadDepth) (splice_region : SpliceRegion)
    (show_gene no_bam : bool)
  : UtilsTranscripts.outcome
      (list Q * list (Z * Z) * list (panel * yaxis)
       * option (list transcript_row * Q * (Q * Q))) :=
  let tx_start := sr_start splice_region in
  let transcripts := sr_transcripts splice_region in
  let strand := PyStr (sr_strand splice_region) in
  '(graph_coords, graph_to_gene) ←
    UtilsTranscripts.Returns
      (get_scaling tx_start (sr_end splice_region)
         strand
         (sr_exon_starts splice_region) (sr_exon_ends splice_region)
         (intron_scale settings) (exon_scale settings)
         (reverse_minus settings));
  _ ← UtilsTranscripts.Returns
        (match read_depths_dict with
         | [] => Raise ValueError
         | _ => Ok 0%Q
         end);
  samples ←
    UtilsTranscripts.Returns
      (for_samples
         (plot_sample settings splice_region graph_coords graph_to_gene
            no_bam (Z.of_nat (length read_depths_dict)))
         (enumerate read_depths_dict));
  gene_structure ←
    (if 0 <? Z.of_nat (length transcripts) then
       drawn ← UtilsTranscripts.plot_transcripts tx_start graph_coords
                 (reverse_minus settings) show_gene transcripts;
       UtilsTranscripts.Returns (Ok (Some drawn))
     else UtilsTranscripts.Returns (Ok None));
  UtilsTranscripts.Returns
    (Ok (graph_coords, graph_to_gene, samples, gene_structure)).

End Utils.

(** ** new_src/sashimi_plot_utils.py *)

Module NewSrc.

Definition __get_limited_index__ (num length : Z) : Z :=
  if num <? 0 then 0
  else if num >=? length then length - 1
  else num.

(** Loop-carried variables of the compression loop: [compressed_x],
    [compressed_wiggle], [prevx], [tmpval]. *)
Definition compress_state : Type := list Q * list Q * Q * list Q.

Definition compress_body (wiggle graphcoords : list Q) (resolution : Q)
    (i : Z) (st : compress_state) : result compress_state :=
  let '(compressed_x, compressed_wiggle, prevx, tmpval) := st in
  w ← getitem wiggle i;
  let tmpval := tmpval ++ [w] in
  g ← getitem graphcoords i;
  if Qltb resolution (Qabs (g - prevx)) then
    m ← pydiv (py_sum tmpval) (inject_Z (Z.of_nat (length tmpval)));
    Ok (compressed_x ++ [prevx], compressed_wiggle ++ [m], g, [])
  else Ok (compressed_x, compressed_wiggle, prevx, tmpval).

(** The compression loop, with its variables as they are when it ends. *)
Definition compress_loop (wiggle graphcoords : list Q) (resolution : Q)
  : result compress_state :=
  prevx ← getitem graphcoords 0;
  for_each (compress_body wiggle graphcoords resolution)
    (range (Z.of_nat (length graphcoords))) ([], [], prevx, []).

(** What is handed to [fill_between]. *)
Definition compress (wiggle graphcoords : list Q) (resolution : Q)
  : result (list Q * list Q) :=
  '(compressed_x, compressed_wiggle, _, _) ←
    compress_loop wiggle graphcoords resolution;
  Ok (compressed_x, compressed_wiggle).

Section PlotDensitySingle.

(** [Junction.__lt__], which [sorted(jxns.keys())] compares with; the
    class is declared outside the plotting module. *)
Variable junction_lt : Junction -> Junction -> bool.

Variables (read_depth_object : ReadDepth) (graphcoords : list Q).
Variable graphToGene : list (Z * Z).
Variables (ymax_arg : option Q) (number_junctions_arg : bool).
Variables (resolution_arg : Q) (showXaxis : bool) (nxticks_arg : Z).

Definition tx_start : Z := rd_start read_depth_object.
Definition jxns : junctions := junctions_dict read_depth_object.

Definition jxns_sorted_list : list Junction :=
  stable_sort junction_lt (keys jxns).

Definition junction_body (ymin : Q) (item : Z * Junction)
    (patches : list arc) : result (list arc) :=
  let current_height := (- 3 * ymin / 4)%Q in
  let '(plotted_count, jxn) := item in
  let leftss := jxn_start jxn in
  let rightss := jxn_end jxn in
  ss1 ← getitem graphcoords
          (__get_limited_index__ (leftss - tx_start - 1)
             (Z.of_nat (length graphcoords)));
  ss2 ← getitem graphcoords
          (__get_limited_index__ (rightss - tx_start)
             (Z.of_nat (length graphcoords)));
  pts ←
    (if plotted_count mod 2 =? 1 then
       Ok [ (ss1, 0); (ss1, - current_height);
            (ss2, - current_height); (ss2, 0) ]%Q
     else
       leftdens ← getitem (wiggle read_depth_object)
                    (__get_limited_index__ (leftss - tx_start - 1)
                       (Z.of_nat (length (wiggle read_depth_object))));
       rightdens ← getitem (wiggle read_depth_object)
                     (__get_limited_index__ (rightss - tx_start)
                        (Z.of_nat (length (wiggle read_depth_object))));
       Ok [ (ss1, leftdens); (ss1, leftdens + current_height);
            (ss2, rightdens + current_height); (ss2, rightdens) ]%Q);
  midpt ← cubic_bezier pts (1 # 2);
  label ←
    (if number_junctions_arg then
       count ← dict_get jxns jxn; Ok (Some count)
     else Ok None);
  Ok (patches ++
      [{| pts := pts; midpt := midpt; label_count := label;
          lw := 5 # 10 |}]).

Definition plot_density_single : result panel :=
  maxheight ← py_max (wiggle read_depth_object);
  let ymax :=
    match ymax_arg with
    | None => ((11 # 10) * maxheight)%Q
    | Some y => y
    end in
  let ymin := (- (1 # 2) * ymax)%Q in
  '(compressed_x, compressed_wiggle) ←
    compress (wiggle read_depth_object) graphcoords resolution_arg;
  patches ← for_each (junction_body ymin) (enumerate jxns_sorted_list) [];
  xticks ←
    (if showXaxis then
       t ← x_tick_labels graphToGene graphcoords nxticks_arg; Ok (Some t)
     else Ok None);
  xlim ← py_max graphcoords;
  Ok {| compressed_x := compressed_x;
        compressed_wiggle := compressed_wiggle;
        arcs := patches;
        xticks := xticks;
        xlim_upper := xlim |}.

End PlotDensitySingle.

(** The shared upper bound: [math.ceil(max(used_yvals))], plus one when
    odd. *)
Definition max_used_yval_of (used_yvals : list Q) : result Z :=
  m ← py_max used_yvals;
  let max_used_yval := Qceiling m in
  Ok (if max_used_yval mod 2 =? 1 then max_used_yval + 1
      else max_used_yval).

Section PlotDensity.

Variable junction_lt : Junction -> Junction -> bool.

(** [Ax.get_ylim()[1]] of a drawn panel: the upper y limit the canvas
    (matplotlib) reports for it. *)
Variable get_ylim_upper : panel -> Q.

(** [Exon.__eq__] and [Exon.__lt__], which [plot_transcripts] sorts
    with. *)
Variables (exon_eqb exon_ltb : Exon -> Exon -> bool).

(** The colour of the [i]-th sample: [colors[i]] unless [colors] is
    [None]. *)
Definition color_of (settings : Settings) (i : Z) : result (option string) :=
  match colors settings with
  | Some colors => color ← getitem colors i; Ok (Some color)
  | None => Ok None
  end.

(** [plot_density]: the coordinates, the panels of the samples and the
    gene structure [plot_transcripts] draws below them, with
    [label_x_axis] left at -1800.  Fonts and label texts are left to the
    canvas.  [ymax] is [None]; the strand handed to [get_scaling] is read
    from [splice_region.start]. *)
Definition plot_density (settings : Settings)
    (read_depths_dict : list ReadDepth) (splice_region : SpliceRegion)
    (show_gene : bool)
  : result (list Q * list (Z * Z) * list (panel * yaxis)
            * (list transcript_row * Q * (Q * Q))) :=
  let ymax : option Q := None in
  let tx_start := sr_start splice_region in
  let transcripts := sr_transcripts splice_region in
  let strand := PyInt (sr_start splice_region) in
  '(graphcoords, graphToGene) ←
    get_scaling tx_start (sr_end splice_region)
      strand
      (sr_exon_starts splice_region) (sr_exon_ends splice_region)
      (intron_scale settings) (exon_scale settings)
      (reverse_minus settings);
  let nfiles := Z.of_nat (length read_depths_dict) in
  plotted_axes ←
    for_samples
      (fun '(i, average_read_depth) =>
         _ ← color_of settings i;
         let showXaxis := negb (i <? nfiles - 1) in
         plot_density_single junction_lt average_read_depth graphcoords
           graphToGene ymax (number_junctions settings)
           (resolution settings) showXaxis (nxticks settings))
      (enumerate read_depths_dict);
  max_used_yval ←
    (match ymax with
     | Some y => Ok y
     | None =>
         let used_yvals := map get_ylim_upper plotted_axes in
         m ← max_used_yval_of used_yvals; Ok (inject_Z m)
     end);
  let fake_ymin := (- (1 # 2) * max_used_yval)%Q in
  universal_yticks ← linspace 0 max_used_yval (nyticks settings + 1);
  gene_structure ←
    NewSrcTranscripts.plot_transcripts exon_eqb exon_ltb tx_start
      graphcoords (reverse_minus settings) show_gene (- inject_Z 1800)
      transcripts;
  Ok (graphcoords, graphToGene,
      map (fun curr_ax =>
             (curr_ax,
              {| indicator_lines := [];
                 ybound_lower := fake_ymin;
                 ybound_upper := ((12 # 10) * max_used_yval)%Q;
                 spine_upper := max_used_yval;
                 yticks := universal_yticks |}))
          plotted_axes,
      gene_structure).

End PlotDensity.

End NewSrc.

(** ** Vocabulary of the statements *)

(** The plot distance one genomic offset takes: [1/exon_scale] when its
    cell of [exon_coords] is marked, [1/intron_scale] otherwise. *)
Definition plot_step (exon_scale intron_scale cell : Q) : Q :=
  if Qeq_bool cell 1 then (1 / exon_scale)%Q else (1 / intron_scale)%Q.

(** Whether the position [p] lies in one of the exons, each running from
    its start up to, not including, its end. *)
Definition exonic (exon_starts exon_ends : list Z) (p : Z) : bool :=
  existsb (fun '(s, e) => (s <=? p) && (p <? e)) (zip exon_starts exon_ends).

(** The plot distance of a genomic position: [1/exon_scale] when it is
    exonic, [1/intron_scale] otherwise. *)
Definition plot_distance (exon_scale intron_scale : Q)
    (exon_starts exon_ends : list Z) (p : Z) : Q :=
  if exonic exon_starts exon_ends p then (1 / exon_scale)%Q
  else (1 / intron_scale)%Q.

(** The genomic positions of a region, from [tx_start] to [tx_end]. *)
Definition region_positions (tx_start tx_end : Z) : list Z :=
  map (fun i => tx_start + i) (range (tx_end - tx_start + 1)).

(** The values a walk records: [x], then [x] advanced by each distance in
    turn but the last. *)
Fixpoint walk (x : Q) (ds : list Q) : list Q :=
  match ds with
  | [] => []
  | d :: ds' => x :: walk (x + d)%Q ds'
  end.

(** An array read in the order the walk visits its slots: front to back
    for a forward fill, back to front otherwise. *)
Definition walk_order {A} (forward : bool) (l : list A) : list A :=
  if forward then l else reverse l.

(** The genomic span of a junction. *)
Definition span (j : Junction) : Z := jxn_end j - jxn_start j.

(** The control points of an arc hung below the baseline, between the
    plot positions [ss1] and [ss2], at depth [h]; an endpoint that was
    clamped starts at the depth of the arc. *)
Definition pts_below (h ss1 ss2 : Q) (m1 m2 : bool) : list point :=
  [ (ss1, if m1 then - h else 0); (ss1, - h);
    (ss2, - h); (ss2, if m2 then - h else 0) ]%Q.

(** The control points of an arc raised by [h] above the anchor heights
    [d1] and [d2]; an endpoint that was clamped starts at the height of
    the arc. *)
Definition pts_above (h ss1 ss2 d1 d2 : Q) (m1 m2 : bool) : list point :=
  [ (ss1, if m1 then d1 + h else d1); (ss1, d1 + h);
    (ss2, d2 + h); (ss2, if m2 then d2 + h else d2) ]%Q.

(** The depth an anchor is taken from: halved when there is no bam. *)
Definition anchor_depth (no_bam : bool) (d : Q) : Q :=
  if no_bam then (d / 2)%Q else d.

(** What the junction loop of [utils] adds for one item of
    [enumerate(jxns_sorted_list)]. *)
Definition utils_arc_spec (read_depth_object : ReadDepth)
    (graph_coords : list Q) (y_max_arg : option Q)
    (number_junctions_arg no_bam : bool)
    (min_junction_count junction_count_gap : Q)
    (item : Z * Junction) (a : arc) : Prop :=
  let h := Utils.current_height read_depth_object y_max_arg in
  let '((ss1_idx, ss1_modified), (ss2_idx, ss2_modified)) :=
    Utils.junction_indices read_depth_object graph_coords (snd item) in
  exists ss1 ss2 left_dens right_dens count,
    graph_coords !! Z.to_nat ss1_idx = Some ss1
    /\ graph_coords !! Z.to_nat ss2_idx = Some ss2
    /\ wiggle read_depth_object !! Z.to_nat ss1_idx = Some left_dens
    /\ wiggle read_depth_object !! Z.to_nat ss2_idx = Some right_dens
    /\ dict_get (junctions_dict read_depth_object) (snd item) = Ok count
    /\ pts a
       = (if Z.even (fst item)
          then pts_below h ss1 ss2 ss1_modified ss2_modified
          else pts_above h ss1 ss2 (anchor_depth no_bam left_dens)
                 (anchor_depth no_bam right_dens)
                 ss1_modified ss2_modified)
    /\ lw a
       = ((if Qltb 0 junction_count_gap
           then (count - min_junction_count) / junction_count_gap
           else 0) + (2 # 10))%Q
    /\ label_count a = (if number_junctions_arg then Some count else None).

(** The height of the arcs in [new_src]: [-3 * ymin / 4]. *)
Definition new_src_current_height (ymax_arg : option Q) (maxheight : Q) : Q :=
  let ymax :=
    match ymax_arg with
    | None => ((11 # 10) * maxheight)%Q
    | Some y => y
    end in
  (- 3 * (- (1 # 2) * ymax) / 4)%Q.

(** What the junction loop of [new_src] adds for one item of
    [enumerate(jxns_sorted_list)]. *)
Definition new_src_arc_spec (read_depth_object : ReadDepth)
    (graphcoords : list Q) (number_junctions_arg : bool) (h : Q)
    (item : Z * Junction) (a : arc) : Prop :=
  let tx_start := rd_start read_depth_object in
  let left_num := jxn_start (snd item) - tx_start - 1 in
  let right_num := jxn_end (snd item) - tx_start in
  let glen := Z.of_nat (length graphcoords) in
  let wlen := Z.of_nat (length (wiggle read_depth_object)) in
  exists ss1 ss2 leftdens rightdens count,
    graphcoords !! Z.to_nat (NewSrc.__get_limited_index__ left_num glen)
      = Some ss1
    /\ graphcoords !! Z.to_nat (NewSrc.__get_limited_index__ right_num glen)
       = Some ss2
    /\ wiggle read_depth_object
         !! Z.to_nat (NewSrc.__get_limited_index__ left_num wlen)
       = Some leftdens
    /\ wiggle read_depth_object
         !! Z.to_nat (NewSrc.__get_limited_index__ right_num wlen)
       = Some rightdens
    /\ dict_get (junctions_dict read_depth_object) (snd item) = Ok count
    /\ pts a
       = (if Z.even (fst item)
          then pts_above h ss1 ss2 leftdens rightdens false false
          else pts_below h ss1 ss2 false false)
    /\ lw a = 5 # 10
    /\ label_count a = (if number_junctions_arg then Some count else None).

(** The ceiling of a maximum, plus one when that ceiling is odd. *)
Definition even_ceiling (used_max : Q) : Z :=
  if Z.odd (Qceiling used_max) then Qceiling used_max + 1
  else Qceiling used_max.

(** The upper y limit matplotlib's default autoscale gives the axes of a
    panel without junctions, which hold only the fill between [0] and the
    compressed depths: the top of the data plus a margin of 5% of the
    data interval. *)
Definition autoscale_upper (p : panel) : Q :=
  let top :=
    fold_left (fun m y => if Qltb m y then y else m) (compressed_wiggle p)
      0%Q in
  let bottom :=
    fold_left (fun m y => if Qltb y m then y else m) (compressed_wiggle p)
      0%Q in
  (top + (5 # 100) * (top - bottom))%Q.

(** The x axis of a panel can be drawn: when it is shown, every tick has
    its label in [graph_to_gene]. *)
Definition x_axis_readable (graph_to_gene : list (Z * Z))
    (graph_coords : list Q) (show_x_axis : bool) (nx_ticks : Z) : Prop :=
  show_x_axis = true ->
  exists t, x_tick_labels graph_to_gene graph_coords nx_ticks = Ok t.

(** The x ticks of a render can be labelled: whichever of the two renders
    computes the coordinate array, every tick has its label in the
    [graph_to_gene] that comes with it.  [utils] hands the region's strand
    to [get_scaling], [new_src] the region's start. *)
Definition x_ticks_readable (settings : Settings)
    (splice_region : SpliceRegion) : Prop :=
  forall strand graph_coords graph_to_gene,
    strand = PyStr (sr_strand splice_region)
    \/ strand = PyInt (sr_start splice_region) ->
    get_scaling (sr_start splice_region) (sr_end splice_region) strand
      (sr_exon_starts splice_region) (sr_exon_ends splice_region)
      (intron_scale settings) (exon_scale settings)
      (reverse_minus settings) = Ok (graph_coords, graph_to_gene) ->
    exists t,
      x_tick_labels graph_to_gene graph_coords (nxticks settings) = Ok t.

(** ** Example data

    The window 10..20 drawn with both scales 1: its coordinate array and
    its [graph_to_gene]. *)
Definition example_graph_coords : list Q :=
  [0; 1; 2; 3; 4; 5; 6; 7; 8; 9; 10]%Q.

Definition example_graph_to_gene : list (Z * Z) :=
  [(0, 10); (1, 11); (2, 12); (3, 13); (4, 14); (5, 15); (6, 16); (7, 17);
   (8, 18); (9, 19); (10, 20)].

(** The height of the [k]-th row above the first: [y_loc] after [k]
    rounds of [y_loc += 1]. *)
Fixpoint row_height (y_loc : Q) (k : nat) : Q :=
  match k with
  | O => y_loc
  | S k' => row_height (y_loc + 1)%Q k'
  end.

(** The strand the arrows of a transcript follow: that of its last exon,
    ['+'] when it has none. *)
Definition arrow_strand (transcript : Transcript) : string :=
  fold_left (fun _ exon => exon_strand exon) (tr_exons transcript)
    "+"%string.

(** ** Vocabulary of the further properties *)

(** Whether the slice [a:b] of an array of length [n] holds the index
    [k]. *)
Definition in_slice (n a b k : Z) : bool :=
  (slice_bound n a <=? k) && (k <? slice_bound n b).

(** The scale an offset is divided by: [exon_scale] when its cell of
    [exon_coords] is marked, [intron_scale] otherwise. *)
Definition scale_of (exon_scale intron_scale cell : Q) : Q :=
  if Qeq_bool cell 1 then exon_scale else intron_scale.

(** The number of marked cells of a list of cells. *)
Fixpoint count_exonic (cells : list Q) : Z :=
  match cells with
  | [] => 0
  | c :: cells' => (if Qeq_bool c 1 then 1 else 0) + count_exonic cells'
  end.

(** Equality of two points as numbers. *)
Definition point_eq (p q : point) : Prop :=
  (fst p == fst q)%Q /\ (snd p == snd q)%Q.

(** A dict has the key. *)
Definition has_key {V} (d : list (Z * V)) (key : Z) : Prop :=
  exists val, dict_getitem d key = Ok val.

(** The label [get_scaling] stores for the [i]-th offset it walks:
    [i + tx_start] in a forward fill, [tx_end - i + 1] otherwise. *)
Definition walk_label (tx_start tx_end : Z) (forward : bool) (i : Z) : Z :=
  if forward then i + tx_start else tx_end - i + 1.

(** Whether one of the slices [s - tx_start : e - tx_start], for [(s, e)]
    in [exons], holds the index [j] of an array of length [n]. *)
Definition exon_marks (tx_start n : Z) (exons : list (Z * Z)) (j : Z) : bool :=
  existsb (fun '(s, e) => in_slice n (s - tx_start) (e - tx_start) j) exons.

(** The label of an arc is anchored at the middle of the curve: the arc
    has four control points, the first two above or below one coordinate
    of the array and the last two above or below another, and the anchor
    lies midway between the two coordinates, at the height
    [(y0 + 3 y1 + 3 y2 + y3) / 8]. *)
Definition label_centred (graph_coords : list Q) (a : arc) : Prop :=
  exists ss1 ss2 y0 y1 y2 y3 : Q,
    pts a = [(ss1, y0); (ss1, y1); (ss2, y2); (ss2, y3)]
    /\ In ss1 graph_coords /\ In ss2 graph_coords
    /\ (fst (midpt a) == (ss1 + ss2) / 2)%Q
    /\ (snd (midpt a) == (y0 + 3 * y1 + 3 * y2 + y3) / 8)%Q.

(** ** Example data of the further properties

    A sample on the window 10..20 with two junctions, the second of
    which ends past the window. *)
Definition example_read_depth : ReadDepth :=
  {| rd_start := 10;
     wiggle := [4; 4; 6; 6; 6; 2; 2; 8; 8; 1; 1]%Q;
     junctions_dict :=
       [({| jxn_chromosome := "chr1"; jxn_start := 12; jxn_end := 15 |},
         7%Q);
        ({| jxn_chromosome := "chr1"; jxn_start := 13; jxn_end := 30 |},
         9%Q)];
     rd_max := 8 |}.

Definition example_settings : Settings :=
  {| intron_scale := 1; exon_scale := 1; reverse_minus := false;
     number_junctions := true; resolution := 1 # 2;
     nxticks := 4; nyticks := 3; colors := None |}.

Definition example_splice_region : SpliceRegion :=
  {| sr_chromosome := "chr1"; sr_start := 10; sr_end := 20;
     sr_strand := "+"; sr_exon_starts := [12]; sr_exon_ends := [15];
     sr_transcripts := []; sr_sites := [] |}.

(** Only the last of a row of panels carries x ticks: they are the ticks
    [x_tick_labels] computes, and the other panels have none. *)
Definition ticks_on_last_panel_only (graph_to_gene : list (Z * Z))
    (graph_coords : list Q) (nx_ticks : Z) (panels : list panel) : Prop :=
  forall (i : nat) (p : panel),
    panels !! i = Some p ->
    if decide (S i = length panels)
    then exists t,
           x_tick_labels graph_to_gene graph_coords nx_ticks = Ok t
           /\ xticks p = Some t
    else xticks p = None.

(** What the compression loop of [new_src] keeps true of its variables:
    the two sequences have one length, and every x and [prevx] are
    coordinates of the array. *)
Definition compress_loop_invariant_of (graphcoords : list Q)
    (st : NewSrc.compress_state) : Prop :=
  let '(cx, cw, prevx, tmpval) := st in
  length cx = length cw
  /\ Forall (fun x => In x graphcoords) cx
  /\ In prevx graphcoords.

(** An array whose values do not decrease from slot to slot. *)
Definition nondecreasing (l : list Q) : Prop :=
  forall (i j : nat) (a b : Q),
    (i <= j)%nat -> l !! i = Some a -> l !! j = Some b -> (a <= b)%Q.

(** The box [plot_transcripts] fills for an exon on the row at [y_loc]:
    its corners are looked up in the array at the exon's two offsets. *)
Definition exon_box (tx_start : Z) (graph_coords : list Q) (y_loc : Q)
    (exon : Exon) (box : list Q * list Q) : Prop :=
  exists gs ge,
    getitem graph_coords (exon_start exon - tx_start) = Ok gs
    /\ getitem graph_coords (exon_end exon - tx_start) = Ok ge
    /\ box = ([gs; ge; ge; gs],
              [y_loc - (3 # 10) / 2; y_loc - (3 # 10) / 2;
               y_loc + (3 # 10) / 2; y_loc + (3 # 10) / 2]%Q).

(** The row [new_src] draws for a transcript at [yloc]: the intron line
    spans the whole array, and the fifty arrows are spread over it. *)
Definition new_src_row (tx_start : Z) (graphcoords : list Q)
    (reverse_minus : bool) (yloc : Q) (transcript : Transcript)
    (row : transcript_row) : Prop :=
  exists lo hi,
    py_min graphcoords = Ok lo /\ py_max graphcoords = Ok hi
    /\ Forall2 (exon_box tx_start graphcoords yloc) (tr_exons transcript)
         (row_exons row)
    /\ row_intron row = ([lo; hi], [yloc; yloc])
    /\ row_arrows row
       = map (fun i =>
                arrow_at (arrow_strand transcript) reverse_minus
                  (inject_Z i * hi / inject_Z 50)%Q
                  ((2 # 10) * hi / inject_Z 50)%Q yloc)
           (range 50).

(** The row [utils] draws for a transcript at [y_loc]: the intron line
    joins the coordinates of the transcript's two ends, and the arrows,
    [math.ceil(length / max(graph_coords) * 50)] of them, start at the
    coordinate of its start. *)
Definition utils_row (tx_start : Z) (graph_coords : list Q)
    (reverse_minus : bool) (y_loc : Q) (transcript : Transcript)
    (row : transcript_row) : Prop :=
  exists start_x end_x hi,
    getitem graph_coords (tr_start transcript - tx_start) = Ok start_x
    /\ getitem graph_coords (tr_end transcript - tx_start) = Ok end_x
    /\ py_max graph_coords = Ok hi /\ ~ (hi == 0)%Q
    /\ Forall2 (exon_box tx_start graph_coords y_loc) (tr_exons transcript)
         (row_exons row)
    /\ row_intron row = ([start_x; end_x], [y_loc; y_loc])
    /\ let length := (end_x - start_x)%Q in
       let narrows := Qceiling (length / hi * 50) in
       row_arrows row
       = map (fun i =>
                arrow_at (arrow_strand transcript) reverse_minus
                  (inject_Z i * length / inject_Z narrows + start_x)%Q
                  ((2 # 10) * length / inject_Z narrows)%Q y_loc)
           (range narrows).

(** An array whose values do not increase from slot to slot. *)
Definition nonincreasing (l : list Q) : Prop :=
  forall (i j : nat) (a b : Q),
    (i <= j)%nat -> l !! i = Some a -> l !! j = Some b -> (b <= a)%Q.

(** Two transcripts on the example window. *)
Definition example_transcripts : list Transcript :=
  [ {| tr_transcript := "T2"; tr_gene := "G";
       tr_exons := [ {| exon_start := 11; exon_end := 13;
                        exon_strand := "-" |};
                     {| exon_start := 16; exon_end := 19;
                        exon_strand := "-" |} ];
       tr_start := 11; tr_end := 19 |};
    {| tr_transcript := "T1"; tr_gene := "G";
       tr_exons := [ {| exon_start := 12; exon_end := 15;
                        exon_strand := "-" |} ];
       tr_start := 12; tr_end := 15 |} ].

(** Exons compared by their start. *)
Definition example_exon_eqb (a b : Exon) : bool :=
  exon_start a =? exon_start b.
Definition example_exon_ltb (a b : Exon) : bool :=
  exon_start a <? exon_start b.

(** The y ticks of an axis span it in [num] places: there are [num] of
    them, the first is [0] and, when there are two or more, the last is
    the upper end of the spine. *)
Definition ticks_span (num : Z) (y : yaxis) : Prop :=
  length (yticks y) = Z.to_nat num
  /\ (forall v, head (yticks y) = Some v -> (v == 0)%Q)
  /\ (2 <= num -> exists v, last (yticks y) = Some v
                        /\ (v == spine_upper y)%Q).

(** ** Facts about the primitives *)

Section PrimitiveFacts.

Context {A : Type}.
Implicit Types (l : list A) (k : nat).

Lemma getitem_lookup l k a :
  l !! k = Some a -> getitem l (Z.of_nat k) = Ok a.
Proof.
  intros Hk. pose proof (lookup_lt_Some _ _ _ Hk) as Hlt.
  unfold getitem, norm_index, in_range.
  destruct (Z.ltb_spec (Z.of_nat k) 0) as [?|_]; [lia|].
  destruct (Z.leb_spec 0 (Z.of_nat k)) as [_|?]; [|lia].
  destruct (Z.ltb_spec (Z.of_nat k) (Z.of_nat (length l))) as [_|?]; [|lia].
  cbn. rewrite Nat2Z.id, Hk. reflexivity.
Qed.

Lemma getitem_from_end l k a :
  l !! (length l - S k)%nat = Some a -> (k < length l)%nat ->
  getitem l (- (Z.of_nat k + 1)) = Ok a.
Proof.
  intros Hk Hlt. unfold getitem, norm_index, in_range.
  destruct (Z.ltb_spec (- (Z.of_nat k + 1)) 0) as [_|?]; [|lia].
  destruct (Z.leb_spec 0 (- (Z.of_nat k + 1) + Z.of_nat (length l)))
    as [_|?]; [|lia].
  destruct (Z.ltb_spec (- (Z.of_nat k + 1) + Z.of_nat (length l))
              (Z.of_nat (length l))) as [_|?]; [|lia].
  cbn.
  replace (Z.to_nat (- (Z.of_nat k + 1) + Z.of_nat (length l)))
    with (length l - S k)%nat by lia.
  rewrite Hk. reflexivity.
Qed.

Lemma setitem_insert l k v :
  (k < length l)%nat -> setitem l (Z.of_nat k) v = Ok (<[k := v]> l).
Proof.
  intros Hlt. unfold setitem, norm_index, in_range.
  destruct (Z.ltb_spec (Z.of_nat k) 0) as [?|_]; [lia|].
  destruct (Z.leb_spec 0 (Z.of_nat k)) as [_|?]; [|lia].
  destruct (Z.ltb_spec (Z.of_nat k) (Z.of_nat (length l))) as [_|?]; [|lia].
  cbn. rewrite Nat2Z.id. reflexivity.
Qed.

Lemma setitem_from_end l k v :
  (k < length l)%nat ->
  setitem l (- (Z.of_nat k + 1)) v = Ok (<[(length l - S k)%nat := v]> l).
Proof.
  intros Hlt. unfold setitem, norm_index, in_range.
  destruct (Z.ltb_spec (- (Z.of_nat k + 1)) 0) as [_|?]; [|lia].
  destruct (Z.leb_spec 0 (- (Z.of_nat k + 1) + Z.of_nat (length l)))
    as [_|?]; [|lia].
  destruct (Z.ltb_spec (- (Z.of_nat k + 1) + Z.of_nat (length l))
              (Z.of_nat (length l))) as [_|?]; [|lia].
  cbn.
  replace (Z.to_nat (- (Z.of_nat k + 1) + Z.of_nat (length l)))
    with (length l - S k)%nat by lia.
  reflexivity.
Qed.

Lemma length_slice_assign l a b v :
  length (slice_assign l a b v) = length l.
Proof. unfold slice_assign. apply length_imap. Qed.

End PrimitiveFacts.

Lemma zeros_ok (n : Z) :
  0 <= n -> zeros n = Ok (replicate (Z.to_nat n) 0%Q).
Proof.
  intros Hn. unfold zeros.
  destruct (Z.ltb_spec n 0); [lia | reflexivity].
Qed.

Lemma pydiv_ok (a b : Q) : ~ (b == 0)%Q -> pydiv a b = Ok (a / b)%Q.
Proof.
  intros Hb. unfold pydiv.
  destruct (Qeq_bool b 0) eqn:E; [|reflexivity].
  apply Qeq_bool_iff in E. contradiction.
Qed.

Lemma pydiv_zero (a b : Q) : (b == 0)%Q -> pydiv a b = Raise ZeroDivisionError.
Proof.
  intros Hb. unfold pydiv.
  apply Qeq_bool_iff in Hb. rewrite Hb. reflexivity.
Qed.

Lemma bind_Ok {A B} (a : A) (k : A -> result B) : (Ok a ≫= k) = k a.
Proof. reflexivity. Qed.

Lemma bind_Raise {A B} (e : exn) (k : A -> result B) :
  (Raise e ≫= k) = Raise e.
Proof. reflexivity. Qed.

Lemma outcome_bind_Ok {A B} (a : A) (k : A -> UtilsTranscripts.outcome B) :
  (UtilsTranscripts.Returns (Ok a) ≫= k) = k a.
Proof. reflexivity. Qed.

Lemma outcome_bind_inv {A B} (m : UtilsTranscripts.outcome A) (k : A -> UtilsTranscripts.outcome B) (b : B) :
  (m ≫= k) = UtilsTranscripts.Returns (Ok b) ->
  exists a, m = UtilsTranscripts.Returns (Ok a) /\ k a = UtilsTranscripts.Returns (Ok b).
Proof.
  destruct m as [[a|e]|]; cbn; intros H; try discriminate H.
  exists a. split; [reflexivity | exact H].
Qed.

Lemma getitem_raises {A} (l : list A) (i : Z) (e : exn) :
  getitem l i = Raise e -> e = IndexError.
Proof.
  unfold getitem. destruct (in_range _ _); [|congruence].
  destruct (l !! _); congruence.
Qed.

Lemma for_each_cons {I S} (body : I -> S -> result S) i l s s' :
  body i s = Ok s' -> for_each body (i :: l) s = for_each body l s'.
Proof. intros H. cbn [for_each]. rewrite H. reflexivity. Qed.

Lemma for_each_cons_raise {I S} (body : I -> S -> result S) i l s e :
  body i s = Raise e -> for_each body (i :: l) s = Raise e.
Proof. intros H. cbn [for_each]. rewrite H. reflexivity. Qed.

Lemma range_of_nat (n : nat) : range (Z.of_nat n) = map Z.of_nat (seq 0 n).
Proof. unfold range. rewrite Nat2Z.id. reflexivity. Qed.

(** ** The two loops of get_scaling *)

Section ScalingFacts.

Variables (tx_start tx_end : Z) (exon_starts exon_ends : list Z).
Variables (intron_scale exon_scale : Q).

Local Abbreviation step := (plot_step exon_scale intron_scale).

Lemma mark_exon_loop m : forall k (ec : list Q),
  (k + m <= length exon_starts)%nat ->
  (length exon_starts <= length exon_ends)%nat ->
  exists ec',
    for_each (mark_exon tx_start exon_starts exon_ends)
      (map Z.of_nat (seq k m)) ec = Ok ec'
    /\ length ec' = length ec.
Proof.
  induction m as [|m IH]; intros k ec Hk Hle.
  - exists ec. split; reflexivity.
  - destruct (lookup_lt_is_Some_2 exon_starts k) as [s Hs]; [lia|].
    destruct (lookup_lt_is_Some_2 exon_ends k) as [e He]; [lia|].
    cbn [seq map].
    rewrite (for_each_cons _ _ _ _
               (slice_assign ec (s - tx_start) (e - tx_start) 1%Q)).
    2:{ unfold mark_exon.
        rewrite (getitem_lookup _ _ _ Hs), bind_Ok.
        rewrite (getitem_lookup _ _ _ He), bind_Ok. reflexivity. }
    destruct (IH (S k)
                (slice_assign ec (s - tx_start) (e - tx_start) 1%Q))
      as (ec' & Hrun & Hlen); [lia | lia |].
    exists ec'. split; [exact Hrun|].
    rewrite Hlen. apply length_slice_assign.
Qed.

Lemma exon_coords_of_ok :
  tx_start <= tx_end + 1 ->
  (length exon_starts <= length exon_ends)%nat ->
  exists ec,
    exon_coords_of tx_start tx_end exon_starts exon_ends = Ok ec
    /\ length ec = Z.to_nat (tx_end - tx_start + 1).
Proof.
  intros Hn Hle. unfold exon_coords_of.
  rewrite zeros_ok by lia. rewrite bind_Ok, range_of_nat.
  destruct (mark_exon_loop (length exon_starts) 0
              (replicate (Z.to_nat (tx_end - tx_start + 1)) 0%Q))
    as (ec & Hrun & Hlen); [lia | lia |].
  exists ec. split; [exact Hrun|].
  rewrite Hlen. apply length_replicate.
Qed.

Hypothesis exon_scale_nonzero : ~ (exon_scale == 0)%Q.
Hypothesis intron_scale_nonzero : ~ (intron_scale == 0)%Q.

Lemma advance_ok (cell : Q) :
  advance intron_scale exon_scale cell = Ok (step cell).
Proof.
  unfold advance, plot_step.
  destruct (Qeq_bool cell 1); apply pydiv_ok; assumption.
Qed.

Lemma forward_walk (ec : list Q) m : forall k x gc g2g,
  (k + m = length ec)%nat -> length gc = length ec ->
  exists x' g2g',
    for_each (forward_body tx_start intron_scale exon_scale ec)
      (map Z.of_nat (seq k m)) (x, gc, g2g)
    = Ok (x', take k gc ++ walk x (map step (drop k ec)), g2g').
Proof.
  induction m as [|m IH]; intros k x gc g2g Hk Hlen.
  - exists x, g2g. cbn [seq map for_each].
    rewrite drop_ge by lia. rewrite take_ge by lia.
    cbn [map walk]. rewrite app_nil_r. reflexivity.
  - destruct (lookup_lt_is_Some_2 ec k) as [c Hc]; [lia|].
    cbn [seq map].
    rewrite (for_each_cons _ _ _ _
               ((x + step c)%Q, <[k := x]> gc,
                dict_set g2g (int x) (Z.of_nat k + tx_start))).
    2:{ unfold forward_body.
        rewrite setitem_insert by lia. rewrite bind_Ok.
        rewrite (getitem_lookup _ _ _ Hc), bind_Ok.
        rewrite advance_ok, bind_Ok. reflexivity. }
    destruct (IH (S k) (x + step c)%Q (<[k := x]> gc)
                (dict_set g2g (int x) (Z.of_nat k + tx_start)))
      as (x' & g2g' & Hrun); [lia | rewrite length_insert; lia |].
    exists x', g2g'. refine (eq_trans Hrun _). do 3 f_equal.
    rewrite (drop_S _ _ _ Hc). cbn [map walk].
    rewrite (take_S_r _ _ x) by (apply list_lookup_insert_eq; lia).
    rewrite take_insert_ge by lia.
    rewrite <- app_assoc. reflexivity.
Qed.

Lemma backward_walk (ec : list Q) m : forall k x gc g2g,
  (k + m = length ec)%nat -> length gc = length ec ->
  exists x' g2g',
    for_each (backward_body tx_end intron_scale exon_scale ec)
      (map Z.of_nat (seq k m)) (x, gc, g2g)
    = Ok (x',
          reverse (walk x (map step (reverse (take m ec)))) ++ drop m gc,
          g2g').
Proof.
  induction m as [|m IH]; intros k x gc g2g Hk Hlen.
  - exists x, g2g. reflexivity.
  - destruct (lookup_lt_is_Some_2 ec m) as [c Hc]; [lia|].
    cbn [seq map].
    rewrite (for_each_cons _ _ _ _
               ((x + step c)%Q, <[m := x]> gc,
                dict_set g2g (int x) (tx_end - Z.of_nat k + 1))).
    2:{ unfold backward_body.
        rewrite setitem_from_end by lia. rewrite bind_Ok.
        replace (length gc - S k)%nat with m by lia.
        rewrite (getitem_from_end ec k c), bind_Ok;
          [| replace (length ec - S k)%nat with m by lia; exact Hc | lia].
        rewrite advance_ok, bind_Ok. reflexivity. }
    destruct (IH (S k) (x + step c)%Q (<[m := x]> gc)
                (dict_set g2g (int x) (tx_end - Z.of_nat k + 1)))
      as (x' & g2g' & Hrun); [lia | rewrite length_insert; lia |].
    exists x', g2g'. refine (eq_trans Hrun _). do 3 f_equal.
    rewrite (take_S_r _ _ _ Hc), reverse_snoc. cbn [map walk].
    rewrite reverse_cons, <- app_assoc. f_equal.
    rewrite (drop_S (<[m := x]> gc) x m)
      by (apply list_lookup_insert_eq; lia).
    rewrite drop_insert_lt by lia. reflexivity.
Qed.

(** With scales other than zero [get_scaling] returns, and its array, read
    in walk order, is the walk from [0] over the cells of [exon_coords]
    read in walk order. *)
Lemma get_scaling_walk (strand : pyval) (reverse_minus : bool) :
  tx_start <= tx_end + 1 ->
  (length exon_starts <= length exon_ends)%nat ->
  exists ec gc g2g,
    exon_coords_of tx_start tx_end exon_starts exon_ends = Ok ec
    /\ length ec = Z.to_nat (tx_end - tx_start + 1)
    /\ get_scaling tx_start tx_end strand exon_starts exon_ends
         intron_scale exon_scale reverse_minus = Ok (gc, g2g)
    /\ walk_order (fills_forward strand reverse_minus) gc
       = walk 0 (map step
                   (walk_order (fills_forward strand reverse_minus) ec)).
Proof.
  intros Hn Hle.
  destruct (exon_coords_of_ok Hn Hle) as (ec & Hec & Hlen).
  unfold get_scaling. rewrite Hec, bind_Ok.
  rewrite zeros_ok by lia. rewrite bind_Ok.
  set (n := Z.to_nat (tx_end - tx_start + 1)) in *.
  unfold range. fold n.
  destruct (fills_forward strand reverse_minus); cbn [walk_order].
  - destruct (forward_walk ec n 0 0%Q (replicate n 0%Q) [])
      as (x' & g2g' & Hrun); [lia | rewrite length_replicate; lia |].
    rewrite Hrun, bind_Ok. cbn [take app] in *. rewrite drop_0.
    exists ec, (walk 0 (map step ec)), g2g'. auto.
  - destruct (backward_walk ec n 0 0%Q (replicate n 0%Q) [])
      as (x' & g2g' & Hrun); [lia | rewrite length_replicate; lia |].
    rewrite Hrun, bind_Ok.
    rewrite (drop_ge (replicate n 0%Q)) by (rewrite length_replicate; lia).
    rewrite (take_ge ec) by lia. rewrite app_nil_r.
    exists ec, (reverse (walk 0 (map step (reverse ec)))), g2g'.
    rewrite reverse_involutive. auto.
Qed.

End ScalingFacts.

(** ** Walks *)

Lemma length_walk ds : forall x, length (walk x ds) = length ds.
Proof. induction ds as [|d ds IH]; intros x; cbn; [|rewrite IH]; reflexivity. Qed.

Lemma fold_left_Qplus_le ds : forall x,
  Forall (fun d => 0 <= d)%Q ds -> (x <= fold_left Qplus ds x)%Q.
Proof.
  induction ds as [|d ds IH]; intros x Hds; cbn.
  - apply Qle_refl.
  - inversion Hds as [|? ? Hd Hds']; subst.
    apply Qle_trans with (x + d)%Q; [|apply IH; assumption].
    rewrite <- (Qplus_0_r x) at 1. apply Qplus_le_r. assumption.
Qed.

Lemma walk_lookup_ge ds : forall x j b,
  Forall (fun d => 0 <= d)%Q ds ->
  walk x ds !! j = Some b -> (x <= b)%Q.
Proof.
  induction ds as [|d ds IH]; intros x j b Hds Hj; [discriminate|].
  inversion Hds as [|? ? Hd Hds']; subst.
  destruct j as [|j]; cbn in Hj.
  - injection Hj as <-. apply Qle_refl.
  - apply Qle_trans with (x + d)%Q; [|eapply IH; eassumption].
    rewrite <- (Qplus_0_r x) at 1. apply Qplus_le_r. assumption.
Qed.

Lemma walk_monotone ds : forall x i j a b,
  Forall (fun d => 0 <= d)%Q ds -> (i <= j)%nat ->
  walk x ds !! i = Some a -> walk x ds !! j = Some b -> (a <= b)%Q.
Proof.
  induction ds as [|d ds IH]; intros x i j a b Hds Hij Hi Hj;
    [discriminate|].
  destruct i as [|i].
  - cbn in Hi. injection Hi as <-.
    eapply (walk_lookup_ge (d :: ds)); eassumption.
  - destruct j as [|j]; [lia|].
    inversion Hds; subst. cbn in Hi, Hj.
    eapply IH; [eassumption | | eassumption | eassumption]. lia.
Qed.

Lemma walk_last ds : forall x,
  ds <> [] -> last (walk x ds) = Some (fold_left Qplus (removelast ds) x).
Proof.
  induction ds as [|d ds IH]; intros x Hne; [contradiction|].
  destruct ds as [|d' ds]; [reflexivity|].
  change (walk x (d :: d' :: ds))
    with (x :: (x + d)%Q :: walk (x + d + d') ds).
  rewrite last_cons_cons.
  change ((x + d)%Q :: walk (x + d + d') ds) with (walk (x + d) (d' :: ds)).
  rewrite IH by discriminate. reflexivity.
Qed.

Lemma py_sum_snoc l d : py_sum (l ++ [d]) = (py_sum l + d)%Q.
Proof. unfold py_sum. rewrite fold_left_app. reflexivity. Qed.

Lemma removelast_map {A B} (f : A -> B) (l : list A) :
  removelast (map f l) = map f (removelast l).
Proof.
  induction l as [|a l IH]; [reflexivity|].
  destruct l as [|a' l]; [reflexivity|].
  cbn [map removelast] in *. rewrite IH. reflexivity.
Qed.

Lemma plot_step_pos exon_scale intron_scale cell :
  (0 < exon_scale)%Q -> (0 < intron_scale)%Q ->
  (0 < plot_step exon_scale intron_scale cell)%Q.
Proof.
  intros He Hi. unfold plot_step.
  destruct (Qeq_bool cell 1); unfold Qdiv; rewrite Qmult_1_l;
    apply Qinv_lt_0_compat; assumption.
Qed.

Lemma Qpos_nonzero (q : Q) : (0 < q)%Q -> ~ (q == 0)%Q.
Proof. intros Hq Heq. rewrite Heq in Hq. exact (Qlt_irrefl 0 Hq). Qed.

Lemma length_walk_order {A} (forward : bool) (l : list A) :
  length (walk_order forward l) = length l.
Proof. destruct forward; cbn; [reflexivity | apply length_reverse]. Qed.

(** ** C2 *)

Lemma fills_forward_false (strand : pyval) (reverse_minus : bool) :
  fills_forward strand reverse_minus = false
  <-> reverse_minus = true /\ strand <> PyStr "+".
Proof.
  unfold fills_forward. rewrite orb_false_iff, negb_false_iff.
  split; intros [H1 H2]; split; try assumption.
  - intros ->. discriminate H1.
  - destruct strand as [s|z]; [|reflexivity].
    cbn. apply String.eqb_neq. intros ->. apply H2. reflexivity.
Qed.

Lemma fills_forward_plus (reverse_minus : bool) :
  fills_forward (PyStr "+") reverse_minus = true.
Proof. reflexivity. Qed.

Lemma fills_forward_minus (reverse_minus : bool) :
  fills_forward (PyStr "-") reverse_minus = negb reverse_minus.
Proof. reflexivity. Qed.

Lemma fills_forward_int (z : Z) (reverse_minus : bool) :
  fills_forward (PyInt z) reverse_minus = negb reverse_minus.
Proof. reflexivity. Qed.

(** The slot of each walked value.  With a strand that is ['+'] or ['-']
    the array is filled back to front, the value of walk step [i] stored
    at slot [length - 1 - i], exactly when [reverse_minus] is set and the
    strand is ['-']; otherwise step [i] is stored at slot [i]. *)
Lemma get_scaling_fill_direction
    (tx_start tx_end : Z) (strand : string) (exon_starts exon_ends : list Z)
    (intron_scale exon_scale : Q) (reverse_minus : bool) :
  tx_start <= tx_end + 1 ->
  length exon_starts = length exon_ends ->
  ~ (exon_scale == 0)%Q -> ~ (intron_scale == 0)%Q ->
  strand = "+"%string \/ strand = "-"%string ->
  exists ec gc g2g values,
    exon_coords_of tx_start tx_end exon_starts exon_ends = Ok ec
    /\ get_scaling tx_start tx_end (PyStr strand) exon_starts exon_ends
         intron_scale exon_scale reverse_minus = Ok (gc, g2g)
    /\ length values = length gc
    /\ if reverse_minus && String.eqb strand "-"
       then values = walk 0 (map (plot_step exon_scale intron_scale)
                               (reverse ec))
            /\ forall i, (i < length gc)%nat ->
                 gc !! (length gc - 1 - i)%nat = values !! i
       else values = walk 0 (map (plot_step exon_scale intron_scale) ec)
            /\ forall i, gc !! i = values !! i.
Proof.
  intros Hn Hlen Hes His Hstrand.
  destruct (get_scaling_walk tx_start tx_end exon_starts exon_ends
              intron_scale exon_scale Hes His (PyStr strand) reverse_minus)
    as (ec & gc & g2g & Hec & Hlenec & Hrun & Hwalk); [lia | lia |].
  exists ec, gc, g2g,
    (walk_order (fills_forward (PyStr strand) reverse_minus) gc).
  split; [exact Hec|]. split; [exact Hrun|].
  split; [apply length_walk_order|].
  assert (Hdir : fills_forward (PyStr strand) reverse_minus
                 = negb (reverse_minus && String.eqb strand "-")).
  { destruct Hstrand as [-> | ->]; destruct reverse_minus; reflexivity. }
  rewrite Hdir in *.
  destruct (reverse_minus && String.eqb strand "-"); cbn [negb walk_order] in *.
  - split; [exact Hwalk|]. intros i Hi.
    rewrite reverse_lookup by exact Hi.
    f_equal. lia.
  - split; [exact Hwalk | reflexivity].
Qed.

(** C2, the failing input.  [new_src]'s [plot_density] reads the strand it
    hands to [get_scaling] from [splice_region.start]; on the plus-strand
    region 10..12 with [reverse_minus] set the array comes out mirrored,
    2, 1, 0, where [utils]' [plot_density], which reads
    [splice_region.strand], fills it front to back. *)
Theorem new_src_plot_density_mirrors_plus_strand :
  let splice_region :=
    {| sr_chromosome := "chr1"; sr_start := 10; sr_end := 12;
       sr_strand := "+"; sr_exon_starts := []; sr_exon_ends := [];
       sr_transcripts := []; sr_sites := [] |} in
  let settings :=
    {| intron_scale := 1; exon_scale := 1; reverse_minus := true;
       number_junctions := true; resolution := 1 # 2;
       nxticks := 4; nyticks := 3; colors := None |} in
  let depth :=
    {| rd_start := 10; wiggle := [4; 4; 4]%Q; junctions_dict := [];
       rd_max := 4 |} in
  (exists graphToGene panels gene_structure,
      NewSrc.plot_density (fun _ _ => false) (fun _ => 4%Q)
        example_exon_eqb example_exon_ltb settings [depth] splice_region
        false
      = Ok ([2; 1; 0]%Q, graphToGene, panels, gene_structure))
  /\ (exists graph_to_gene panels gene_structure,
         Utils.plot_density settings [depth] splice_region false false
         = UtilsTranscripts.Returns
             (Ok ([0; 1; 2]%Q, graph_to_gene, panels, gene_structure))).
Proof.
  cbv zeta. split; eexists; eexists; eexists; vm_compute; reflexivity.
Qed.

(** ** C3 *)

(** C3, counterexample.  In the window 10..20 the junction 10..15 lies
    within the window, yet its left endpoint is flagged: the left index
    is taken one offset before the junction's start. *)
Lemma junction_at_window_start_is_flagged :
  let depth :=
    {| rd_start := 10; wiggle := replicate 11 1%Q; junctions_dict := [];
       rd_max := 1 |} in
  let jxn := {| jxn_chromosome := "chr1"; jxn_start := 10; jxn_end := 15 |} in
  (10 <= jxn_start jxn <= 20 /\ 10 <= jxn_end jxn <= 20)
  /\ Utils.junction_indices depth (replicate 11 0%Q) jxn
     = ((0, true), (5, false)).
Proof. cbv zeta. split; [cbn; lia | reflexivity]. Qed.

(** C3, as amended.  In a window [tx_start .. tx_end] the left endpoint
    of a junction is flagged modified exactly when its start is at most
    [tx_start] or greater than [tx_end + 1], and the right endpoint
    exactly when its end is outside [tx_start .. tx_end].  Hence neither
    is flagged for a junction with [tx_start < start <= tx_end + 1] and
    [tx_start <= end <= tx_end], and when exactly one endpoint is beyond
    these bounds exactly that endpoint is flagged. *)
Theorem junction_indices_modified
    (read_depth_object : ReadDepth) (graph_coords : list Q) (tx_end : Z)
    (jxn : Junction) :
  Z.of_nat (length graph_coords) = tx_end - rd_start read_depth_object + 1 ->
  let tx_start := rd_start read_depth_object in
  let '((ss1_idx, ss1_modified), (ss2_idx, ss2_modified)) :=
    Utils.junction_indices read_depth_object graph_coords jxn in
  (ss1_modified = true
   <-> jxn_start jxn <= tx_start \/ tx_end + 1 < jxn_start jxn)
  /\ (ss2_modified = true
      <-> jxn_end jxn < tx_start \/ tx_end < jxn_end jxn)
  /\ (tx_start < jxn_start jxn <= tx_end + 1 ->
      tx_start <= jxn_end jxn <= tx_end ->
      ss1_modified = false /\ ss2_modified = false)
  /\ (ss1_modified = false -> ss1_idx = jxn_start jxn - tx_start - 1)
  /\ (ss2_modified = false -> ss2_idx = jxn_end jxn - tx_start).
Proof.
  intros Hlen. cbv zeta.
  unfold Utils.junction_indices, Utils.__get_limited_index__, Utils.tx_start.
  rewrite Hlen.
  destruct (Z.ltb_spec (jxn_start jxn - rd_start read_depth_object - 1) 0);
    destruct (Z.ltb_spec (jxn_end jxn - rd_start read_depth_object) 0);
    destruct (Z.geb_spec (jxn_start jxn - rd_start read_depth_object - 1)
                (tx_end - rd_start read_depth_object + 1));
    destruct (Z.geb_spec (jxn_end jxn - rd_start read_depth_object)
                (tx_end - rd_start read_depth_object + 1));
    repeat split; intros; try discriminate; try lia.
Qed.

(** C3, witness: the window 10..20 and the junction 12..25, whose right
    endpoint alone is beyond the window. *)
Lemma junction_indices_modified_witness :
  let depth :=
    {| rd_start := 10; wiggle := replicate 11 1%Q; junctions_dict := [];
       rd_max := 1 |} in
  let jxn := {| jxn_chromosome := "chr1"; jxn_start := 12; jxn_end := 25 |} in
  let '((ss1_idx, ss1_modified), (ss2_idx, ss2_modified)) :=
    Utils.junction_indices depth (replicate 11 0%Q) jxn in
  (ss1_modified = true <-> 12 <= 10 \/ 20 + 1 < 12)
  /\ (ss2_modified = true <-> 25 < 10 \/ 20 < 25)
  /\ (10 < 12 <= 20 + 1 -> 10 <= 25 <= 20 ->
      ss1_modified = false /\ ss2_modified = false)
  /\ (ss1_modified = false -> ss1_idx = 12 - 10 - 1)
  /\ (ss2_modified = false -> ss2_idx = 25 - 10).
Proof.
  exact (junction_indices_modified
           {| rd_start := 10; wiggle := replicate 11 1%Q;
              junctions_dict := []; rd_max := 1 |}
           (replicate 11 0%Q) 20
           {| jxn_chromosome := "chr1"; jxn_start := 12; jxn_end := 25 |}
           eq_refl).
Defined.

(** ** Sorting *)

Lemma insert_sorted_Permutation {A} (lt : A -> A -> bool) x (l : list A) :
  Permutation (insert_sorted lt x l) (x :: l).
Proof.
  induction l as [|y l IH]; cbn; [reflexivity|].
  destruct (lt y x); [|reflexivity].
  rewrite IH. apply perm_swap.
Qed.

Lemma stable_sort_Permutation {A} (lt : A -> A -> bool) (l : list A) :
  Permutation (stable_sort lt l) l.
Proof.
  induction l as [|x l IH]; cbn; [reflexivity|].
  rewrite insert_sorted_Permutation, IH. reflexivity.
Qed.

Section SortFacts.

Context {A : Type} (key : A -> Z).

Local Abbreviation lt_key := (fun a b : A => key a <? key b).
Local Abbreviation le_key := (fun a b : A => key a <= key b).

Lemma insert_sorted_HdRel a x (l : list A) :
  key a <= key x -> HdRel le_key a l -> HdRel le_key a (insert_sorted lt_key x l).
Proof.
  intros Hax Hal. destruct l as [|y l]; cbn; [constructor; exact Hax|].
  destruct (key y <? key x); constructor;
    [inversion Hal; assumption | exact Hax].
Qed.

Lemma insert_sorted_Sorted x (l : list A) :
  Sorted le_key l -> Sorted le_key (insert_sorted lt_key x l).
Proof.
  induction l as [|y l IH]; intros Hs; cbn.
  - repeat constructor.
  - inversion Hs as [|? ? Hs' Hhd]; subst.
    destruct (Z.ltb_spec (key y) (key x)) as [Hlt|Hge].
    + constructor; [apply IH; exact Hs'|].
      apply insert_sorted_HdRel; [lia | exact Hhd].
    + constructor; [exact Hs|]. constructor. exact Hge.
Qed.

Lemma stable_sort_Sorted (l : list A) : Sorted le_key (stable_sort lt_key l).
Proof.
  induction l as [|x l IH]; cbn; [constructor|].
  apply insert_sorted_Sorted. exact IH.
Qed.

(** Stability: the elements of one key keep their order. *)
Lemma insert_sorted_filter (k : Z) x (l : list A) :
  filter (fun a => key a = k) (insert_sorted lt_key x l)
  = filter (fun a => key a = k) (x :: l).
Proof.
  induction l as [|y l IH]; cbn [insert_sorted]; [reflexivity|].
  destruct (Z.ltb_spec (key y) (key x)) as [Hlt|Hge]; [|reflexivity].
  rewrite (filter_cons _ y), IH, !(filter_cons _ x), (filter_cons _ y).
  destruct (decide (key y = k)) as [Hy|Hy];
    destruct (decide (key x = k)) as [Hx|Hx]; try reflexivity.
  lia.
Qed.

Lemma stable_sort_filter (k : Z) (l : list A) :
  filter (fun a => key a = k) (stable_sort lt_key l)
  = filter (fun a => key a = k) l.
Proof.
  induction l as [|x l IH]; cbn [stable_sort fold_right]; [reflexivity|].
  fold (stable_sort lt_key l).
  rewrite insert_sorted_filter, !(filter_cons _ x), IH. reflexivity.
Qed.

Lemma sorted_key_reverse_Permutation (l : list A) :
  Permutation (sorted_key key true l) l.
Proof.
  unfold sorted_key.
  rewrite reverse_Permutation, stable_sort_Permutation.
  apply reverse_Permutation.
Qed.

Lemma sorted_key_reverse_StronglySorted (l : list A) :
  StronglySorted (fun a b => key b <= key a) (sorted_key key true l).
Proof.
  unfold sorted_key.
  apply Sorted.Sorted_StronglySorted.
  - intros a b c Hab Hbc. lia.
  - apply (Sorted_reverse le_key). apply stable_sort_Sorted.
Qed.

Lemma sorted_key_reverse_filter (k : Z) (l : list A) :
  filter (fun a => key a = k) (sorted_key key true l)
  = filter (fun a => key a = k) l.
Proof.
  unfold sorted_key.
  rewrite filter_reverse, stable_sort_filter, filter_reverse.
  apply reverse_involutive.
Qed.

End SortFacts.

(** A sort by a comparison of the elements' own: neighbours in the
    outcome are never the wrong way round. *)
Section SortBy.

Context {A : Type} (lt : A -> A -> bool) (R : A -> A -> Prop).
Hypothesis lt_R : forall x y, lt y x = true -> R y x.
Hypothesis not_lt_R : forall x y, lt y x = false -> R x y.

Lemma insert_sorted_HdRel_by a x (l : list A) :
  R a x -> HdRel R a l -> HdRel R a (insert_sorted lt x l).
Proof.
  intros Hax Hal. destruct l as [|y l]; cbn.
  - constructor. exact Hax.
  - destruct (lt y x); constructor;
      [inversion Hal; assumption | exact Hax].
Qed.

Lemma insert_sorted_Sorted_by x (l : list A) :
  Sorted R l -> Sorted R (insert_sorted lt x l).
Proof.
  induction l as [|y l IH]; intros Hs; cbn.
  - repeat constructor.
  - inversion Hs as [|? ? Hs' Hhd]; subst.
    destruct (lt y x) eqn:Hlt.
    + constructor; [apply IH; exact Hs'|].
      apply insert_sorted_HdRel_by; [apply lt_R; exact Hlt | exact Hhd].
    + constructor; [exact Hs|]. constructor. apply not_lt_R. exact Hlt.
Qed.

Lemma stable_sort_Sorted_by (l : list A) : Sorted R (stable_sort lt l).
Proof.
  induction l as [|x l IH]; cbn; [constructor|].
  apply insert_sorted_Sorted_by. exact IH.
Qed.

End SortBy.

(** ** C4 *)

(** C4, counterexample.  Of the junctions 12..19, of span 7, and 11..13,
    of span 2, [new_src] lays out the shorter one first, both when
    [Junction]'s [<] compares spans and when it compares positions;
    [utils] lays out the longer one first. *)
Lemma new_src_lays_out_smallest_junction_first :
  let long := {| jxn_chromosome := "chr1"; jxn_start := 12; jxn_end := 19 |} in
  let short := {| jxn_chromosome := "chr1"; jxn_start := 11; jxn_end := 13 |} in
  let read_depth_object :=
    {| rd_start := 10; wiggle := [1; 2; 3; 4; 5; 6; 7; 8; 9; 10; 11]%Q;
       junctions_dict := [(long, 4%Q); (short, 9%Q)]; rd_max := 11 |} in
  span short < span long
  /\ NewSrc.jxns_sorted_list (fun a b => span a <? span b) read_depth_object
     = [short; long]
  /\ NewSrc.jxns_sorted_list
       (fun a b =>
          (jxn_start a <? jxn_start b)
          || ((jxn_start a =? jxn_start b) && (jxn_end a <? jxn_end b)))
       read_depth_object
     = [short; long]
  /\ Utils.jxns_sorted_list read_depth_object = [long; short].
Proof.
  cbv zeta. split; [reflexivity|]. split; [reflexivity|].
  split; reflexivity.
Qed.

(** C4, as amended.  The list the junction loop of [utils]'
    [plot_density_single] runs over holds the keys of [junctions_dict]
    ordered by span, [end - start], in descending order; junctions of
    equal span keep the order the dict lists them in; so the first
    junction laid out has the largest span.  The list of [new_src] holds
    the same keys sorted by [Junction]'s own [<], in ascending order:
    of two neighbours the second is never smaller than the first.  When
    that [<] compares spans, the list is ordered by span in ascending
    order, junctions of equal span keep the order of the dict, and the
    first junction laid out has the smallest span. *)
Theorem jxns_sorted_list_order (read_depth_object : ReadDepth) :
  let sorted_list := Utils.jxns_sorted_list read_depth_object in
  Permutation sorted_list (keys (junctions_dict read_depth_object))
  /\ StronglySorted (fun a b => span b <= span a) sorted_list
  /\ (forall k,
        filter (fun j => span j = k) sorted_list
        = filter (fun j => span j = k)
            (keys (junctions_dict read_depth_object)))
  /\ (forall first rest j,
        sorted_list = first :: rest ->
        In j (keys (junctions_dict read_depth_object)) ->
        span j <= span first)
  /\ (forall junction_lt : Junction -> Junction -> bool,
        let new_src_list :=
          NewSrc.jxns_sorted_list junction_lt read_depth_object in
        Permutation new_src_list (keys (junctions_dict read_depth_object))
        /\ Sorted (fun a b => junction_lt a b = true
                              \/ junction_lt b a = false) new_src_list)
  /\ (let new_src_list :=
        NewSrc.jxns_sorted_list (fun a b => span a <? span b)
          read_depth_object in
      StronglySorted (fun a b => span a <= span b) new_src_list
      /\ (forall k,
            filter (fun j => span j = k) new_src_list
            = filter (fun j => span j = k)
                (keys (junctions_dict read_depth_object)))
      /\ (forall first rest j,
            new_src_list = first :: rest ->
            In j (keys (junctions_dict read_depth_object)) ->
            span first <= span j)).
Proof.
  cbv zeta. unfold Utils.jxns_sorted_list, Utils.jxns.
  unfold NewSrc.jxns_sorted_list, NewSrc.jxns.
  fold span. change (fun x : Junction => span x) with span.
  pose proof (sorted_key_reverse_Permutation span
                (keys (junctions_dict read_depth_object))) as Hperm.
  pose proof (sorted_key_reverse_StronglySorted span
                (keys (junctions_dict read_depth_object))) as Hsorted.
  split; [exact Hperm|]. split; [exact Hsorted|].
  split; [intros k; apply sorted_key_reverse_filter|].
  split.
  { intros first rest j Heq Hin. rewrite Heq in Hperm, Hsorted.
    apply (Permutation_in _ (Permutation_sym Hperm)) in Hin.
    destruct Hin as [<- | Hin]; [lia|].
    apply StronglySorted_inv in Hsorted. destruct Hsorted as [_ Hall].
    rewrite List.Forall_forall in Hall. apply Hall. exact Hin. }
  clear Hperm Hsorted. split.
  { intros junction_lt. split; [apply stable_sort_Permutation|].
    apply stable_sort_Sorted_by.
    - intros x y H. left. exact H.
    - intros x y H. right. exact H. }
  pose proof (stable_sort_Permutation (fun a b => span a <? span b)
                (keys (junctions_dict read_depth_object))) as Hperm.
  assert (Hsorted : StronglySorted (fun a b => span a <= span b)
                      (stable_sort (fun a b => span a <? span b)
                         (keys (junctions_dict read_depth_object)))).
  { apply Sorted.Sorted_StronglySorted.
    - intros a b c Hab Hbc. lia.
    - apply (stable_sort_Sorted span). }
  split; [exact Hsorted|].
  split; [intros k; apply (stable_sort_filter span)|].
  intros first rest j Heq Hin. rewrite Heq in Hperm, Hsorted.
  apply (Permutation_in _ (Permutation_sym Hperm)) in Hin.
  destruct Hin as [<- | Hin]; [lia|].
  apply StronglySorted_inv in Hsorted. destruct Hsorted as [_ Hall].
  rewrite List.Forall_forall in Hall. apply Hall. exact Hin.
Qed.

(** ** Lookups that succeed *)

Lemma getitem_in_range {A} (l : list A) (i : Z) :
  0 <= i < Z.of_nat (length l) ->
  exists a, getitem l i = Ok a /\ l !! Z.to_nat i = Some a.
Proof.
  intros Hi.
  destruct (lookup_lt_is_Some_2 l (Z.to_nat i)) as [a Ha]; [lia|].
  exists a. split; [|exact Ha].
  rewrite <- (Z2Nat.id i) by lia. apply getitem_lookup. exact Ha.
Qed.

Lemma utils_limited_index_range (num len : Z) :
  0 < len ->
  0 <= fst (Utils.__get_limited_index__ num len) < len.
Proof.
  intros Hlen. unfold Utils.__get_limited_index__.
  destruct (Z.ltb_spec num 0); [cbn; lia|].
  destruct (Z.geb_spec num len); cbn; lia.
Qed.

Lemma new_src_limited_index_range (num len : Z) :
  0 < len -> 0 <= NewSrc.__get_limited_index__ num len < len.
Proof.
  intros Hlen. unfold NewSrc.__get_limited_index__.
  destruct (Z.ltb_spec num 0); [lia|].
  destruct (Z.geb_spec num len); lia.
Qed.

Lemma junction_eqb_refl (j : Junction) : junction_eqb j j = true.
Proof.
  unfold junction_eqb.
  rewrite String.eqb_refl, !Z.eqb_refl. reflexivity.
Qed.

Lemma dict_get_key (jxns : junctions) (jxn : Junction) :
  In jxn (keys jxns) -> exists count, dict_get jxns jxn = Ok count.
Proof.
  induction jxns as [|[k v] rest IH]; intros Hin; [contradiction|].
  cbn [dict_get]. destruct (junction_eqb k jxn) eqn:E; [eauto|].
  destruct Hin as [Heq | Hin]; [|apply IH; exact Hin].
  cbn in Heq. subst k. rewrite junction_eqb_refl in E. discriminate E.
Qed.

(** ** max and min *)

Lemma Qltb_true (a b : Q) : Qltb a b = true <-> (a < b)%Q.
Proof.
  unfold Qltb. rewrite negb_true_iff. split.
  - intros H. apply Qnot_le_lt. intros Hle.
    apply Qle_bool_iff in Hle. congruence.
  - intros H. destruct (Qle_bool b a) eqn:E; [|reflexivity].
    apply Qle_bool_iff in E. exfalso. exact (Qlt_not_le _ _ H E).
Qed.

Lemma Qltb_false (a b : Q) : Qltb a b = false <-> (b <= a)%Q.
Proof.
  unfold Qltb. rewrite negb_false_iff. apply Qle_bool_iff.
Qed.

Lemma fold_max_spec (l : list Q) : forall a,
  let m := fold_left (fun m x => if Qltb m x then x else m) l a in
  (a <= m)%Q /\ Forall (fun x => x <= m)%Q l /\ In m (a :: l).
Proof.
  induction l as [|x l IH]; intros a; cbn.
  - split; [apply Qle_refl|]. split; [constructor | left; reflexivity].
  - destruct (Qltb a x) eqn:E.
    + apply Qltb_true in E. destruct (IH x) as (H1 & H2 & H3).
      split; [eapply Qle_trans; [apply Qlt_le_weak; exact E | exact H1]|].
      split; [constructor; assumption|]. right. exact H3.
    + apply Qltb_false in E. destruct (IH a) as (H1 & H2 & H3).
      split; [exact H1|].
      split; [constructor; [eapply Qle_trans; eassumption | assumption]|].
      destruct H3 as [H3 | H3]; [left; exact H3 | right; right; exact H3].
Qed.

Lemma fold_min_spec (l : list Q) : forall a,
  let m := fold_left (fun m x => if Qltb x m then x else m) l a in
  (m <= a)%Q /\ Forall (fun x => m <= x)%Q l /\ In m (a :: l).
Proof.
  induction l as [|x l IH]; intros a; cbn.
  - split; [apply Qle_refl|]. split; [constructor | left; reflexivity].
  - destruct (Qltb x a) eqn:E.
    + apply Qltb_true in E. destruct (IH x) as (H1 & H2 & H3).
      split; [eapply Qle_trans; [exact H1 | apply Qlt_le_weak; exact E]|].
      split; [constructor; assumption|]. right. exact H3.
    + apply Qltb_false in E. destruct (IH a) as (H1 & H2 & H3).
      split; [exact H1|].
      split; [constructor; [eapply Qle_trans; eassumption | assumption]|].
      destruct H3 as [H3 | H3]; [left; exact H3 | right; right; exact H3].
Qed.

Lemma py_max_spec (l : list Q) :
  l <> [] ->
  exists m, py_max l = Ok m /\ Forall (fun x => x <= m)%Q l /\ In m l.
Proof.
  destruct l as [|a l]; [contradiction|]. intros _.
  destruct (fold_max_spec l a) as (H1 & H2 & H3).
  eexists. split; [reflexivity|].
  split; [constructor; assumption | exact H3].
Qed.

Lemma py_min_spec (l : list Q) :
  l <> [] ->
  exists m, py_min l = Ok m /\ Forall (fun x => m <= x)%Q l /\ In m l.
Proof.
  destruct l as [|a l]; [contradiction|]. intros _.
  destruct (fold_min_spec l a) as (H1 & H2 & H3).
  eexists. split; [reflexivity|].
  split; [constructor; assumption | exact H3].
Qed.

(** ** Loops that append *)

Lemma for_each_append {I B} (body : I -> list B -> result (list B))
    (R : I -> B -> Prop) (l : list I) :
  (forall i acc, In i l -> exists b, body i acc = Ok (acc ++ [b]) /\ R i b) ->
  forall acc,
    exists bs, for_each body l acc = Ok (acc ++ bs) /\ Forall2 R l bs.
Proof.
  induction l as [|i l IH]; intros Hbody acc.
  - exists []. rewrite app_nil_r. split; [reflexivity | constructor].
  - destruct (Hbody i acc) as (b & Hb & HR); [left; reflexivity|].
    destruct (IH (fun j acc' Hj => Hbody j acc' (or_intror Hj)) (acc ++ [b]))
      as (bs & Hrun & Hall).
    exists (b :: bs). rewrite (for_each_cons _ _ _ _ _ Hb), Hrun.
    rewrite <- app_assoc. split; [reflexivity|].
    constructor; assumption.
Qed.

Lemma enumerate_lookup {A} (l : list A) (k : nat) :
  enumerate l !! k = (fun a => (Z.of_nat k, a)) <$> l !! k.
Proof.
  exact (list_lookup_imap (fun i a => (Z.of_nat i, a)) l k).
Qed.

Lemma enumerate_In {A} (l : list A) (item : Z * A) :
  In item (enumerate l) -> In (snd item) l.
Proof.
  intros Hin. apply list_elem_of_In, list_elem_of_lookup in Hin.
  destruct Hin as (k & Hk). rewrite enumerate_lookup in Hk.
  destruct (l !! k) as [a|] eqn:E; [|discriminate Hk].
  injection Hk as <-. cbn.
  apply list_elem_of_In, list_elem_of_lookup. eauto.
Qed.

Lemma length_enumerate {A} (l : list A) : length (enumerate l) = length l.
Proof. unfold enumerate. apply length_imap. Qed.

(** ** The loops of utils' plot_density_single *)

Section UtilsLoops.

Variables (read_depth_object : ReadDepth) (graph_coords : list Q).
Variable graph_to_gene : list (Z * Z).
Variables (y_max_arg : option Q) (number_junctions_arg show_x_axis : bool).
Variables (nx_ticks : Z) (no_bam : bool).

Hypothesis graph_coords_nonempty : (0 < length graph_coords)%nat.
Hypothesis wiggle_covers :
  (length graph_coords <= length (wiggle read_depth_object))%nat.
Hypothesis x_axis_ok :
  x_axis_readable graph_to_gene graph_coords show_x_axis nx_ticks.

Lemma utils_copy_loop m : forall k cx cw,
  (k + m = length graph_coords)%nat ->
  for_each (Utils.copy_body read_depth_object graph_coords)
    (map Z.of_nat (seq k m)) (cx, cw)
  = Ok (cx ++ drop k graph_coords,
        cw ++ take m (drop k (wiggle read_depth_object))).
Proof.
  induction m as [|m IH]; intros k cx cw Hk.
  - cbn [seq map for_each take]. rewrite drop_ge by lia.
    rewrite !app_nil_r. reflexivity.
  - destruct (lookup_lt_is_Some_2 graph_coords k) as [g Hg]; [lia|].
    destruct (lookup_lt_is_Some_2 (wiggle read_depth_object) k)
      as [w Hw]; [lia|].
    cbn [seq map].
    rewrite (for_each_cons _ _ _ _ (cx ++ [g], cw ++ [w])).
    2:{ unfold Utils.copy_body.
        rewrite (getitem_lookup _ _ _ Hw), bind_Ok.
        rewrite (getitem_lookup _ _ _ Hg), bind_Ok. reflexivity. }
    rewrite IH by lia.
    rewrite (drop_S _ _ _ Hg), (drop_S _ _ _ Hw). cbn [take].
    rewrite <- !app_assoc. reflexivity.
Qed.

Lemma utils_junction_body_ok (min_junction_count junction_count_gap : Q)
    (item : Z * Junction) (patches : list arc) :
  In (snd item) (keys (junctions_dict read_depth_object)) ->
  exists a,
    Utils.junction_body read_depth_object graph_coords y_max_arg
      number_junctions_arg no_bam min_junction_count junction_count_gap
      item patches = Ok (patches ++ [a])
    /\ utils_arc_spec read_depth_object graph_coords y_max_arg
         number_junctions_arg no_bam min_junction_count junction_count_gap
         item a.
Proof.
  intros Hkey. destruct item as [plotted_count jxn]. cbn [snd] in Hkey.
  unfold Utils.junction_body, utils_arc_spec. cbn [fst snd].
  pose proof (utils_limited_index_range
                (jxn_start jxn - Utils.tx_start read_depth_object - 1)
                (Z.of_nat (length graph_coords)) ltac:(lia)) as Hr1.
  pose proof (utils_limited_index_range
                (jxn_end jxn - Utils.tx_start read_depth_object)
                (Z.of_nat (length graph_coords)) ltac:(lia)) as Hr2.
  unfold Utils.junction_indices.
  destruct (Utils.__get_limited_index__
              (jxn_start jxn - Utils.tx_start read_depth_object - 1)
              (Z.of_nat (length graph_coords))) as [i1 m1].
  destruct (Utils.__get_limited_index__
              (jxn_end jxn - Utils.tx_start read_depth_object)
              (Z.of_nat (length graph_coords))) as [i2 m2].
  cbn [fst] in Hr1, Hr2.
  destruct (getitem_in_range graph_coords i1 ltac:(lia)) as (ss1 & Hg1 & Hl1).
  destruct (getitem_in_range graph_coords i2 ltac:(lia)) as (ss2 & Hg2 & Hl2).
  destruct (getitem_in_range (wiggle read_depth_object) i1 ltac:(lia))
    as (d1 & Hw1 & Hd1).
  destruct (getitem_in_range (wiggle read_depth_object) i2 ltac:(lia))
    as (d2 & Hw2 & Hd2).
  destruct (dict_get_key _ _ Hkey) as (count & Hcount).
  fold (Utils.jxns read_depth_object) in Hcount.
  rewrite Hg1, bind_Ok, Hg2, bind_Ok.
  rewrite <- Zeven_mod.
  assert (Hwidth :
    (if Qltb 0 junction_count_gap
     then count0 ← dict_get (Utils.jxns read_depth_object) jxn;
          pydiv (count0 - min_junction_count) junction_count_gap
     else Ok 0%Q)
    = Ok (if Qltb 0 junction_count_gap
          then (count - min_junction_count) / junction_count_gap
          else 0)%Q).
  { destruct (Qltb 0 junction_count_gap) eqn:E; [|reflexivity].
    rewrite Hcount, bind_Ok. apply pydiv_ok, Qpos_nonzero.
    apply Qltb_true. exact E. }
  assert (Hlabel :
    (if number_junctions_arg
     then count0 ← dict_get (Utils.jxns read_depth_object) jxn;
          Ok (Some count0)
     else Ok None)
    = Ok (if number_junctions_arg then Some count else None)).
  { destruct number_junctions_arg; [|reflexivity].
    rewrite Hcount. reflexivity. }
  destruct (Z.even plotted_count).
  - rewrite bind_Ok. cbn [cubic_bezier]. rewrite bind_Ok.
    rewrite Hlabel, bind_Ok, Hwidth, bind_Ok.
    eexists. split; [reflexivity|].
    exists ss1, ss2, d1, d2, count. cbn [pts lw label_count].
    repeat split; try assumption.
    unfold pts_below. destruct m1, m2; reflexivity.
  - rewrite Hw1, bind_Ok, Hw2, !bind_Ok. cbn [cubic_bezier].
    rewrite bind_Ok, Hlabel, bind_Ok, Hwidth, bind_Ok.
    eexists. split; [reflexivity|].
    exists ss1, ss2, d1, d2, count. cbn [pts lw label_count].
    repeat split; try assumption.
    unfold pts_above, anchor_depth. destruct m1, m2; reflexivity.
Qed.

(** [utils]' [plot_density_single] returns; its compressed sequences are
    the coordinate array and the depths themselves, one point per sample;
    it adds one arc per junction, in the order of [jxns_sorted_list]. *)
Lemma utils_plot_density_single_ok :
  exists p max_junction_count min_junction_count,
    Utils.plot_density_single read_depth_object graph_coords graph_to_gene
      y_max_arg number_junctions_arg show_x_axis nx_ticks no_bam = Ok p
    /\ Utils.junction_count_bounds read_depth_object
       = Ok (max_junction_count, min_junction_count)
    /\ compressed_x p = graph_coords
    /\ compressed_wiggle p
       = take (length graph_coords) (wiggle read_depth_object)
    /\ Forall2
         (utils_arc_spec read_depth_object graph_coords y_max_arg
            number_junctions_arg no_bam min_junction_count
            (max_junction_count - min_junction_count))
         (enumerate (Utils.jxns_sorted_list read_depth_object)) (arcs p).
Proof.
  unfold Utils.plot_density_single.
  rewrite range_of_nat, utils_copy_loop by lia.
  rewrite bind_Ok. cbn [app]. rewrite !drop_0.
  assert (Hmax :
    exists q, (if no_bam
               then py_max (take (length graph_coords)
                              (wiggle read_depth_object))
               else Ok 0%Q) = Ok q).
  { destruct no_bam; [|eauto].
    destruct (py_max_spec (take (length graph_coords)
                             (wiggle read_depth_object)))
      as (q & Hq & _); [|eauto].
    intros E. apply (f_equal length) in E.
    rewrite length_take in E. cbn in E. lia. }
  destruct Hmax as (q & ->). rewrite bind_Ok.
  assert (Hbounds :
    exists maxc minc,
      Utils.junction_count_bounds read_depth_object = Ok (maxc, minc)).
  { unfold Utils.junction_count_bounds.
    destruct (Utils.jxns read_depth_object) as [|e rest] eqn:E; [eauto|].
    destruct (py_max_spec (values (e :: rest))) as (maxc & -> & _);
      [discriminate|].
    destruct (py_min_spec (values (e :: rest))) as (minc & -> & _);
      [discriminate|].
    eauto. }
  destruct Hbounds as (maxc & minc & Hbounds). rewrite Hbounds, bind_Ok.
  destruct (for_each_append
              (Utils.junction_body read_depth_object graph_coords y_max_arg
                 number_junctions_arg no_bam minc (maxc - minc))
              (utils_arc_spec read_depth_object graph_coords y_max_arg
                 number_junctions_arg no_bam minc (maxc - minc))
              (enumerate (Utils.jxns_sorted_list read_depth_object)))
    with (acc := @nil arc) as (patches & Hrun & Hall).
  { intros item acc Hin. apply utils_junction_body_ok.
    apply enumerate_In in Hin.
    eapply Permutation_in; [|exact Hin].
    apply (sorted_key_reverse_Permutation
             (fun x => jxn_end x - jxn_start x)). }
  rewrite Hrun, bind_Ok. cbn [app].
  assert (Hticks :
    exists t,
      (if show_x_axis
       then t0 ← x_tick_labels graph_to_gene graph_coords nx_ticks;
            Ok (Some t0)
       else Ok None) = Ok t).
  { destruct show_x_axis; [|eauto].
    destruct (x_axis_ok eq_refl) as (t & ->). rewrite bind_Ok. eauto. }
  destruct Hticks as (t & ->). rewrite bind_Ok.
  destruct (py_max_spec graph_coords) as (xlim & -> & _).
  { intros E. rewrite E in graph_coords_nonempty.
    cbn in graph_coords_nonempty. lia. }
  rewrite bind_Ok.
  eexists _, maxc, minc. split; [reflexivity|].
  cbn [compressed_x compressed_wiggle arcs]. auto.
Qed.

End UtilsLoops.

(** ** The compression loop of new_src *)

Lemma for_each_never_raises {I S} (body : I -> S -> result S) (e : exn) :
  (forall i s, body i s <> Raise e) ->
  forall l s, for_each body l s <> Raise e.
Proof.
  intros Hbody l. induction l as [|i l IH]; intros s; [discriminate|].
  cbn [for_each]. specialize (Hbody i s).
  destruct (body i s) as [s'|e']; [apply IH|].
  cbn. congruence.
Qed.

Lemma inject_Z_length_snoc_nonzero {A} (l : list A) (a : A) :
  ~ (inject_Z (Z.of_nat (length (l ++ [a]))) == 0)%Q.
Proof.
  rewrite length_app. cbn [length]. unfold Qeq, inject_Z. cbn. lia.
Qed.

Section CompressLoop.

Variables (wiggle graphcoords : list Q) (resolution : Q).

Lemma compress_body_never_divides_by_zero (i : Z) (st : NewSrc.compress_state) :
  NewSrc.compress_body wiggle graphcoords resolution i st
  <> Raise ZeroDivisionError.
Proof.
  destruct st as [[[cx cw] prevx] tmpval]. unfold NewSrc.compress_body.
  destruct (getitem wiggle i) as [w|e] eqn:Ew.
  2:{ rewrite bind_Raise. apply getitem_raises in Ew. subst e.
      discriminate. }
  rewrite bind_Ok.
  destruct (getitem graphcoords i) as [g|e] eqn:Eg.
  2:{ rewrite bind_Raise. apply getitem_raises in Eg. subst e.
      discriminate. }
  rewrite bind_Ok.
  destruct (Qltb resolution (Qabs (g - prevx))); [|discriminate].
  rewrite pydiv_ok by apply inject_Z_length_snoc_nonzero.
  discriminate.
Qed.

Lemma compress_never_divides_by_zero :
  NewSrc.compress wiggle graphcoords resolution <> Raise ZeroDivisionError.
Proof.
  unfold NewSrc.compress, NewSrc.compress_loop.
  destruct (getitem graphcoords 0) as [prevx|e] eqn:E0.
  2:{ rewrite !bind_Raise. apply getitem_raises in E0. subst e.
      discriminate. }
  rewrite bind_Ok.
  pose proof (for_each_never_raises
                (NewSrc.compress_body wiggle graphcoords resolution)
                ZeroDivisionError compress_body_never_divides_by_zero
                (range (Z.of_nat (length graphcoords)))
                ([], [], prevx, [])) as Hloop.
  destruct (for_each _ _ _) as [[[[cx cw] px] tmp]|e];
    [discriminate | rewrite bind_Raise; congruence].
Qed.

Hypothesis wiggle_covers : (length graphcoords <= length wiggle)%nat.

Lemma compress_loop_steps m : forall k st,
  (k + m = length graphcoords)%nat ->
  exists st',
    for_each (NewSrc.compress_body wiggle graphcoords resolution)
      (map Z.of_nat (seq k m)) st = Ok st'.
Proof.
  induction m as [|m IH]; intros k st Hk; [eexists; reflexivity|].
  destruct (lookup_lt_is_Some_2 graphcoords k) as [g Hg]; [lia|].
  destruct (lookup_lt_is_Some_2 wiggle k) as [w Hw]; [lia|].
  destruct st as [[[cx cw] prevx] tmpval].
  assert (Hstep : exists st1,
    NewSrc.compress_body wiggle graphcoords resolution (Z.of_nat k)
      (cx, cw, prevx, tmpval) = Ok st1).
  { unfold NewSrc.compress_body.
    rewrite (getitem_lookup _ _ _ Hw), bind_Ok.
    rewrite (getitem_lookup _ _ _ Hg), bind_Ok.
    destruct (Qltb resolution (Qabs (g - prevx))); [|eauto].
    rewrite pydiv_ok by apply inject_Z_length_snoc_nonzero.
    rewrite bind_Ok. eauto. }
  destruct Hstep as (st1 & Hstep).
  cbn [seq map]. rewrite (for_each_cons _ _ _ _ _ Hstep).
  apply IH. lia.
Qed.

(** The loop returns on every input whose depths cover the coordinates. *)
Lemma compress_ok :
  (0 < length graphcoords)%nat ->
  exists cx cw, NewSrc.compress wiggle graphcoords resolution = Ok (cx, cw).
Proof.
  intros Hne. unfold NewSrc.compress, NewSrc.compress_loop.
  destruct (getitem_in_range graphcoords 0 ltac:(lia)) as (g0 & -> & _).
  rewrite bind_Ok, range_of_nat.
  destruct (compress_loop_steps (length graphcoords) 0 ([], [], g0, []))
    as ([[[cx cw] px] tmp] & ->); [lia|].
  rewrite bind_Ok. eauto.
Qed.

(** With a negative resolution every sample closes a bucket of its own,
    emitted at the coordinate the previous sample left in [prevx]. *)
Lemma compress_loop_negative m : forall k cx cw prevx,
  (resolution < 0)%Q ->
  (k + m = length graphcoords)%nat ->
  exists prevx',
    for_each (NewSrc.compress_body wiggle graphcoords resolution)
      (map Z.of_nat (seq k m)) (cx, cw, prevx, [])
    = Ok (cx ++ take m (prevx :: drop k graphcoords),
          cw ++ map (fun w => py_sum [w] / inject_Z (Z.of_nat 1))%Q
                  (take m (drop k wiggle)),
          prevx', []).
Proof.
  induction m as [|m IH]; intros k cx cw prevx Hres Hk.
  - exists prevx. cbn [seq map for_each take]. rewrite !app_nil_r.
    reflexivity.
  - destruct (lookup_lt_is_Some_2 graphcoords k) as [g Hg]; [lia|].
    destruct (lookup_lt_is_Some_2 wiggle k) as [w Hw]; [lia|].
    cbn [seq map].
    rewrite (for_each_cons (S := NewSrc.compress_state) _ _ _ _
               (cx ++ [prevx],
                cw ++ [(py_sum [w] / inject_Z (Z.of_nat 1))%Q], g, [])).
    2:{ unfold NewSrc.compress_body.
        rewrite (getitem_lookup _ _ _ Hw), bind_Ok.
        rewrite (getitem_lookup _ _ _ Hg), bind_Ok.
        assert (E : Qltb resolution (Qabs (g - prevx)) = true).
        { apply Qltb_true. eapply Qlt_le_trans; [exact Hres|].
          apply Qabs_nonneg. }
        rewrite E. cbn [app length].
        rewrite pydiv_ok; [reflexivity|].
        unfold Qeq, inject_Z. cbn. lia. }
    destruct (IH (S k) (cx ++ [prevx])
                (cw ++ [(py_sum [w] / inject_Z (Z.of_nat 1))%Q]) g Hres)
      as (prevx' & Hrun); [lia|].
    exists prevx'. rewrite Hrun.
    rewrite (drop_S _ _ _ Hg), (drop_S _ _ _ Hw). cbn [take map].
    rewrite <- !app_assoc. reflexivity.
Qed.

(** When every coordinate is within [resolution] of the first one no
    bucket is ever closed: the samples pile up in [tmpval]. *)
Lemma compress_loop_within m : forall k g0 tmpval,
  (forall g, In g graphcoords -> Qabs (g - g0) <= resolution)%Q ->
  (k + m = length graphcoords)%nat ->
  for_each (NewSrc.compress_body wiggle graphcoords resolution)
    (map Z.of_nat (seq k m)) ([], [], g0, tmpval)
  = Ok ([], [], g0, tmpval ++ take m (drop k wiggle)).
Proof.
  induction m as [|m IH]; intros k g0 tmpval Hwithin Hk.
  - cbn [seq map for_each take]. rewrite app_nil_r. reflexivity.
  - destruct (lookup_lt_is_Some_2 graphcoords k) as [g Hg]; [lia|].
    destruct (lookup_lt_is_Some_2 wiggle k) as [w Hw]; [lia|].
    cbn [seq map].
    rewrite (for_each_cons (S := NewSrc.compress_state) _ _ _ _
               ([], [], g0, tmpval ++ [w])).
    2:{ unfold NewSrc.compress_body.
        rewrite (getitem_lookup _ _ _ Hw), bind_Ok.
        rewrite (getitem_lookup _ _ _ Hg), bind_Ok.
        assert (E : Qltb resolution (Qabs (g - g0)) = false).
        { apply Qltb_false. apply Hwithin.
          apply list_elem_of_In, list_elem_of_lookup. eauto. }
        rewrite E. reflexivity. }
    rewrite IH by (assumption || lia).
    rewrite (drop_S _ _ _ Hw). cbn [take].
    rewrite <- app_assoc. reflexivity.
Qed.

End CompressLoop.

(** ** The loops of new_src's plot_density_single *)

Section NewSrcLoops.

Variable junction_lt : Junction -> Junction -> bool.
Variables (read_depth_object : ReadDepth) (graphcoords : list Q).
Variable graphToGene : list (Z * Z).
Variables (ymax_arg : option Q) (number_junctions_arg : bool).
Variables (resolution_arg : Q) (showXaxis : bool) (nxticks_arg : Z).

Hypothesis graphcoords_nonempty : (0 < length graphcoords)%nat.
Hypothesis wiggle_covers :
  (length graphcoords <= length (wiggle read_depth_object))%nat.
Hypothesis x_axis_ok :
  x_axis_readable graphToGene graphcoords showXaxis nxticks_arg.

Lemma new_src_junction_body_ok (ymin : Q) (item : Z * Junction)
    (patches : list arc) :
  In (snd item) (keys (junctions_dict read_depth_object)) ->
  exists a,
    NewSrc.junction_body read_depth_object graphcoords number_junctions_arg
      ymin item patches = Ok (patches ++ [a])
    /\ new_src_arc_spec read_depth_object graphcoords number_junctions_arg
         (- 3 * ymin / 4)%Q item a.
Proof.
  intros Hkey. destruct item as [plotted_count jxn]. cbn [snd] in Hkey.
  unfold NewSrc.junction_body, new_src_arc_spec, NewSrc.tx_start.
  cbn [fst snd].
  set (left_num := jxn_start jxn - rd_start read_depth_object - 1).
  set (right_num := jxn_end jxn - rd_start read_depth_object).
  pose proof (new_src_limited_index_range left_num
                (Z.of_nat (length graphcoords)) ltac:(lia)) as Hr1.
  pose proof (new_src_limited_index_range right_num
                (Z.of_nat (length graphcoords)) ltac:(lia)) as Hr2.
  pose proof (new_src_limited_index_range left_num
                (Z.of_nat (length (wiggle read_depth_object))) ltac:(lia))
    as Hr3.
  pose proof (new_src_limited_index_range right_num
                (Z.of_nat (length (wiggle read_depth_object))) ltac:(lia))
    as Hr4.
  destruct (getitem_in_range graphcoords _ Hr1) as (ss1 & Hg1 & Hl1).
  destruct (getitem_in_range graphcoords _ Hr2) as (ss2 & Hg2 & Hl2).
  destruct (getitem_in_range (wiggle read_depth_object) _ Hr3)
    as (d1 & Hw1 & Hd1).
  destruct (getitem_in_range (wiggle read_depth_object) _ Hr4)
    as (d2 & Hw2 & Hd2).
  destruct (dict_get_key _ _ Hkey) as (count & Hcount).
  fold (NewSrc.jxns read_depth_object) in Hcount.
  rewrite Hg1, bind_Ok, Hg2, bind_Ok.
  assert (Hlabel :
    (if number_junctions_arg
     then count0 ← dict_get (NewSrc.jxns read_depth_object) jxn;
          Ok (Some count0)
     else Ok None)
    = Ok (if number_junctions_arg then Some count else None)).
  { destruct number_junctions_arg; [|reflexivity].
    rewrite Hcount. reflexivity. }
  assert (Hparity : (plotted_count mod 2 =? 1) = negb (Z.even plotted_count)).
  { rewrite Zmod_even. destruct (Z.even plotted_count); reflexivity. }
  rewrite Hparity.
  destruct (Z.even plotted_count); cbn [negb].
  - rewrite Hw1, bind_Ok, Hw2, !bind_Ok. cbn [cubic_bezier].
    rewrite bind_Ok, Hlabel, bind_Ok.
    eexists. split; [reflexivity|].
    exists ss1, ss2, d1, d2, count. cbn [pts lw label_count].
    repeat split; assumption.
  - rewrite bind_Ok. cbn [cubic_bezier]. rewrite bind_Ok.
    rewrite Hlabel, bind_Ok.
    eexists. split; [reflexivity|].
    exists ss1, ss2, d1, d2, count. cbn [pts lw label_count].
    repeat split; assumption.
Qed.

(** [new_src]'s [plot_density_single] returns, with one arc per junction
    in the order of [jxns_sorted_list]. *)
Lemma new_src_plot_density_single_ok :
  exists p maxheight,
    NewSrc.plot_density_single junction_lt read_depth_object graphcoords
      graphToGene ymax_arg number_junctions_arg resolution_arg showXaxis
      nxticks_arg = Ok p
    /\ py_max (wiggle read_depth_object) = Ok maxheight
    /\ NewSrc.compress (wiggle read_depth_object) graphcoords resolution_arg
       = Ok (compressed_x p, compressed_wiggle p)
    /\ Forall2
         (new_src_arc_spec read_depth_object graphcoords
            number_junctions_arg
            (new_src_current_height ymax_arg maxheight))
         (enumerate (NewSrc.jxns_sorted_list junction_lt read_depth_object))
         (arcs p).
Proof.
  unfold NewSrc.plot_density_single.
  destruct (py_max_spec (wiggle read_depth_object))
    as (maxheight & Hmax & _).
  { intros E. rewrite E in wiggle_covers. cbn in wiggle_covers. lia. }
  rewrite Hmax, bind_Ok.
  destruct (compress_ok (wiggle read_depth_object) graphcoords
              resolution_arg wiggle_covers graphcoords_nonempty)
    as (cx & cw & Hcompress).
  rewrite Hcompress, bind_Ok.
  set (ymin := (- (1 # 2) *
                match ymax_arg with
                | Some y => y
                | None => (11 # 10) * maxheight
                end)%Q).
  destruct (for_each_append
              (NewSrc.junction_body read_depth_object graphcoords
                 number_junctions_arg ymin)
              (new_src_arc_spec read_depth_object graphcoords
                 number_junctions_arg (- 3 * ymin / 4)%Q)
              (enumerate
                 (NewSrc.jxns_sorted_list junction_lt read_depth_object)))
    with (acc := @nil arc) as (patches & Hrun & Hall).
  { intros item acc Hin. apply new_src_junction_body_ok.
    apply enumerate_In in Hin.
    eapply Permutation_in; [|exact Hin].
    apply stable_sort_Permutation. }
  rewrite Hrun, bind_Ok. cbn [app].
  assert (Hticks :
    exists t,
      (if showXaxis
       then t0 ← x_tick_labels graphToGene graphcoords nxticks_arg;
            Ok (Some t0)
       else Ok None) = Ok t).
  { destruct showXaxis; [|eauto].
    destruct (x_axis_ok eq_refl) as (t & ->). rewrite bind_Ok. eauto. }
  destruct Hticks as (t & ->). rewrite bind_Ok.
  destruct (py_max_spec graphcoords) as (xlim & -> & _).
  { intros E. rewrite E in graphcoords_nonempty.
    cbn in graphcoords_nonempty. lia. }
  rewrite bind_Ok.
  eexists _, maxheight. split; [reflexivity|].
  cbn [compressed_x compressed_wiggle arcs]. auto.
Qed.

End NewSrcLoops.

(** ** C5 *)

(** The example data is what [get_scaling] returns for the window 10..20
    without exons, drawn forward with both scales 1. *)
Lemma example_data_from_get_scaling :
  get_scaling 10 20 (PyStr "+") [] [] 1 1 false
  = Ok (example_graph_coords, example_graph_to_gene).
Proof. reflexivity. Qed.

Lemma arc_height_nonneg (y : Q) :
  (0 <= y)%Q -> (0 <= - 3 * (- (1 # 2) * y) / 4)%Q.
Proof.
  intros Hy.
  assert (E : (- 3 * (- (1 # 2) * y) / 4 == (3 # 8) * y)%Q) by field.
  rewrite E. apply Qmult_le_0_compat; [|exact Hy].
  unfold Qle. cbn. lia.
Qed.

Lemma pts_below_nonpositive (h ss1 ss2 : Q) (m1 m2 : bool) :
  (0 <= h)%Q ->
  Forall (fun pt : point => snd pt <= 0)%Q (pts_below h ss1 ss2 m1 m2).
Proof.
  intros Hh.
  assert (Hneg : (- h <= 0)%Q).
  { apply (Qopp_le_compat 0 h) in Hh. exact Hh. }
  unfold pts_below.
  repeat constructor; cbn [snd];
    try exact Hneg; destruct m1, m2; try exact Hneg; apply Qle_refl.
Qed.

Lemma py_max_nonneg (l : list Q) (m : Q) :
  Forall (fun d => 0 <= d)%Q l -> py_max l = Ok m -> (0 <= m)%Q.
Proof.
  intros Hl Hm. destruct l as [|a l]; [discriminate Hm|].
  destruct (py_max_spec (a :: l)) as (m' & Hm' & _ & Hin); [discriminate|].
  rewrite Hm in Hm'. injection Hm' as <-.
  rewrite List.Forall_forall in Hl. apply Hl. exact Hin.
Qed.

(** C5, counterexample.  In [utils] the junction of rank 0 is hung below
    the baseline: its anchors are at height 0 and its arc at negative
    height, while the depth at both of its endpoints is 5. *)
Lemma utils_rank_zero_junction_is_drawn_below :
  let depth :=
    {| rd_start := 10; wiggle := replicate 11 5%Q;
       junctions_dict :=
         [({| jxn_chromosome := "chr1"; jxn_start := 12; jxn_end := 15 |},
           7%Q)];
       rd_max := 5 |} in
  let graph_coords := example_graph_coords in
  exists p a,
    Utils.plot_density_single depth graph_coords example_graph_to_gene
        (Some 6%Q) true true 4 false = Ok p
    /\ arcs p !! 0%nat = Some a
    /\ pts a = [(1, 0); (1, - 18 # 8); (5, - 18 # 8); (5, 0)]%Q
    /\ Utils.junction_indices depth graph_coords
         {| jxn_chromosome := "chr1"; jxn_start := 12; jxn_end := 15 |}
       = ((1, false), (5, false))
    /\ wiggle depth !! 1%nat = Some 5%Q
    /\ wiggle depth !! 5%nat = Some 5%Q
    /\ ~ (0 == 5)%Q.
Proof.
  cbv zeta. eexists. eexists.
  split; [vm_compute; reflexivity|].
  split; [reflexivity|].
  repeat split. intros H. discriminate H.
Qed.

(** C5, as amended.  Junctions alternate by rank, and the two files do it
    in opposite ways.  In [utils] an even-ranked junction (rank 0, 2, ...)
    is hung below the baseline, at non-positive heights, and an
    odd-ranked one is raised above the coverage signal, its anchors taken
    from the depth array at its two endpoint indices (halved when there
    is no bam, and lifted to the arc's height at a clamped endpoint).  In
    [new_src] an even-ranked junction is raised above the signal, its
    anchors the depths at its endpoint indices, and an odd-ranked one is
    hung below the baseline at non-positive heights. *)
Theorem junction_placement_by_rank
    (junction_lt : Junction -> Junction -> bool)
    (read_depth_object : ReadDepth) (graph_coords : list Q)
    (graph_to_gene : list (Z * Z)) (y_max_arg ymax_arg : option Q)
    (number_junctions_arg show_x_axis no_bam : bool)
    (nx_ticks : Z) (resolution_arg : Q) :
  (0 < length graph_coords)%nat ->
  (length graph_coords <= length (wiggle read_depth_object))%nat ->
  x_axis_readable graph_to_gene graph_coords show_x_axis nx_ticks ->
  Forall (fun d => 0 <= d)%Q (wiggle read_depth_object) ->
  (0 <= Utils.y_max read_depth_object y_max_arg)%Q ->
  (forall y, ymax_arg = Some y -> 0 <= y)%Q ->
  (exists p,
      Utils.plot_density_single read_depth_object graph_coords graph_to_gene
        y_max_arg number_junctions_arg show_x_axis nx_ticks no_bam = Ok p
      /\ length (arcs p) = length (Utils.jxns_sorted_list read_depth_object)
      /\ forall (k : nat) jxn a,
           Utils.jxns_sorted_list read_depth_object !! k = Some jxn ->
           arcs p !! k = Some a ->
           let h := Utils.current_height read_depth_object y_max_arg in
           let '((ss1_idx, ss1_modified), (ss2_idx, ss2_modified)) :=
             Utils.junction_indices read_depth_object graph_coords jxn in
           exists ss1 ss2 left_dens right_dens,
             graph_coords !! Z.to_nat ss1_idx = Some ss1
             /\ graph_coords !! Z.to_nat ss2_idx = Some ss2
             /\ wiggle read_depth_object !! Z.to_nat ss1_idx = Some left_dens
             /\ wiggle read_depth_object !! Z.to_nat ss2_idx
                = Some right_dens
             /\ if Z.even (Z.of_nat k)
                then pts a = pts_below h ss1 ss2 ss1_modified ss2_modified
                     /\ Forall (fun pt : point => snd pt <= 0)%Q (pts a)
                else pts a
                     = pts_above h ss1 ss2 (anchor_depth no_bam left_dens)
                         (anchor_depth no_bam right_dens)
                         ss1_modified ss2_modified)
  /\ (exists p maxheight,
         NewSrc.plot_density_single junction_lt read_depth_object
           graph_coords graph_to_gene ymax_arg number_junctions_arg
           resolution_arg show_x_axis nx_ticks = Ok p
         /\ py_max (wiggle read_depth_object) = Ok maxheight
         /\ length (arcs p)
            = length (NewSrc.jxns_sorted_list junction_lt read_depth_object)
         /\ forall (k : nat) jxn a,
              NewSrc.jxns_sorted_list junction_lt read_depth_object !! k
                = Some jxn ->
              arcs p !! k = Some a ->
              let h := new_src_current_height ymax_arg maxheight in
              let left_num :=
                jxn_start jxn - rd_start read_depth_object - 1 in
              let right_num := jxn_end jxn - rd_start read_depth_object in
              let glen := Z.of_nat (length graph_coords) in
              let wlen := Z.of_nat (length (wiggle read_depth_object)) in
              exists ss1 ss2 leftdens rightdens,
                graph_coords
                  !! Z.to_nat (NewSrc.__get_limited_index__ left_num glen)
                  = Some ss1
                /\ graph_coords
                     !! Z.to_nat (NewSrc.__get_limited_index__ right_num glen)
                   = Some ss2
                /\ wiggle read_depth_object
                     !! Z.to_nat (NewSrc.__get_limited_index__ left_num wlen)
                   = Some leftdens
                /\ wiggle read_depth_object
                     !! Z.to_nat (NewSrc.__get_limited_index__ right_num wlen)
                   = Some rightdens
                /\ if Z.even (Z.of_nat k)
                   then pts a
                        = [ (ss1, leftdens); (ss1, leftdens + h);
                            (ss2, rightdens + h); (ss2, rightdens) ]%Q
                   else pts a
                        = [ (ss1, 0); (ss1, - h); (ss2, - h); (ss2, 0) ]%Q
                        /\ Forall (fun pt : point => snd pt <= 0)%Q (pts a)).
Proof.
  intros Hne Hcover Hticks Hdepth Hymax Hymax'. split.
  - destruct (utils_plot_density_single_ok read_depth_object graph_coords
                graph_to_gene y_max_arg number_junctions_arg show_x_axis
                nx_ticks no_bam Hne Hcover Hticks)
      as (p & maxc & minc & Hrun & _ & _ & _ & Hall).
    exists p. split; [exact Hrun|]. split.
    { rewrite <- (Forall2_length _ _ _ Hall). apply length_enumerate. }
    intros k jxn a Hk Ha.
    assert (Hitem : enumerate (Utils.jxns_sorted_list read_depth_object) !! k
                    = Some (Z.of_nat k, jxn)).
    { rewrite enumerate_lookup, Hk. reflexivity. }
    pose proof (Forall2_lookup_lr _ _ _ _ _ _ Hall Hitem Ha) as Hspec.
    unfold utils_arc_spec in Hspec. cbn [fst snd] in Hspec. cbv zeta.
    destruct (Utils.junction_indices read_depth_object graph_coords jxn)
      as [[i1 m1] [i2 m2]].
    destruct Hspec as (ss1 & ss2 & d1 & d2 & count & H1 & H2 & H3 & H4
                       & _ & Hpts & _).
    exists ss1, ss2, d1, d2. repeat (split; [assumption|]).
    destruct (Z.even (Z.of_nat k)); [|exact Hpts].
    split; [exact Hpts|]. rewrite Hpts.
    apply pts_below_nonpositive.
    unfold Utils.current_height, Utils.y_min.
    apply arc_height_nonneg. exact Hymax.
  - destruct (new_src_plot_density_single_ok junction_lt read_depth_object
                graph_coords graph_to_gene ymax_arg number_junctions_arg
                resolution_arg show_x_axis nx_ticks Hne Hcover Hticks)
      as (p & maxheight & Hrun & Hmax & _ & Hall).
    exists p, maxheight. split; [exact Hrun|]. split; [exact Hmax|]. split.
    { rewrite <- (Forall2_length _ _ _ Hall). apply length_enumerate. }
    intros k jxn a Hk Ha.
    assert (Hitem :
      enumerate (NewSrc.jxns_sorted_list junction_lt read_depth_object) !! k
      = Some (Z.of_nat k, jxn)).
    { rewrite enumerate_lookup, Hk. reflexivity. }
    pose proof (Forall2_lookup_lr _ _ _ _ _ _ Hall Hitem Ha) as Hspec.
    unfold new_src_arc_spec in Hspec. cbn [fst snd] in Hspec. cbv zeta.
    destruct Hspec as (ss1 & ss2 & d1 & d2 & count & H1 & H2 & H3 & H4
                       & _ & Hpts & _).
    exists ss1, ss2, d1, d2. repeat (split; [assumption|]).
    destruct (Z.even (Z.of_nat k)); [exact Hpts|].
    split; [exact Hpts|]. rewrite Hpts.
    apply pts_below_nonpositive.
    unfold new_src_current_height. apply arc_height_nonneg.
    destruct ymax_arg as [y|]; [apply Hymax'; reflexivity|].
    apply Qmult_le_0_compat; [unfold Qle; cbn; lia|].
    eapply py_max_nonneg; eassumption.
Qed.

(** C5, witness: one window, three junctions. *)
Lemma junction_placement_by_rank_witness :
  let depth :=
    {| rd_start := 10; wiggle := replicate 11 5%Q;
       junctions_dict :=
         [({| jxn_chromosome := "chr1"; jxn_start := 12; jxn_end := 15 |},
           7%Q);
          ({| jxn_chromosome := "chr1"; jxn_start := 11; jxn_end := 19 |},
           3%Q);
          ({| jxn_chromosome := "chr1"; jxn_start := 13; jxn_end := 30 |},
           9%Q)];
       rd_max := 5 |} in
  let graph_coords := example_graph_coords in
  (exists p,
      Utils.plot_density_single depth graph_coords example_graph_to_gene
        (Some 6%Q) true true 4 false
      = Ok p
      /\ length (arcs p) = length (Utils.jxns_sorted_list depth))
  /\ (exists p,
         NewSrc.plot_density_single (fun a b => span a <? span b) depth
           graph_coords example_graph_to_gene None true (1 # 2) true 4 = Ok p
         /\ length (arcs p)
            = length (NewSrc.jxns_sorted_list (fun a b => span a <? span b)
                        depth)).
Proof.
  cbv zeta.
  destruct (junction_placement_by_rank
              (fun a b => span a <? span b)
              {| rd_start := 10; wiggle := replicate 11 5%Q;
                 junctions_dict :=
                   [({| jxn_chromosome := "chr1"; jxn_start := 12;
                        jxn_end := 15 |}, 7%Q);
                    ({| jxn_chromosome := "chr1"; jxn_start := 11;
                        jxn_end := 19 |}, 3%Q);
                    ({| jxn_chromosome := "chr1"; jxn_start := 13;
                        jxn_end := 30 |}, 9%Q)];
                 rd_max := 5 |}
              example_graph_coords example_graph_to_gene
              (Some 6%Q) None true true false 4 (1 # 2))
    as [(p & Hp & Hlen & _) (p' & m & Hp' & _ & Hlen' & _)].
  - cbn. lia.
  - cbn. lia.
  - intros _. eexists. vm_compute. reflexivity.
  - repeat constructor; unfold Qle; cbn; lia.
  - unfold Qle. cbn. lia.
  - intros y Hy. discriminate Hy.
  - split; [exists p | exists p']; split; assumption.
Defined.

(** ** C6 *)

Lemma utils_junction_count_bounds_nonempty (read_depth_object : ReadDepth)
    (max_junction_count min_junction_count : Q) :
  junctions_dict read_depth_object <> [] ->
  Utils.junction_count_bounds read_depth_object
  = Ok (max_junction_count, min_junction_count) ->
  py_max (values (junctions_dict read_depth_object)) = Ok max_junction_count
  /\ py_min (values (junctions_dict read_depth_object))
     = Ok min_junction_count.
Proof.
  unfold Utils.junction_count_bounds, Utils.jxns.
  destruct (junctions_dict read_depth_object) as [|e rest];
    [contradiction|]. intros _.
  destruct (py_max (values (e :: rest))) as [maxc|err];
    [|rewrite bind_Raise; discriminate].
  rewrite bind_Ok.
  destruct (py_min (values (e :: rest))) as [minc|err];
    [|rewrite bind_Raise; discriminate].
  rewrite bind_Ok. intros H. injection H as <- <-. split; reflexivity.
Qed.

Lemma unequal_counts_spread (l : list Q) (maxc minc c1 c2 : Q) :
  Forall (fun x => x <= maxc)%Q l -> Forall (fun x => minc <= x)%Q l ->
  In c1 l -> In c2 l -> ~ (c1 == c2)%Q -> (minc < maxc)%Q.
Proof.
  rewrite !List.Forall_forall. intros Hmax Hmin H1 H2 Hne.
  destruct (Qlt_le_dec minc maxc) as [Hlt|Hle]; [exact Hlt|].
  exfalso. apply Hne.
  assert (E : forall c, In c l -> (c == minc)%Q).
  { intros c Hc. apply Qle_antisym; [|apply Hmin; exact Hc].
    eapply Qle_trans; [apply Hmax; exact Hc | exact Hle]. }
  rewrite (E c1 H1), (E c2 H2). reflexivity.
Qed.

(** C6, counterexample.  In [new_src] the two junctions with counts 5 and
    20 are both stroked with width 0.5, neither 0.2 nor 1.2. *)
Lemma new_src_stroke_width_ignores_counts :
  let depth :=
    {| rd_start := 10; wiggle := replicate 11 5%Q;
       junctions_dict :=
         [({| jxn_chromosome := "chr1"; jxn_start := 12; jxn_end := 14 |},
           5%Q);
          ({| jxn_chromosome := "chr1"; jxn_start := 11; jxn_end := 17 |},
           20%Q)];
       rd_max := 5 |} in
  let graphcoords := example_graph_coords in
  exists p,
    NewSrc.plot_density_single (fun a b => span a <? span b) depth
      graphcoords example_graph_to_gene None true (1 # 2) true 4 = Ok p
    /\ map label_count (arcs p) = [Some 5%Q; Some 20%Q]
    /\ map lw (arcs p) = [5 # 10; 5 # 10]
    /\ ~ (5 # 10 == 2 # 10)%Q /\ ~ (5 # 10 == 12 # 10)%Q.
Proof.
  cbv zeta. eexists. split; [vm_compute; reflexivity|].
  split; [reflexivity|]. split; [reflexivity|].
  split; intros H; discriminate H.
Qed.

(** C6, as amended.  In [utils], each junction's stroke width is
    0.2 + (count - min) / (max - min), with min and max the least and the
    greatest count of the panel, whenever the counts are not all equal,
    and is 0.2, with no division, when max equals min; counts 5 and 20
    yield the widths 0.2 and 1.2.  In [new_src] every junction is stroked
    with the constant width 0.5. *)
Theorem junction_stroke_width
    (junction_lt : Junction -> Junction -> bool)
    (read_depth_object : ReadDepth) (graph_coords : list Q)
    (graph_to_gene : list (Z * Z)) (y_max_arg ymax_arg : option Q)
    (number_junctions_arg show_x_axis no_bam : bool)
    (nx_ticks : Z) (resolution_arg : Q) :
  (0 < length graph_coords)%nat ->
  (length graph_coords <= length (wiggle read_depth_object))%nat ->
  x_axis_readable graph_to_gene graph_coords show_x_axis nx_ticks ->
  (exists p,
      Utils.plot_density_single read_depth_object graph_coords graph_to_gene
        y_max_arg number_junctions_arg show_x_axis nx_ticks no_bam = Ok p
      /\ length (arcs p) = length (junctions_dict read_depth_object)
      /\ forall (k : nat) jxn a,
           Utils.jxns_sorted_list read_depth_object !! k = Some jxn ->
           arcs p !! k = Some a ->
           exists count max_count min_count,
             dict_get (junctions_dict read_depth_object) jxn = Ok count
             /\ py_max (values (junctions_dict read_depth_object))
                = Ok max_count
             /\ py_min (values (junctions_dict read_depth_object))
                = Ok min_count
             /\ ((exists c1 c2,
                    In c1 (values (junctions_dict read_depth_object))
                    /\ In c2 (values (junctions_dict read_depth_object))
                    /\ ~ (c1 == c2)%Q) ->
                 (lw a ==
                  (2 # 10) + (count - min_count) / (max_count - min_count))%Q)
             /\ ((max_count == min_count)%Q -> (lw a == 2 # 10)%Q))
  /\ (exists p,
         NewSrc.plot_density_single junction_lt read_depth_object
           graph_coords graph_to_gene ymax_arg number_junctions_arg
           resolution_arg show_x_axis nx_ticks = Ok p
         /\ length (arcs p) = length (junctions_dict read_depth_object)
         /\ Forall (fun a => lw a = 5 # 10) (arcs p))
  /\ (exists p a20 a5,
         Utils.plot_density_single
           {| rd_start := 10; wiggle := replicate 11 5%Q;
              junctions_dict :=
                [({| jxn_chromosome := "chr1"; jxn_start := 12;
                     jxn_end := 14 |}, 5%Q);
                 ({| jxn_chromosome := "chr1"; jxn_start := 11;
                     jxn_end := 17 |}, 20%Q)];
              rd_max := 5 |}
           example_graph_coords example_graph_to_gene (Some 6%Q) true true 4
           false
         = Ok p
         /\ arcs p = [a20; a5]
         /\ label_count a20 = Some 20%Q /\ (lw a20 == 12 # 10)%Q
         /\ label_count a5 = Some 5%Q /\ (lw a5 == 2 # 10)%Q).
Proof.
  intros Hne Hcover Hticks. split; [|split].
  - destruct (utils_plot_density_single_ok read_depth_object graph_coords
                graph_to_gene y_max_arg number_junctions_arg show_x_axis
                nx_ticks no_bam Hne Hcover Hticks)
      as (p & maxc & minc & Hrun & Hbounds & _ & _ & Hall).
    assert (Hperm : Permutation (Utils.jxns_sorted_list read_depth_object)
                      (keys (junctions_dict read_depth_object))).
    { apply (sorted_key_reverse_Permutation
               (fun x => jxn_end x - jxn_start x)). }
    exists p. split; [exact Hrun|]. split.
    { rewrite <- (Forall2_length _ _ _ Hall), length_enumerate.
      rewrite (Permutation_length Hperm). apply length_map. }
    intros k jxn a Hk Ha.
    assert (Hitem : enumerate (Utils.jxns_sorted_list read_depth_object) !! k
                    = Some (Z.of_nat k, jxn)).
    { rewrite enumerate_lookup, Hk. reflexivity. }
    pose proof (Forall2_lookup_lr _ _ _ _ _ _ Hall Hitem Ha) as Hspec.
    unfold utils_arc_spec in Hspec. cbn [fst snd] in Hspec.
    destruct (Utils.junction_indices read_depth_object graph_coords jxn)
      as [[i1 m1] [i2 m2]].
    destruct Hspec as (_ & _ & _ & _ & count & _ & _ & _ & _ & Hcount
                       & _ & Hlw & _).
    assert (Hdict : junctions_dict read_depth_object <> []).
    { intros E. rewrite E in Hcount. discriminate Hcount. }
    destruct (utils_junction_count_bounds_nonempty _ _ _ Hdict Hbounds)
      as [Hmax Hmin].
    exists count, maxc, minc.
    split; [exact Hcount|]. split; [exact Hmax|]. split; [exact Hmin|].
    assert (Hvalues : values (junctions_dict read_depth_object) <> []).
    { destruct (junctions_dict read_depth_object); [contradiction|].
      discriminate. }
    destruct (py_max_spec _ Hvalues) as (maxc' & Hmax' & Hub & _).
    destruct (py_min_spec _ Hvalues) as (minc' & Hmin' & Hlb & _).
    rewrite Hmax in Hmax'. injection Hmax' as <-.
    rewrite Hmin in Hmin'. injection Hmin' as <-.
    rewrite Hlw. split.
    + intros (c1 & c2 & H1 & H2 & Hc).
      pose proof (unequal_counts_spread _ _ _ _ _ Hub Hlb H1 H2 Hc) as Hlt.
      assert (E : Qltb 0 (maxc - minc) = true).
      { apply Qltb_true. apply (proj1 (Qlt_minus_iff minc maxc)). exact Hlt. }
      rewrite E. apply Qplus_comm.
    + intros Heq.
      assert (E : Qltb 0 (maxc - minc) = false).
      { apply Qltb_false. rewrite Heq. unfold Qminus.
        rewrite Qplus_opp_r. apply Qle_refl. }
      rewrite E. apply Qplus_0_l.
  - destruct (new_src_plot_density_single_ok junction_lt read_depth_object
                graph_coords graph_to_gene ymax_arg number_junctions_arg
                resolution_arg show_x_axis nx_ticks Hne Hcover Hticks)
      as (p & maxheight & Hrun & _ & _ & Hall).
    exists p. split; [exact Hrun|]. split.
    { rewrite <- (Forall2_length _ _ _ Hall), length_enumerate.
      unfold NewSrc.jxns_sorted_list.
      rewrite (Permutation_length (stable_sort_Permutation _ _)).
      apply length_map. }
    clear Hrun. induction Hall as [|item a items arcs0 Hspec _ IH];
      constructor; [|exact IH].
    unfold new_src_arc_spec in Hspec.
    destruct Hspec as (_ & _ & _ & _ & _ & _ & _ & _ & _ & _ & _ & Hlw & _).
    exact Hlw.
  - eexists. eexists. eexists.
    split; [vm_compute; reflexivity|].
    split; [reflexivity|]. cbn [label_count lw].
    repeat split; reflexivity.
Qed.

(** C6, witness: the panel with counts 7, 3 and 9. *)
Lemma junction_stroke_width_witness :
  let depth :=
    {| rd_start := 10; wiggle := replicate 11 5%Q;
       junctions_dict :=
         [({| jxn_chromosome := "chr1"; jxn_start := 12; jxn_end := 15 |},
           7%Q);
          ({| jxn_chromosome := "chr1"; jxn_start := 11; jxn_end := 19 |},
           3%Q);
          ({| jxn_chromosome := "chr1"; jxn_start := 13; jxn_end := 30 |},
           9%Q)];
       rd_max := 5 |} in
  let graph_coords := example_graph_coords in
  (exists p,
      Utils.plot_density_single depth graph_coords example_graph_to_gene
        (Some 6%Q) true true 4 false
      = Ok p
      /\ length (arcs p) = length (junctions_dict depth))
  /\ (exists p,
         NewSrc.plot_density_single (fun a b => span a <? span b) depth
           graph_coords example_graph_to_gene None true (1 # 2) true 4 = Ok p
         /\ Forall (fun a => lw a = 5 # 10) (arcs p)).
Proof.
  cbv zeta.
  destruct (junction_stroke_width
              (fun a b => span a <? span b)
              {| rd_start := 10; wiggle := replicate 11 5%Q;
                 junctions_dict :=
                   [({| jxn_chromosome := "chr1"; jxn_start := 12;
                        jxn_end := 15 |}, 7%Q);
                    ({| jxn_chromosome := "chr1"; jxn_start := 11;
                        jxn_end := 19 |}, 3%Q);
                    ({| jxn_chromosome := "chr1"; jxn_start := 13;
                        jxn_end := 30 |}, 9%Q)];
                 rd_max := 5 |}
              example_graph_coords example_graph_to_gene
              (Some 6%Q) None true true false 4 (1 # 2))
    as [(p & Hp & Hlen & _) [(p' & Hp' & _ & Hlw) _]].
  - cbn. lia.
  - cbn. lia.
  - intros _. eexists. vm_compute. reflexivity.
  - split; [exists p | exists p']; split; assumption.
Defined.

(** ** C10 *)

Lemma getitem_head {A} (l : list A) (a : A) :
  head l = Some a -> getitem l 0 = Ok a.
Proof.
  intros H. rewrite head_lookup in H.
  exact (getitem_lookup l 0%nat a H).
Qed.

(** One round of the compression loop: the sample joins [tmpval]; the
    bucket is closed, at [prevx], exactly when the sample's coordinate is
    more than [resolution] away from [prevx]. *)
Lemma compress_body_step (wiggle graphcoords : list Q) (resolution : Q)
    (i : Z) (cx cw : list Q) (prevx : Q) (tmpval : list Q) (w g : Q) :
  getitem wiggle i = Ok w -> getitem graphcoords i = Ok g ->
  NewSrc.compress_body wiggle graphcoords resolution i
    (cx, cw, prevx, tmpval)
  = if Qltb resolution (Qabs (g - prevx))
    then Ok (cx ++ [prevx],
             cw ++ [(py_sum (tmpval ++ [w])
                     / inject_Z (Z.of_nat (length (tmpval ++ [w]))))%Q],
             g, [])
    else Ok (cx, cw, prevx, tmpval ++ [w]).
Proof.
  intros Hw Hg. unfold NewSrc.compress_body.
  rewrite Hw, bind_Ok, Hg, bind_Ok.
  destruct (Qltb resolution (Qabs (g - prevx))); [|reflexivity].
  rewrite pydiv_ok by apply inject_Z_length_snoc_nonzero.
  reflexivity.
Qed.

(** C10.  In [new_src] a bucket is closed only by a sample whose
    coordinate is more than [resolution] away from the bucket's start,
    and what [tmpval] holds when the loop ends is dropped.  So when all
    plot coordinates are within [resolution] of the first one, the loop
    ends with every depth still in [tmpval] and hands two empty
    sequences to [fill_between], although the depth array is not
    empty. *)
Theorem new_src_compress_within_resolution_is_empty
    (wiggle graphcoords : list Q) (resolution g0 : Q) :
  head graphcoords = Some g0 ->
  (length graphcoords <= length wiggle)%nat ->
  (forall g, In g graphcoords -> Qabs (g - g0) <= resolution)%Q ->
  NewSrc.compress_loop wiggle graphcoords resolution
  = Ok ([], [], g0, take (length graphcoords) wiggle)
  /\ NewSrc.compress wiggle graphcoords resolution = Ok ([], [])
  /\ take (length graphcoords) wiggle <> []
  /\ (forall i cx cw prevx tmpval w g,
        getitem wiggle i = Ok w -> getitem graphcoords i = Ok g ->
        (Qabs (g - prevx) <= resolution)%Q ->
        NewSrc.compress_body wiggle graphcoords resolution i
          (cx, cw, prevx, tmpval)
        = Ok (cx, cw, prevx, tmpval ++ [w])).
Proof.
  intros Hhead Hcover Hwithin.
  assert (Hloop :
    NewSrc.compress_loop wiggle graphcoords resolution
    = Ok ([], [], g0, take (length graphcoords) wiggle)).
  { unfold NewSrc.compress_loop.
    rewrite (getitem_head _ _ Hhead), bind_Ok.
    rewrite range_of_nat.
    rewrite (compress_loop_within wiggle graphcoords resolution Hcover
               (length graphcoords) 0 g0 [] Hwithin) by lia.
    rewrite drop_0. reflexivity. }
  split; [exact Hloop|]. split.
  { unfold NewSrc.compress. rewrite Hloop. reflexivity. }
  split.
  { intros E. apply (f_equal length) in E.
    rewrite length_take_le in E by exact Hcover.
    destruct graphcoords; [discriminate Hhead | discriminate E]. }
  intros i cx cw prevx tmpval w g Hw Hg Hclose.
  rewrite (compress_body_step _ _ _ _ _ _ _ _ _ _ Hw Hg).
  apply Qltb_false in Hclose. rewrite Hclose. reflexivity.
Qed.

(** C10, witness: three samples one plot unit apart, resolution 5. *)
Lemma new_src_compress_within_resolution_is_empty_witness :
  NewSrc.compress_loop [5; 6; 7]%Q [0; 1; 2]%Q 5
  = Ok ([], [], 0%Q, take 3 [5; 6; 7]%Q)
  /\ NewSrc.compress [5; 6; 7]%Q [0; 1; 2]%Q 5 = Ok ([], []).
Proof.
  destruct (new_src_compress_within_resolution_is_empty
              [5; 6; 7]%Q [0; 1; 2]%Q 5 0) as (H1 & H2 & _).
  - reflexivity.
  - cbn. lia.
  - intros g [<- | [<- | [<- | []]]]; unfold Qle; cbn; lia.
  - split; [exact H1 | exact H2].
Defined.

(** ** C8 *)

Lemma single_sample_mean (w : Q) :
  (py_sum [w] / inject_Z (Z.of_nat 1) == w)%Q.
Proof.
  unfold py_sum. cbn [fold_left].
  change (inject_Z (Z.of_nat 1)) with 1%Q. field.
Qed.

(** C8, counterexample.  With resolution -1 the [new_src] loop emits one
    point per sample, but the second point, of depth 6, is placed at
    coordinate 0 where the second sample is at coordinate 1; with
    resolution 0 it emits two points for three samples. *)
Lemma new_src_compress_nonpositive_resolution_is_not_identity :
  NewSrc.compress [5; 6; 7]%Q [0; 1; 2]%Q (- 1)
  = Ok ([0; 0; 1]%Q, [5; 6; 7]%Q)
  /\ ~ (0 == 1)%Q
  /\ NewSrc.compress [5; 6; 7]%Q [0; 1; 2]%Q 0
     = Ok ([0; 1]%Q, [11 # 2; 7]%Q).
Proof.
  split; [reflexivity|]. split; [|reflexivity].
  intros H. discriminate H.
Qed.

(** C8, as amended.  The [new_src] compressor never divides by zero,
    whatever the resolution.  With a negative resolution it emits exactly
    one point per sample, with the depth of the sample and the
    coordinate of the sample before it (the first point has the first
    sample's own).  The [utils] version has no resolution: what it hands
    to [fill_between] is every coordinate and depth, unchanged. *)
Theorem depth_compressor_nonpositive_resolution
    (read_depth_object : ReadDepth) (graph_coords : list Q)
    (graph_to_gene : list (Z * Z)) (resolution_arg g0 : Q)
    (y_max_arg : option Q) (number_junctions_arg show_x_axis no_bam : bool)
    (nx_ticks : Z) :
  head graph_coords = Some g0 ->
  (length graph_coords <= length (wiggle read_depth_object))%nat ->
  x_axis_readable graph_to_gene graph_coords show_x_axis nx_ticks ->
  NewSrc.compress (wiggle read_depth_object) graph_coords resolution_arg
  <> Raise ZeroDivisionError
  /\ ((resolution_arg < 0)%Q ->
      exists cx cw,
        NewSrc.compress (wiggle read_depth_object) graph_coords
          resolution_arg = Ok (cx, cw)
        /\ cx = take (length graph_coords) (g0 :: graph_coords)
        /\ length cw = length graph_coords
        /\ Forall2 Qeq cw
             (take (length graph_coords) (wiggle read_depth_object)))
  /\ (exists p,
         Utils.plot_density_single read_depth_object graph_coords graph_to_gene
        y_max_arg number_junctions_arg show_x_axis nx_ticks no_bam = Ok p
         /\ compressed_x p = graph_coords
         /\ compressed_wiggle p
            = take (length graph_coords) (wiggle read_depth_object)).
Proof.
  intros Hhead Hcover Hticks.
  assert (Hne : (0 < length graph_coords)%nat).
  { destruct graph_coords; [discriminate Hhead | cbn; lia]. }
  split; [apply compress_never_divides_by_zero|]. split.
  - intros Hres. unfold NewSrc.compress, NewSrc.compress_loop.
    rewrite (getitem_head _ _ Hhead), bind_Ok.
    rewrite range_of_nat.
    destruct (compress_loop_negative (wiggle read_depth_object)
                graph_coords resolution_arg Hcover
                (length graph_coords) 0 [] [] g0 Hres)
      as (prevx' & Hrun); [lia|].
    rewrite Hrun, bind_Ok. rewrite !drop_0. cbn [app].
    eexists. eexists. split; [reflexivity|]. split; [reflexivity|].
    split.
    { rewrite length_map. apply length_take_le. exact Hcover. }
    induction (take (length graph_coords) (wiggle read_depth_object))
      as [|w l IH]; constructor; [apply single_sample_mean | exact IH].
  - destruct (utils_plot_density_single_ok read_depth_object graph_coords
                graph_to_gene y_max_arg number_junctions_arg show_x_axis
                nx_ticks no_bam Hne Hcover Hticks)
      as (p & _ & _ & Hrun & _ & Hx & Hw & _).
    exists p. auto.
Qed.

(** C8, witness: three samples, resolution -1. *)
Lemma depth_compressor_nonpositive_resolution_witness :
  NewSrc.compress [5; 6; 7]%Q [0; 1; 2]%Q (- 1) <> Raise ZeroDivisionError
  /\ exists p,
       Utils.plot_density_single
         {| rd_start := 10; wiggle := [5; 6; 7]%Q; junctions_dict := [];
            rd_max := 7 |}
         [0; 1; 2]%Q [(0, 10); (1, 11); (2, 12)] (Some 8%Q) true true 4 false
       = Ok p
       /\ compressed_x p = [0; 1; 2]%Q
       /\ compressed_wiggle p = take 3 [5; 6; 7]%Q.
Proof.
  destruct (depth_compressor_nonpositive_resolution
              {| rd_start := 10; wiggle := [5; 6; 7]%Q;
                 junctions_dict := []; rd_max := 7 |}
              [0; 1; 2]%Q [(0, 10); (1, 11); (2, 12)] (- 1) 0 (Some 8%Q)
              true true false 4)
    as (H1 & _ & H3).
  - reflexivity.
  - cbn. lia.
  - intros _. eexists. vm_compute. reflexivity.
  - split; [exact H1 | exact H3].
Defined.

(** ** The renders return *)

Lemma for_samples_Forall2 {A B} (f : A -> result B) (R : A -> B -> Prop)
    (l : list A) :
  (forall a, In a l -> exists b, f a = Ok b /\ R a b) ->
  exists bs, for_samples f l = Ok bs /\ Forall2 R l bs.
Proof.
  induction l as [|a l IH]; intros Hf.
  - exists []. split; [reflexivity | constructor].
  - destruct (Hf a) as (b & Hb & HR); [left; reflexivity|].
    destruct IH as (bs & Hbs & Hall).
    { intros a' Ha'. apply Hf. right. exact Ha'. }
    exists (b :: bs). cbn [for_samples].
    rewrite Hb, bind_Ok, Hbs, bind_Ok.
    split; [reflexivity | constructor; assumption].
Qed.

Lemma get_scaling_ok (tx_start tx_end : Z) (strand : pyval)
    (exon_starts exon_ends : list Z) (intron_scale exon_scale : Q)
    (reverse_minus : bool) :
  tx_start <= tx_end + 1 ->
  (length exon_starts <= length exon_ends)%nat ->
  ~ (exon_scale == 0)%Q -> ~ (intron_scale == 0)%Q ->
  exists gc g2g,
    get_scaling tx_start tx_end strand exon_starts exon_ends
      intron_scale exon_scale reverse_minus = Ok (gc, g2g)
    /\ length gc = Z.to_nat (tx_end - tx_start + 1).
Proof.
  intros Hn Hle Hes His.
  destruct (get_scaling_walk tx_start tx_end exon_starts exon_ends
              intron_scale exon_scale Hes His strand reverse_minus Hn Hle)
    as (ec & gc & g2g & _ & Hlenec & Hrun & Hwalk).
  exists gc, g2g. split; [exact Hrun|].
  rewrite <- (length_walk_order (fills_forward strand reverse_minus) gc).
  rewrite Hwalk, length_walk, length_map, length_walk_order.
  exact Hlenec.
Qed.

Lemma get_scaling_zero_scales (tx_start tx_end : Z) (strand : pyval)
    (exon_starts exon_ends : list Z) (intron_scale exon_scale : Q)
    (reverse_minus : bool) :
  tx_start <= tx_end ->
  (length exon_starts <= length exon_ends)%nat ->
  (exon_scale == 0)%Q -> (intron_scale == 0)%Q ->
  get_scaling tx_start tx_end strand exon_starts exon_ends
    intron_scale exon_scale reverse_minus = Raise ZeroDivisionError.
Proof.
  intros Hn Hle Hes His.
  destruct (exon_coords_of_ok tx_start tx_end exon_starts exon_ends)
    as (ec & Hec & Hlen); [lia | exact Hle |].
  unfold get_scaling. rewrite Hec, bind_Ok.
  rewrite zeros_ok by lia. rewrite bind_Ok.
  assert (Hadv : forall c,
            advance intron_scale exon_scale c = Raise ZeroDivisionError).
  { intros c. unfold advance.
    destruct (Qeq_bool c 1); apply pydiv_zero; assumption. }
  unfold range.
  destruct (Z.to_nat (tx_end - tx_start + 1)) as [|m] eqn:En; [lia|].
  cbn [seq map].
  destruct (lookup_lt_is_Some_2 ec 0) as [c0 Hc0]; [lia|].
  destruct (lookup_lt_is_Some_2 ec (length ec - 1)) as [c1 Hc1]; [lia|].
  destruct (fills_forward strand reverse_minus).
  - rewrite (for_each_cons_raise _ _ _ _ ZeroDivisionError);
      [reflexivity|].
    unfold forward_body.
    rewrite (setitem_insert _ 0%nat)
      by (rewrite length_replicate; lia).
    rewrite bind_Ok, (getitem_lookup ec 0%nat c0 Hc0), bind_Ok.
    rewrite Hadv. reflexivity.
  - rewrite (for_each_cons_raise _ _ _ _ ZeroDivisionError);
      [reflexivity|].
    unfold backward_body.
    rewrite (setitem_from_end _ 0%nat)
      by (rewrite length_replicate; lia).
    rewrite bind_Ok, (getitem_from_end ec 0%nat c1), bind_Ok;
      [| exact Hc1 | lia].
    rewrite Hadv. reflexivity.
Qed.

Lemma linspace_ok (start stop : Q) (num : Z) :
  0 <= num -> exists l, linspace start stop num = Ok l.
Proof.
  intros Hnum. unfold linspace.
  destruct (Z.ltb_spec num 0); [lia|].
  destruct (num =? 1); eauto.
Qed.

Section Renders.

Variable junction_lt : Junction -> Junction -> bool.
Variable get_ylim_upper : panel -> Q.
Variables (exon_eqb exon_ltb : Exon -> Exon -> bool).
Variables (settings : Settings) (read_depths_dict : list ReadDepth).
Variables (splice_region : SpliceRegion) (show_gene no_bam : bool).

Local Abbreviation region_length :=
  (Z.to_nat (sr_end splice_region - sr_start splice_region + 1)).

Hypothesis region_ordered : sr_start splice_region <= sr_end splice_region.
Hypothesis exons_paired :
  length (sr_exon_starts splice_region)
  = length (sr_exon_ends splice_region).
Hypothesis exon_scale_nonzero : ~ (exon_scale settings == 0)%Q.
Hypothesis intron_scale_nonzero : ~ (intron_scale settings == 0)%Q.
Hypothesis some_sample : read_depths_dict <> [].
Hypothesis depths_cover :
  Forall (fun d => (region_length <= length (wiggle d))%nat)
    read_depths_dict.
Hypothesis yticks_counted : 0 <= nyticks settings + 1.
Hypothesis x_ticks_ok : x_ticks_readable settings splice_region.
Hypothesis no_transcripts : sr_transcripts splice_region = [].
Hypothesis no_sites : sr_sites splice_region = [].
Hypothesis no_colors : colors settings = None.

Lemma utils_plot_density_ok :
  exists graph_coords graph_to_gene samples,
    Utils.plot_density settings read_depths_dict splice_region show_gene
      no_bam
    = UtilsTranscripts.Returns
        (Ok (graph_coords, graph_to_gene, samples, None))
    /\ length graph_coords = region_length
    /\ length samples = length read_depths_dict.
Proof.
  unfold Utils.plot_density. cbv zeta.
  destruct (get_scaling_ok (sr_start splice_region) (sr_end splice_region)
              (PyStr (sr_strand splice_region))
              (sr_exon_starts splice_region) (sr_exon_ends splice_region)
              (intron_scale settings) (exon_scale settings)
              (reverse_minus settings))
    as (gc & g2g & Hrun & Hlen); [lia | lia | assumption | assumption |].
  rewrite Hrun, outcome_bind_Ok.
  destruct read_depths_dict as [|d0 rest] eqn:Erds; [contradiction|].
  rewrite outcome_bind_Ok. rewrite <- Erds in *.
  destruct (for_samples_Forall2
              (Utils.plot_sample settings splice_region gc g2g no_bam
                 (Z.of_nat (length read_depths_dict)))
              (fun _ _ => True)
              (enumerate read_depths_dict)) as (samples & Hsamples & Hall).
  { intros [i d] Hd. apply enumerate_In in Hd. cbn [snd] in Hd.
    rewrite List.Forall_forall in depths_cover.
    specialize (depths_cover d Hd). unfold Utils.plot_sample.
    destruct (linspace_ok 0
                (if Utils.is_odd (rd_max d) then (rd_max d + 1)%Q
                 else rd_max d) (nyticks settings + 1) yticks_counted)
      as (ticks & Hy).
    rewrite Hy, bind_Ok.
    destruct (utils_plot_density_single_ok d gc g2g
                (Some (if Utils.is_odd (rd_max d) then (rd_max d + 1)%Q
                       else rd_max d))
                (number_junctions settings)
                (i =? Z.of_nat (length read_depths_dict) - 1)
                (nxticks settings) no_bam)
      as (p & _ & _ & Hp & _); [lia | lia | |].
    { intros _. eapply x_ticks_ok; [left; reflexivity | exact Hrun]. }
    rewrite Hp, bind_Ok, no_sites. cbn [for_samples]. rewrite bind_Ok.
    eexists. split; [reflexivity | exact I]. }
  rewrite Hsamples, outcome_bind_Ok, no_transcripts.
  cbn [length]. change (0 <? Z.of_nat 0) with false. cbv iota.
  rewrite outcome_bind_Ok.
  exists gc, g2g, samples. split; [reflexivity|]. split; [exact Hlen|].
  rewrite <- (Forall2_length _ _ _ Hall). apply length_enumerate.
Qed.

Lemma new_src_plot_density_ok :
  exists graphcoords graphToGene samples gene_structure,
    NewSrc.plot_density junction_lt get_ylim_upper exon_eqb exon_ltb
      settings read_depths_dict splice_region show_gene
    = Ok (graphcoords, graphToGene, samples, gene_structure)
    /\ length graphcoords = region_length
    /\ length samples = length read_depths_dict.
Proof.
  unfold NewSrc.plot_density. cbv zeta.
  destruct (get_scaling_ok (sr_start splice_region) (sr_end splice_region)
              (PyInt (sr_start splice_region))
              (sr_exon_starts splice_region) (sr_exon_ends splice_region)
              (intron_scale settings) (exon_scale settings)
              (reverse_minus settings))
    as (gc & g2g & Hrun & Hlen); [lia | lia | assumption | assumption |].
  rewrite Hrun, bind_Ok.
  destruct (for_samples_Forall2
              (fun '(i, d) =>
                 _ ← NewSrc.color_of settings i;
                 NewSrc.plot_density_single junction_lt d gc g2g None
                   (number_junctions settings) (resolution settings)
                   (negb (i <? Z.of_nat (length read_depths_dict) - 1))
                   (nxticks settings))
              (fun _ _ => True) (enumerate read_depths_dict))
    as (axes & Haxes & Hall).
  { intros [i d] Hd. apply enumerate_In in Hd. cbn [snd] in Hd.
    rewrite List.Forall_forall in depths_cover.
    specialize (depths_cover d Hd).
    destruct (new_src_plot_density_single_ok junction_lt d gc g2g None
                (number_junctions settings) (resolution settings)
                (negb (i <? Z.of_nat (length read_depths_dict) - 1))
                (nxticks settings))
      as (p & _ & Hp & _); [lia | lia | |].
    { intros _. eapply x_ticks_ok; [right; reflexivity | exact Hrun]. }
    exists p. split; [|exact I].
    unfold NewSrc.color_of. rewrite no_colors, bind_Ok. exact Hp. }
  rewrite Haxes, bind_Ok.
  pose proof (Forall2_length _ _ _ Hall) as Hlenaxes.
  rewrite length_enumerate in Hlenaxes.
  destruct (py_max_spec (map get_ylim_upper axes)) as (m & Hm & _).
  { intros E. apply (f_equal length) in E. rewrite length_map in E.
    cbn in E. apply some_sample. apply length_zero_iff_nil. lia. }
  unfold NewSrc.max_used_yval_of. rewrite Hm, !bind_Ok.
  destruct (linspace_ok 0
              (inject_Z (if Qceiling m mod 2 =? 1 then Qceiling m + 1
                         else Qceiling m))
              (nyticks settings + 1) yticks_counted) as (ticks & Hy).
  rewrite Hy, bind_Ok, no_transcripts.
  destruct (py_max_spec gc) as (hi & Hhi & _).
  { intros E. rewrite E in Hlen. cbn in Hlen. lia. }
  unfold NewSrcTranscripts.plot_transcripts,
    NewSrcTranscripts.sorted_transcripts.
  cbn [for_samples]. rewrite bind_Ok. cbn [stable_sort fold_right map].
  rewrite bind_Ok. cbn [for_each]. rewrite bind_Ok, Hhi, bind_Ok.
  eexists gc, g2g, _, _. split; [reflexivity|]. split; [exact Hlen|].
  rewrite length_map. symmetry. exact Hlenaxes.
Qed.

End Renders.

(** ** What a render that returned went through *)

Lemma for_samples_inv {A B} (f : A -> result B) (l : list A) :
  forall bs, for_samples f l = Ok bs -> Forall2 (fun a b => f a = Ok b) l bs.
Proof.
  induction l as [|a l IH]; intros bs H; cbn [for_samples] in H.
  - injection H as <-. constructor.
  - destruct (f a) as [b|e] eqn:Hb;
      [|rewrite bind_Raise in H; discriminate H].
    rewrite bind_Ok in H.
    destruct (for_samples f l) as [bs'|e];
      [|rewrite bind_Raise in H; discriminate H].
    rewrite bind_Ok in H. injection H as <-.
    constructor; [exact Hb | apply IH; reflexivity].
Qed.

Lemma Forall2_enumerate {A B} (R : A -> B -> Prop) (l : list A)
    (k : list B) :
  Forall2 (fun item b => R (snd item) b) (enumerate l) k -> Forall2 R l k.
Proof.
  intros H. apply Forall2_same_length_lookup.
  pose proof (Forall2_length _ _ _ H) as Hlen.
  rewrite length_enumerate in Hlen. split; [exact Hlen|].
  intros i a b Ha Hb.
  assert (Hitem : enumerate l !! i = Some (Z.of_nat i, a)).
  { rewrite enumerate_lookup, Ha. reflexivity. }
  exact (Forall2_lookup_lr _ _ _ _ _ _ H Hitem Hb).
Qed.

Lemma Forall2_enumerate_lookup {A B} (R : Z * A -> B -> Prop)
    (l : list A) (bs : list B) (i : nat) (b : B) :
  Forall2 R (enumerate l) bs -> bs !! i = Some b ->
  exists a, l !! i = Some a /\ R (Z.of_nat i, a) b.
Proof.
  intros H Hb.
  destruct (Forall2_lookup_r _ _ _ _ _ H Hb) as ([j a] & Hja & HR).
  rewrite enumerate_lookup in Hja.
  destruct (l !! i) as [a'|] eqn:Ha; [|discriminate Hja].
  injection Hja as <- <-. exists a'. split; [reflexivity | exact HR].
Qed.

Lemma max_used_yval_of_even_ceiling (used_yvals : list Q) (bound : Z) :
  NewSrc.max_used_yval_of used_yvals = Ok bound ->
  exists used_max,
    py_max used_yvals = Ok used_max /\ bound = even_ceiling used_max.
Proof.
  unfold NewSrc.max_used_yval_of, even_ceiling.
  destruct (py_max used_yvals) as [m|e]; [|rewrite bind_Raise; discriminate].
  rewrite bind_Ok. intros H. injection H as <-.
  exists m. split; [reflexivity|].
  rewrite Zmod_odd. destruct (Z.odd (Qceiling m)); reflexivity.
Qed.

Lemma utils_plot_sample_inv (settings : Settings)
    (splice_region : SpliceRegion) (graph_coords : list Q)
    (graph_to_gene : list (Z * Z)) (no_bam : bool) (n_samples i : Z)
    (d : ReadDepth) (p : panel) (y : yaxis) :
  Utils.plot_sample settings splice_region graph_coords graph_to_gene no_bam
    n_samples (i, d) = Ok (p, y) ->
  let bound :=
    if Utils.is_odd (rd_max d) then (rd_max d + 1)%Q else rd_max d in
  spine_upper y = bound
  /\ (exists ticks,
        linspace 0 bound (nyticks settings + 1) = Ok ticks
        /\ yticks y = if no_bam then [] else ticks)
  /\ Utils.plot_density_single d graph_coords graph_to_gene (Some bound)
       (number_junctions settings) (i =? n_samples - 1)
       (nxticks settings) no_bam = Ok p
  /\ ybound_upper y = ((12 # 10) * bound)%Q
  /\ ybound_lower y = (- (1 # 2) * rd_max d)%Q
  /\ for_samples
       (fun site => getitem graph_coords (site - sr_start splice_region))
       (sr_sites splice_region) = Ok (indicator_lines y).
Proof.
  unfold Utils.plot_sample. cbv zeta. intros H.
  destruct (linspace 0 _ (nyticks settings + 1)) as [ticks|e];
    [|rewrite bind_Raise in H; discriminate H].
  rewrite bind_Ok in H.
  destruct (Utils.plot_density_single _ _ _ _ _ _ _ _) as [p'|e];
    [|rewrite bind_Raise in H; discriminate H].
  rewrite bind_Ok in H.
  destruct (for_samples _ (sr_sites splice_region)) as [vlines|e];
    [|rewrite bind_Raise in H; discriminate H].
  rewrite bind_Ok in H. injection H as <- <-. cbn.
  split; [reflexivity|]. split; [|repeat split; reflexivity].
  exists ticks. split; reflexivity.
Qed.

Lemma utils_plot_density_inv (settings : Settings)
    (read_depths_dict : list ReadDepth) (splice_region : SpliceRegion)
    (show_gene no_bam : bool) (graph_coords : list Q)
    (graph_to_gene : list (Z * Z)) (samples : list (panel * yaxis))
    (gene_structure : option (list transcript_row * Q * (Q * Q))) :
  Utils.plot_density settings read_depths_dict splice_region show_gene
    no_bam
  = UtilsTranscripts.Returns
      (Ok (graph_coords, graph_to_gene, samples, gene_structure)) ->
  get_scaling (sr_start splice_region) (sr_end splice_region)
    (PyStr (sr_strand splice_region))
    (sr_exon_starts splice_region) (sr_exon_ends splice_region)
    (intron_scale settings) (exon_scale settings) (reverse_minus settings)
  = Ok (graph_coords, graph_to_gene)
  /\ read_depths_dict <> []
  /\ Forall2
       (fun item s =>
          Utils.plot_sample settings splice_region graph_coords
            graph_to_gene no_bam (Z.of_nat (length read_depths_dict)) item
          = Ok s)
       (enumerate read_depths_dict) samples
  /\ match sr_transcripts splice_region with
     | [] => gene_structure = None
     | _ :: _ =>
         exists drawn,
           UtilsTranscripts.plot_transcripts (sr_start splice_region)
             graph_coords (reverse_minus settings) show_gene
             (sr_transcripts splice_region)
           = UtilsTranscripts.Returns (Ok drawn)
           /\ gene_structure = Some drawn
     end.
Proof.
  unfold Utils.plot_density. cbv zeta. intros H.
  apply outcome_bind_inv in H as ([gc g2g] & Hrun & H).
  apply outcome_bind_inv in H as (q & Hsome & H).
  apply outcome_bind_inv in H as (samples' & Hloop & H).
  apply outcome_bind_inv in H as (gs & Hgs & H).
  injection Hrun as Hrun. injection Hloop as Hloop.
  injection H as -> -> -> ->.
  split; [exact Hrun|]. split.
  { intros E. rewrite E in Hsome. discriminate Hsome. }
  split; [apply for_samples_inv; exact Hloop|].
  destruct (sr_transcripts splice_region) as [|t ts].
  - cbn in Hgs. injection Hgs as <-. reflexivity.
  - change (0 <? Z.of_nat (length (t :: ts))) with true in Hgs.
    cbv iota in Hgs.
    apply outcome_bind_inv in Hgs as (drawn & Hdrawn & Hgs).
    injection Hgs as <-. exists drawn. split; [exact Hdrawn | reflexivity].
Qed.

Lemma new_src_plot_density_inv (junction_lt : Junction -> Junction -> bool)
    (get_ylim_upper : panel -> Q) (exon_eqb exon_ltb : Exon -> Exon -> bool)
    (settings : Settings) (read_depths_dict : list ReadDepth)
    (splice_region : SpliceRegion) (show_gene : bool)
    (graphcoords : list Q) (graphToGene : list (Z * Z))
    (samples : list (panel * yaxis))
    (gene_structure : list transcript_row * Q * (Q * Q)) :
  NewSrc.plot_density junction_lt get_ylim_upper exon_eqb exon_ltb settings
    read_depths_dict splice_region show_gene
  = Ok (graphcoords, graphToGene, samples, gene_structure) ->
  exists max_used_yval ticks,
    get_scaling (sr_start splice_region) (sr_end splice_region)
      (PyInt (sr_start splice_region))
      (sr_exon_starts splice_region) (sr_exon_ends splice_region)
      (intron_scale settings) (exon_scale settings)
      (reverse_minus settings)
    = Ok (graphcoords, graphToGene)
    /\ Forall2
         (fun item p =>
            exists color,
              NewSrc.color_of settings (fst item) = Ok color
              /\ NewSrc.plot_density_single junction_lt (snd item)
                   graphcoords graphToGene None (number_junctions settings)
                   (resolution settings)
                   (negb (fst item
                          <? Z.of_nat (length read_depths_dict) - 1))
                   (nxticks settings) = Ok p)
         (enumerate read_depths_dict) (map fst samples)
    /\ NewSrc.max_used_yval_of (map get_ylim_upper (map fst samples))
       = Ok max_used_yval
    /\ linspace 0 (inject_Z max_used_yval) (nyticks settings + 1) = Ok ticks
    /\ Forall (fun s =>
                 indicator_lines (snd s) = []
                 /\ ybound_lower (snd s)
                    = (- (1 # 2) * inject_Z max_used_yval)%Q
                 /\ ybound_upper (snd s)
                    = ((12 # 10) * inject_Z max_used_yval)%Q
                 /\ spine_upper (snd s) = inject_Z max_used_yval
                 /\ yticks (snd s) = ticks) samples
    /\ NewSrcTranscripts.plot_transcripts exon_eqb exon_ltb
         (sr_start splice_region) graphcoords (reverse_minus settings)
         show_gene (- inject_Z 1800) (sr_transcripts splice_region)
       = Ok gene_structure.
Proof.
  unfold NewSrc.plot_density. cbv zeta. intros H.
  destruct (get_scaling _ _ _ _ _ _ _ _) as [[gc' g2g']|e];
    [|rewrite bind_Raise in H; discriminate H].
  rewrite bind_Ok in H.
  destruct (for_samples _ _) as [axes|e] eqn:Hloop;
    [|rewrite bind_Raise in H; discriminate H].
  rewrite bind_Ok in H.
  destruct (NewSrc.max_used_yval_of _) as [m|e] eqn:Hm;
    [|rewrite !bind_Raise in H; discriminate H].
  rewrite !bind_Ok in H.
  destruct (linspace _ _ _) as [ticks|e] eqn:Hticks;
    [|rewrite bind_Raise in H; discriminate H].
  rewrite bind_Ok in H.
  destruct (NewSrcTranscripts.plot_transcripts _ _ _ _ _ _ _ _)
    as [gs|e] eqn:Hgs; [|rewrite bind_Raise in H; discriminate H].
  rewrite bind_Ok in H. injection H as -> -> <- ->.
  exists m, ticks. rewrite !map_map. cbn [fst]. rewrite map_id.
  split; [reflexivity|]. split.
  { apply for_samples_inv in Hloop.
    eapply Forall2_impl; [exact Hloop|].
    intros [i d] p Hp. cbn [fst snd]. cbn beta iota in Hp.
    destruct (NewSrc.color_of settings i) as [color|e];
      [|rewrite bind_Raise in Hp; discriminate Hp].
    rewrite bind_Ok in Hp. exists color. split; [reflexivity | exact Hp]. }
  split; [exact Hm|]. split; [exact Hticks|]. split; [|exact Hgs].
  apply List.Forall_forall. intros s Hs.
  apply in_map_iff in Hs as (ax & <- & _). repeat split; reflexivity.
Qed.

(** ** C7 *)

(** C7, counterexample.  In [utils] three panels with maxima 3, 7 and 10
    get the bounds 4, 8 and 10: each its own, not one shared bound 10.
    In [new_src] the three panels do share one bound, but it is taken
    from the y limits of the drawn axes: with the limits matplotlib's
    autoscale gives, 3.15, 7.35 and 10.5, it is 12 and not 10. *)
Lemma panel_bounds_are_not_the_ceiling_of_the_maxima :
  let splice_region :=
    {| sr_chromosome := "chr1"; sr_start := 10; sr_end := 12;
       sr_strand := "+"; sr_exon_starts := []; sr_exon_ends := [];
       sr_transcripts := []; sr_sites := [] |} in
  let settings :=
    {| intron_scale := 1; exon_scale := 1; reverse_minus := false;
       number_junctions := true; resolution := 1 # 2;
       nxticks := 4; nyticks := 3; colors := None |} in
  let depth := fun m : Q =>
    {| rd_start := 10; wiggle := [m; m; m]; junctions_dict := [];
       rd_max := m |} in
  (exists graph_coords graph_to_gene samples gene_structure,
      Utils.plot_density settings [depth 3; depth 7; depth 10]%Q
        splice_region false false
      = UtilsTranscripts.Returns
          (Ok (graph_coords, graph_to_gene, samples, gene_structure))
      /\ map (fun s => spine_upper (snd s)) samples = [4; 8; 10]%Q
      /\ ~ (4 == 10)%Q /\ ~ (8 == 10)%Q)
  /\ (exists graphcoords graphToGene samples gene_structure,
         NewSrc.plot_density (fun a b => span a <? span b) autoscale_upper
           example_exon_eqb example_exon_ltb settings
           [depth 3; depth 7; depth 10]%Q splice_region false
         = Ok (graphcoords, graphToGene, samples, gene_structure)
         /\ Forall2 (fun s m => (autoscale_upper (fst s) == m)%Q) samples
              [315 # 100; 735 # 100; 105 # 10]%Q
         /\ map (fun s => spine_upper (snd s)) samples = [12; 12; 12]%Q
         /\ ~ (12 == 10)%Q).
Proof.
  cbv zeta. split.
  - eexists. eexists. eexists. eexists.
    split; [vm_compute; reflexivity|]. split; [reflexivity|].
    split; intros H; discriminate H.
  - eexists. eexists. eexists. eexists.
    split; [vm_compute; reflexivity|].
    split; [repeat constructor|]. split; [reflexivity|].
    intros H; discriminate H.
Qed.

(** C7, as amended.  In a render of [new_src] one upper bound is shared
    by all panels: the ceiling of the greatest of the upper y limits the
    canvas reports for the drawn panels, plus one when that ceiling is
    odd; every panel's left spine ends at it, and every panel's y bounds
    and y ticks are set from it.  In a render of [utils] nothing is
    shared and no ceiling is taken: each panel's bound is its own
    maximum depth, plus one when that is an odd integer. *)
Theorem y_axis_upper_bound
    (junction_lt : Junction -> Junction -> bool)
    (get_ylim_upper : panel -> Q)
    (exon_eqb exon_ltb : Exon -> Exon -> bool)
    (settings : Settings) (read_depths_dict : list ReadDepth)
    (splice_region : SpliceRegion) (show_gene no_bam : bool) :
  (forall graphcoords graphToGene samples gene_structure,
      NewSrc.plot_density junction_lt get_ylim_upper exon_eqb exon_ltb
        settings read_depths_dict splice_region show_gene
      = Ok (graphcoords, graphToGene, samples, gene_structure) ->
      length samples = length read_depths_dict
      /\ exists used_max,
           py_max (map (fun s => get_ylim_upper (fst s)) samples)
           = Ok used_max
           /\ Forall
                (fun s =>
                   spine_upper (snd s) = inject_Z (even_ceiling used_max)
                   /\ ybound_upper (snd s)
                      = ((12 # 10) * inject_Z (even_ceiling used_max))%Q
                   /\ ybound_lower (snd s)
                      = (- (1 # 2) * inject_Z (even_ceiling used_max))%Q
                   /\ linspace 0 (inject_Z (even_ceiling used_max))
                        (nyticks settings + 1) = Ok (yticks (snd s)))
                samples)
  /\ (forall graph_coords graph_to_gene samples gene_structure,
         Utils.plot_density settings read_depths_dict splice_region
           show_gene no_bam
         = UtilsTranscripts.Returns
             (Ok (graph_coords, graph_to_gene, samples, gene_structure)) ->
         Forall2
           (fun d s =>
              spine_upper (snd s)
              = (if Utils.is_odd (rd_max d) then (rd_max d + 1)%Q
                 else rd_max d)
              /\ ybound_upper (snd s)
                 = ((12 # 10) * spine_upper (snd s))%Q
              /\ ybound_lower (snd s) = (- (1 # 2) * rd_max d)%Q)
           read_depths_dict samples).
Proof.
  split.
  - intros gc g2g samples gs Hrun.
    destruct (new_src_plot_density_inv _ _ _ _ _ _ _ _ _ _ _ _ Hrun)
      as (bound & ticks & _ & Hloop & Hbound & Hy & Hall & _).
    split.
    { apply Forall2_length in Hloop.
      rewrite length_enumerate, length_map in Hloop. symmetry. exact Hloop. }
    destruct (max_used_yval_of_even_ceiling _ _ Hbound)
      as (used_max & Hmax & ->).
    exists used_max. split.
    { rewrite map_map in Hmax. exact Hmax. }
    eapply Forall_impl; [exact Hall|].
    intros s (_ & Hlo & Hup & Hspine & Hticks).
    rewrite Hspine, Hup, Hlo, Hticks. repeat split; try reflexivity.
    exact Hy.
  - intros gc g2g samples gs Hrun.
    destruct (utils_plot_density_inv _ _ _ _ _ _ _ _ _ Hrun)
      as (_ & _ & Hall & _).
    apply Forall2_enumerate. eapply Forall2_impl; [exact Hall|].
    intros [i d] [p y] Hs.
    destruct (utils_plot_sample_inv _ _ _ _ _ _ _ _ _ _ Hs)
      as (Hspine & _ & _ & Hup & Hlo & _).
    cbn [snd]. rewrite Hspine, Hup, Hlo. repeat split; reflexivity.
Qed.

(** C7, witness: two panels with maxima 3 and 5 on the region 10..12,
    which has one transcript and one indicator site. *)
Lemma y_axis_upper_bound_witness :
  let splice_region :=
    {| sr_chromosome := "chr1"; sr_start := 10; sr_end := 12;
       sr_strand := "+"; sr_exon_starts := [10]; sr_exon_ends := [12];
       sr_transcripts :=
         [ {| tr_transcript := "T1"; tr_gene := "G";
              tr_exons := [ {| exon_start := 10; exon_end := 12;
                               exon_strand := "+" |} ];
              tr_start := 10; tr_end := 12 |} ];
       sr_sites := [11] |} in
  let settings :=
    {| intron_scale := 1; exon_scale := 1; reverse_minus := false;
       number_junctions := true; resolution := 1 # 2;
       nxticks := 4; nyticks := 3; colors := None |} in
  let depth := fun m : Q =>
    {| rd_start := 10; wiggle := [m; m; m]; junctions_dict := [];
       rd_max := m |} in
  (exists graphcoords graphToGene samples gene_structure used_max,
      NewSrc.plot_density (fun a b => span a <? span b) autoscale_upper
        example_exon_eqb example_exon_ltb settings [depth 3; depth 5]%Q
        splice_region true
      = Ok (graphcoords, graphToGene, samples, gene_structure)
      /\ py_max (map (fun s => autoscale_upper (fst s)) samples)
         = Ok used_max
      /\ Forall
           (fun s => spine_upper (snd s) = inject_Z (even_ceiling used_max))
           samples)
  /\ (exists graph_coords graph_to_gene samples gene_structure,
         Utils.plot_density settings [depth 3; depth 5]%Q splice_region
           true false
         = UtilsTranscripts.Returns
             (Ok (graph_coords, graph_to_gene, samples, gene_structure))
         /\ Forall2
              (fun d s =>
                 spine_upper (snd s)
                 = (if Utils.is_odd (rd_max d) then (rd_max d + 1)%Q
                    else rd_max d))
              [depth 3; depth 5]%Q samples).
Proof.
  cbv zeta.
  pose proof (y_axis_upper_bound
                (fun a b => span a <? span b) autoscale_upper
                example_exon_eqb example_exon_ltb
                {| intron_scale := 1; exon_scale := 1;
                   reverse_minus := false; number_junctions := true;
                   resolution := 1 # 2; nxticks := 4; nyticks := 3;
                   colors := None |}
                [ {| rd_start := 10; wiggle := [3; 3; 3]%Q;
                     junctions_dict := []; rd_max := 3 |};
                  {| rd_start := 10; wiggle := [5; 5; 5]%Q;
                     junctions_dict := []; rd_max := 5 |} ]
                {| sr_chromosome := "chr1"; sr_start := 10; sr_end := 12;
                   sr_strand := "+"; sr_exon_starts := [10];
                   sr_exon_ends := [12];
                   sr_transcripts :=
                     [ {| tr_transcript := "T1"; tr_gene := "G";
                          tr_exons := [ {| exon_start := 10; exon_end := 12;
                                           exon_strand := "+" |} ];
                          tr_start := 10; tr_end := 12 |} ];
                   sr_sites := [11] |}
                true false) as [Hn Hu].
  split.
  - destruct (Hn _ _ _ _ ltac:(vm_compute; reflexivity))
      as (_ & used_max & Hmax & Hall).
    eexists _, _, _, _, used_max.
    split; [vm_compute; reflexivity|]. split; [exact Hmax|].
    eapply Forall_impl; [exact Hall|]. intros s (H & _). exact H.
  - eexists _, _, _, _. split; [vm_compute; reflexivity|].
    eapply Forall2_impl; [apply (Hu _ _ _ _ ltac:(vm_compute; reflexivity))|].
    intros d s (H & _). exact H.
Defined.

(** ** C9 *)




(** ** Clamped lookups *)

(** X1.  A lookup at the index that [__get_limited_index__] returns reads
    the first element when the number is negative, the last when it is at
    or past the length, and the element at the number otherwise; both
    files compute the same index.  The lookup raises IndexError exactly on
    an empty array, where the index is [0] or [-1]. *)
Theorem clamped_lookup {A} (l : list A) (num : Z) :
  let n := Z.of_nat (length l) in
  let idx := fst (Utils.__get_limited_index__ num n) in
  NewSrc.__get_limited_index__ num n = idx
  /\ getitem l idx
     = match (if num <? 0 then head l
              else if num >=? n then last l
              else l !! Z.to_nat num) with
       | Some a => Ok a
       | None => Raise IndexError
       end
  /\ (getitem l idx = Raise IndexError <-> l = []).
Proof.
  cbv zeta.
  assert (Hidx : NewSrc.__get_limited_index__ num (Z.of_nat (length l))
                 = fst (Utils.__get_limited_index__ num (Z.of_nat (length l)))).
  { unfold NewSrc.__get_limited_index__, Utils.__get_limited_index__.
    destruct (num <? 0); [reflexivity|].
    destruct (num >=? Z.of_nat (length l)); reflexivity. }
  assert (Hget : getitem l (fst (Utils.__get_limited_index__ num
                                   (Z.of_nat (length l))))
     = match (if num <? 0 then head l
              else if num >=? Z.of_nat (length l) then last l
              else l !! Z.to_nat num) with
       | Some a => Ok a
       | None => Raise IndexError
       end).
  { unfold Utils.__get_limited_index__.
    destruct (Z.ltb_spec num 0) as [Hneg|Hnn]; cbn [fst].
    - destruct l as [|a l']; [reflexivity|].
      exact (getitem_lookup (a :: l') 0 a eq_refl).
    - destruct (Z.geb_spec num (Z.of_nat (length l))) as [Hge|Hlt]; cbn [fst].
      + destruct (decide (l = [])) as [->|Hne]; [reflexivity|].
        destruct (exists_last Hne) as (l' & a & ->).
        rewrite last_snoc, length_app. cbn [length].
        replace (Z.of_nat (length l' + 1) - 1) with (Z.of_nat (length l'))
          by lia.
        apply getitem_lookup. apply list_lookup_middle. reflexivity.
      + destruct (lookup_lt_is_Some_2 l (Z.to_nat num)) as [a Ha]; [lia|].
        rewrite Ha. rewrite <- (Z2Nat.id num) at 1 by lia.
        apply getitem_lookup. exact Ha. }
  split; [exact Hidx|]. split; [exact Hget|].
  rewrite Hget. split.
  - intros H. destruct l as [|a l']; [reflexivity|]. exfalso.
    destruct (Z.ltb_spec num 0) as [Hneg|Hnn]; [discriminate H|].
    destruct (Z.geb_spec num (Z.of_nat (length (a :: l')))) as [Hge|Hlt].
    + destruct (exists_last (l := a :: l')) as (l1 & b & Hl); [discriminate|].
      rewrite Hl, last_snoc in H. discriminate H.
    + destruct (lookup_lt_is_Some_2 (a :: l') (Z.to_nat num)) as [b Hb];
        [lia|].
      rewrite Hb in H. discriminate H.
  - intros ->. destruct (num <? 0); [reflexivity|].
    destruct (num >=? _); reflexivity.
Qed.

(** ** The outcomes of get_scaling *)

Lemma getitem_past_end {A} (l : list A) (k : nat) :
  (length l <= k)%nat -> getitem l (Z.of_nat k) = Raise IndexError.
Proof.
  intros Hk. unfold getitem, norm_index, in_range.
  destruct (Z.ltb_spec (Z.of_nat k) 0) as [?|_]; [lia|].
  destruct (Z.ltb_spec (Z.of_nat k) (Z.of_nat (length l))) as [?|_]; [lia|].
  rewrite andb_false_r. reflexivity.
Qed.

Lemma dict_getitem_set_eq {V} (d : list (Z * V)) key val :
  dict_getitem (dict_set d key val) key = Ok val.
Proof.
  induction d as [|[k' v'] d IH]; cbn.
  - rewrite Z.eqb_refl. reflexivity.
  - destruct (Z.eqb_spec k' key) as [->|Hne]; cbn.
    + rewrite Z.eqb_refl. reflexivity.
    + destruct (Z.eqb_spec k' key) as [?|_]; [contradiction|]. exact IH.
Qed.

Lemma dict_getitem_set_ne {V} (d : list (Z * V)) key key' val :
  key' <> key -> dict_getitem (dict_set d key val) key' = dict_getitem d key'.
Proof.
  intros Hne. induction d as [|[k' v'] d IH]; cbn.
  - destruct (Z.eqb_spec key key') as [?|_]; [congruence|]. reflexivity.
  - destruct (Z.eqb_spec k' key) as [->|Hk]; cbn.
    + destruct (Z.eqb_spec key key') as [?|_]; [congruence|]. reflexivity.
    + destruct (k' =? key'); [reflexivity|]. exact IH.
Qed.

Lemma has_key_set {V} (d : list (Z * V)) key key' val :
  has_key d key' \/ key' = key -> has_key (dict_set d key val) key'.
Proof.
  intros H. destruct (Z.eq_dec key' key) as [->|Hne].
  - exists val. apply dict_getitem_set_eq.
  - destruct H as [[v Hv]|?]; [|contradiction].
    exists v. rewrite dict_getitem_set_ne by exact Hne. exact Hv.
Qed.

Lemma In_dict_set {V} (d : list (Z * V)) key val e :
  In e (dict_set d key val) -> e = (key, val) \/ In e d.
Proof.
  induction d as [|[k' v'] d IH]; cbn.
  - intros [<-|[]]. left. reflexivity.
  - destruct (Z.eqb_spec k' key) as [->|Hk]; cbn.
    + intros [<-|H]; [left; reflexivity | right; right; exact H].
    + intros [<-|H]; [right; left; reflexivity|].
      destruct (IH H) as [->|H']; [left; reflexivity | right; right; exact H'].
Qed.

Section ScalingOutcomes.

Variables (tx_start tx_end : Z) (exon_starts exon_ends : list Z).
Variables (intron_scale exon_scale : Q).

Local Abbreviation step := (plot_step exon_scale intron_scale).
Local Abbreviation scale_at := (scale_of exon_scale intron_scale).

Lemma mark_exon_loop_unpaired m : forall k (ec : list Q),
  (k <= length exon_ends)%nat -> (length exon_ends < k + m)%nat ->
  (k + m <= length exon_starts)%nat ->
  for_each (mark_exon tx_start exon_starts exon_ends)
    (map Z.of_nat (seq k m)) ec = Raise IndexError.
Proof.
  induction m as [|m IH]; intros k ec Hk Hlt Hle; [lia|].
  destruct (lookup_lt_is_Some_2 exon_starts k) as [s Hs]; [lia|].
  cbn [seq map].
  destruct (decide (k = length exon_ends)) as [->|Hne].
  - apply for_each_cons_raise. unfold mark_exon.
    rewrite (getitem_lookup _ _ _ Hs), bind_Ok.
    rewrite getitem_past_end by lia. reflexivity.
  - destruct (lookup_lt_is_Some_2 exon_ends k) as [e He]; [lia|].
    rewrite (for_each_cons _ _ _ _
               (slice_assign ec (s - tx_start) (e - tx_start) 1%Q)).
    2:{ unfold mark_exon.
        rewrite (getitem_lookup _ _ _ Hs), bind_Ok.
        rewrite (getitem_lookup _ _ _ He), bind_Ok. reflexivity. }
    apply IH; lia.
Qed.

Lemma advance_scale_of (cell : Q) :
  advance intron_scale exon_scale cell = pydiv 1 (scale_at cell).
Proof. unfold advance, scale_of. destruct (Qeq_bool cell 1); reflexivity. Qed.

Lemma plot_step_scale_of (cell : Q) : step cell = (1 / scale_at cell)%Q.
Proof. unfold plot_step, scale_of. destruct (Qeq_bool cell 1); reflexivity. Qed.

Lemma advance_step (cell : Q) :
  ~ (scale_at cell == 0)%Q ->
  advance intron_scale exon_scale cell = Ok (step cell).
Proof.
  intros H. rewrite advance_scale_of, plot_step_scale_of.
  apply pydiv_ok. exact H.
Qed.

Lemma forward_loop (ec : list Q) m : forall k x gc g2g,
  (k + m = length ec)%nat -> length gc = length ec ->
  Forall (fun c => ~ (scale_at c == 0)%Q) (drop k ec) ->
  exists x' g2g',
    for_each (forward_body tx_start intron_scale exon_scale ec)
      (map Z.of_nat (seq k m)) (x, gc, g2g)
    = Ok (x', take k gc ++ walk x (map step (drop k ec)), g2g')
    /\ (forall key val, In (key, val) g2g' ->
          In (key, val) g2g
          \/ exists i v, walk x (map step (drop k ec)) !! i = Some v
                         /\ key = int v
                         /\ val = Z.of_nat (k + i) + tx_start)
    /\ (forall key, has_key g2g key -> has_key g2g' key)
    /\ (forall v, In v (walk x (map step (drop k ec))) ->
          has_key g2g' (int v)).
Proof.
  induction m as [|m IH]; intros k x gc g2g Hk Hlen Hnz.
  - exists x, g2g. cbn [seq map for_each].
    rewrite drop_ge by lia. rewrite take_ge by lia.
    cbn [map walk]. rewrite app_nil_r.
    split; [reflexivity|]. split; [auto|]. split; [auto|].
    intros v [].
  - destruct (lookup_lt_is_Some_2 ec k) as [c Hc]; [lia|].
    rewrite (drop_S _ _ _ Hc) in Hnz |- *.
    apply Forall_cons_1 in Hnz as [Hc_nz Hnz].
    cbn [seq map].
    rewrite (for_each_cons _ _ _ _
               ((x + step c)%Q, <[k := x]> gc,
                dict_set g2g (int x) (Z.of_nat k + tx_start))).
    2:{ unfold forward_body.
        rewrite setitem_insert by lia. rewrite bind_Ok.
        rewrite (getitem_lookup _ _ _ Hc), bind_Ok.
        rewrite (advance_step _ Hc_nz), bind_Ok. reflexivity. }
    destruct (IH (S k) (x + step c)%Q (<[k := x]> gc)
                (dict_set g2g (int x) (Z.of_nat k + tx_start)))
      as (x' & g2g' & Hrun & Hent & Hkeep & Hkeys);
      [lia | rewrite length_insert; lia | exact Hnz |].
    exists x', g2g'. split; [|split; [|split]].
    + refine (eq_trans Hrun _). do 3 f_equal.
      cbn [map walk].
      rewrite (take_S_r _ _ x) by (apply list_lookup_insert_eq; lia).
      rewrite take_insert_ge by lia.
      rewrite <- app_assoc. reflexivity.
    + intros key val Hin. destruct (Hent key val Hin) as [H1|(i & v & Hi & -> & ->)].
      * apply In_dict_set in H1 as [Heq|H1]; [|left; exact H1].
        injection Heq as -> ->. right. exists 0%nat, x.
        split; [reflexivity|]. split; [reflexivity|]. f_equal. lia.
      * right. exists (S i), v. split; [exact Hi|]. split; [reflexivity|].
        f_equal. lia.
    + intros key Hkey. apply Hkeep. apply has_key_set. left. exact Hkey.
    + cbn [map walk]. intros v [<-|Hv].
      * apply Hkeep. apply has_key_set. right. reflexivity.
      * apply Hkeys. exact Hv.
Qed.

Lemma backward_loop (ec : list Q) m : forall k x gc g2g,
  (k + m = length ec)%nat -> length gc = length ec ->
  Forall (fun c => ~ (scale_at c == 0)%Q) (take m ec) ->
  exists x' g2g',
    for_each (backward_body tx_end intron_scale exon_scale ec)
      (map Z.of_nat (seq k m)) (x, gc, g2g)
    = Ok (x',
          reverse (walk x (map step (reverse (take m ec)))) ++ drop m gc,
          g2g')
    /\ (forall key val, In (key, val) g2g' ->
          In (key, val) g2g
          \/ exists i v,
               walk x (map step (reverse (take m ec))) !! i = Some v
               /\ key = int v
               /\ val = tx_end - Z.of_nat (k + i) + 1)
    /\ (forall key, has_key g2g key -> has_key g2g' key)
    /\ (forall v, In v (walk x (map step (reverse (take m ec)))) ->
          has_key g2g' (int v)).
Proof.
  induction m as [|m IH]; intros k x gc g2g Hk Hlen Hnz.
  - exists x, g2g. split; [reflexivity|]. split; [auto|]. split; [auto|].
    intros v [].
  - destruct (lookup_lt_is_Some_2 ec m) as [c Hc]; [lia|].
    rewrite (take_S_r _ _ _ Hc) in Hnz |- *.
    apply Forall_app in Hnz as [Hnz Hc_nz].
    apply Forall_cons_1 in Hc_nz as [Hc_nz _].
    rewrite reverse_snoc.
    cbn [seq map].
    rewrite (for_each_cons _ _ _ _
               ((x + step c)%Q, <[m := x]> gc,
                dict_set g2g (int x) (tx_end - Z.of_nat k + 1))).
    2:{ unfold backward_body.
        rewrite setitem_from_end by lia. rewrite bind_Ok.
        replace (length gc - S k)%nat with m by lia.
        rewrite (getitem_from_end ec k c), bind_Ok;
          [| replace (length ec - S k)%nat with m by lia; exact Hc | lia].
        rewrite (advance_step _ Hc_nz), bind_Ok. reflexivity. }
    destruct (IH (S k) (x + step c)%Q (<[m := x]> gc)
                (dict_set g2g (int x) (tx_end - Z.of_nat k + 1)))
      as (x' & g2g' & Hrun & Hent & Hkeep & Hkeys);
      [lia | rewrite length_insert; lia | exact Hnz |].
    exists x', g2g'. split; [|split; [|split]].
    + refine (eq_trans Hrun _). do 3 f_equal.
      cbn [map walk].
      rewrite reverse_cons, <- app_assoc. f_equal.
      rewrite (drop_S (<[m := x]> gc) x m)
        by (apply list_lookup_insert_eq; lia).
      rewrite drop_insert_lt by lia. reflexivity.
    + intros key val Hin.
      destruct (Hent key val Hin) as [H1|(i & v & Hi & -> & ->)].
      * apply In_dict_set in H1 as [Heq|H1]; [|left; exact H1].
        injection Heq as -> ->. right. exists 0%nat, x.
        split; [reflexivity|]. split; [reflexivity|]. f_equal. f_equal. lia.
      * right. exists (S i), v. split; [exact Hi|]. split; [reflexivity|].
        f_equal. f_equal. lia.
    + intros key Hkey. apply Hkeep. apply has_key_set. left. exact Hkey.
    + cbn [map walk]. intros v [<-|Hv].
      * apply Hkeep. apply has_key_set. right. reflexivity.
      * apply Hkeys. exact Hv.
Qed.

Lemma forward_loop_raises (ec : list Q) m : forall k x gc g2g,
  (k + m = length ec)%nat -> length gc = length ec ->
  Exists (fun c => (scale_at c == 0)%Q) (drop k ec) ->
  for_each (forward_body tx_start intron_scale exon_scale ec)
    (map Z.of_nat (seq k m)) (x, gc, g2g) = Raise ZeroDivisionError.
Proof.
  induction m as [|m IH]; intros k x gc g2g Hk Hlen Hz.
  - rewrite drop_ge in Hz by lia. inversion Hz.
  - destruct (lookup_lt_is_Some_2 ec k) as [c Hc]; [lia|].
    rewrite (drop_S _ _ _ Hc) in Hz.
    cbn [seq map].
    destruct (Qeq_dec (scale_at c) 0) as [Hzero|Hnz].
    + apply for_each_cons_raise. unfold forward_body.
      rewrite setitem_insert by lia. rewrite bind_Ok.
      rewrite (getitem_lookup _ _ _ Hc), bind_Ok.
      rewrite advance_scale_of, (pydiv_zero _ _ Hzero). reflexivity.
    + rewrite (for_each_cons _ _ _ _
                 ((x + step c)%Q, <[k := x]> gc,
                  dict_set g2g (int x) (Z.of_nat k + tx_start))).
      2:{ unfold forward_body.
          rewrite setitem_insert by lia. rewrite bind_Ok.
          rewrite (getitem_lookup _ _ _ Hc), bind_Ok.
          rewrite (advance_step _ Hnz), bind_Ok. reflexivity. }
      apply IH; [lia | rewrite length_insert; lia |].
      apply Exists_cons in Hz as [Hz|Hz]; [contradiction | exact Hz].
Qed.

Lemma backward_loop_raises (ec : list Q) m : forall k x gc g2g,
  (k + m = length ec)%nat -> length gc = length ec ->
  Exists (fun c => (scale_at c == 0)%Q) (take m ec) ->
  for_each (backward_body tx_end intron_scale exon_scale ec)
    (map Z.of_nat (seq k m)) (x, gc, g2g) = Raise ZeroDivisionError.
Proof.
  induction m as [|m IH]; intros k x gc g2g Hk Hlen Hz.
  - inversion Hz.
  - destruct (lookup_lt_is_Some_2 ec m) as [c Hc]; [lia|].
    rewrite (take_S_r _ _ _ Hc) in Hz.
    cbn [seq map].
    destruct (Qeq_dec (scale_at c) 0) as [Hzero|Hnz].
    + apply for_each_cons_raise. unfold backward_body.
      rewrite setitem_from_end by lia. rewrite bind_Ok.
      rewrite (getitem_from_end ec k c), bind_Ok;
        [| replace (length ec - S k)%nat with m by lia; exact Hc | lia].
      rewrite advance_scale_of, (pydiv_zero _ _ Hzero). reflexivity.
    + rewrite (for_each_cons _ _ _ _
                 ((x + step c)%Q, <[m := x]> gc,
                  dict_set g2g (int x) (tx_end - Z.of_nat k + 1))).
      2:{ unfold backward_body.
          rewrite setitem_from_end by lia. rewrite bind_Ok.
          replace (length gc - S k)%nat with m by lia.
          rewrite (getitem_from_end ec k c), bind_Ok;
            [| replace (length ec - S k)%nat with m by lia; exact Hc | lia].
          rewrite (advance_step _ Hnz), bind_Ok. reflexivity. }
      apply IH; [lia | rewrite length_insert; lia |].
      apply Exists_app in Hz as [Hz|Hz]; [exact Hz|].
      apply Exists_cons in Hz as [Hz|Hz]; [contradiction | inversion Hz].
Qed.

End ScalingOutcomes.

Section ScalingRun.

Variables (tx_start tx_end : Z) (strand : pyval).
Variables (exon_starts exon_ends : list Z).
Variables (intron_scale exon_scale : Q) (reverse_minus : bool).

Local Abbreviation step := (plot_step exon_scale intron_scale).
Local Abbreviation scale_at := (scale_of exon_scale intron_scale).
Local Abbreviation forward := (fills_forward strand reverse_minus).

Lemma mark_exon_length l : forall (ec ec' : list Q),
  for_each (mark_exon tx_start exon_starts exon_ends) l ec = Ok ec' ->
  length ec' = length ec.
Proof.
  induction l as [|i l IH]; intros ec ec' H.
  - injection H as <-. reflexivity.
  - cbn [for_each] in H.
    destruct (mark_exon tx_start exon_starts exon_ends i ec) as [ec1|e] eqn:H1;
      [|rewrite bind_Raise in H; discriminate H].
    rewrite bind_Ok in H. rewrite (IH _ _ H).
    unfold mark_exon in H1.
    destruct (getitem exon_starts i) as [s|e];
      [|rewrite bind_Raise in H1; discriminate H1].
    rewrite bind_Ok in H1.
    destruct (getitem exon_ends i) as [e|e];
      [|rewrite bind_Raise in H1; discriminate H1].
    rewrite bind_Ok in H1. injection H1 as <-. apply length_slice_assign.
Qed.

Lemma exon_coords_of_inv ec :
  exon_coords_of tx_start tx_end exon_starts exon_ends = Ok ec ->
  tx_start <= tx_end + 1 /\ length ec = Z.to_nat (tx_end - tx_start + 1).
Proof.
  unfold exon_coords_of, zeros. intros H.
  destruct (Z.ltb_spec (tx_end - tx_start + 1) 0) as [Hneg|Hnn];
    [rewrite bind_Raise in H; discriminate H|].
  rewrite bind_Ok in H. split; [lia|].
  rewrite (mark_exon_length _ _ _ H). apply length_replicate.
Qed.

(** When no walked offset has a zero scale [get_scaling] returns: its
    array, read in walk order, is the walk over the cells; every entry of
    [graph_to_gene] was written for a walked value; and the truncation of
    every coordinate is a key. *)
Lemma get_scaling_run ec :
  exon_coords_of tx_start tx_end exon_starts exon_ends = Ok ec ->
  Forall (fun c => ~ (scale_at c == 0)%Q) ec ->
  exists gc g2g,
    get_scaling tx_start tx_end strand exon_starts exon_ends
      intron_scale exon_scale reverse_minus = Ok (gc, g2g)
    /\ walk_order forward gc = walk 0 (map step (walk_order forward ec))
    /\ (forall key val, In (key, val) g2g ->
          exists i v,
            walk_order forward gc !! i = Some v
            /\ key = int v
            /\ val = walk_label tx_start tx_end forward (Z.of_nat i))
    /\ (forall v, In v gc -> has_key g2g (int v)).
Proof.
  intros Hec Hnz.
  destruct (exon_coords_of_inv _ Hec) as [Hn Hlen].
  unfold get_scaling. rewrite Hec, bind_Ok.
  rewrite zeros_ok by lia. rewrite bind_Ok.
  set (n := Z.to_nat (tx_end - tx_start + 1)) in *.
  unfold range. fold n.
  destruct forward; cbn [walk_order walk_label].
  - destruct (forward_loop tx_start intron_scale exon_scale
                ec n 0 0%Q (replicate n 0%Q) [])
      as (x' & g2g' & Hrun & Hent & _ & Hkeys);
      [lia | rewrite length_replicate; lia | exact Hnz |].
    rewrite Hrun, bind_Ok. cbn [take app] in *. rewrite drop_0 in *.
    exists (walk 0 (map step ec)), g2g'.
    split; [reflexivity|]. split; [reflexivity|]. split; [|exact Hkeys].
    intros key val Hin.
    destruct (Hent key val Hin) as [[]|(i & v & Hi & -> & ->)].
    exists i, v. split; [exact Hi|]. split; reflexivity.
  - destruct (backward_loop tx_end intron_scale exon_scale
                ec n 0 0%Q (replicate n 0%Q) [])
      as (x' & g2g' & Hrun & Hent & _ & Hkeys);
      [lia | rewrite length_replicate; lia
       | rewrite take_ge by lia; exact Hnz |].
    rewrite Hrun, bind_Ok.
    rewrite (drop_ge (replicate n 0%Q)) by (rewrite length_replicate; lia).
    rewrite (take_ge ec) in * by lia. rewrite app_nil_r.
    exists (reverse (walk 0 (map step (reverse ec)))), g2g'.
    rewrite reverse_involutive.
    split; [reflexivity|]. split; [reflexivity|]. split.
    + intros key val Hin.
      destruct (Hent key val Hin) as [[]|(i & v & Hi & -> & ->)].
      exists i, v. split; [exact Hi|]. split; reflexivity.
    + intros v Hv. apply Hkeys. apply list_elem_of_In.
      apply list_elem_of_In in Hv. rewrite elem_of_reverse in Hv. exact Hv.
Qed.

Lemma get_scaling_zero_scale ec :
  exon_coords_of tx_start tx_end exon_starts exon_ends = Ok ec ->
  Exists (fun c => (scale_at c == 0)%Q) ec ->
  get_scaling tx_start tx_end strand exon_starts exon_ends
    intron_scale exon_scale reverse_minus = Raise ZeroDivisionError.
Proof.
  intros Hec Hz.
  destruct (exon_coords_of_inv _ Hec) as [Hn Hlen].
  unfold get_scaling. rewrite Hec, bind_Ok.
  rewrite zeros_ok by lia. rewrite bind_Ok.
  unfold range.
  destruct forward.
  - rewrite forward_loop_raises;
      [reflexivity | lia | rewrite length_replicate; lia
       | rewrite drop_0; exact Hz].
  - rewrite backward_loop_raises;
      [reflexivity | lia | rewrite length_replicate; lia
       | rewrite take_ge by lia; exact Hz].
Qed.

(** What a call that returned went through. *)
Lemma get_scaling_inv gc g2g :
  get_scaling tx_start tx_end strand exon_starts exon_ends
    intron_scale exon_scale reverse_minus = Ok (gc, g2g) ->
  exists ec,
    exon_coords_of tx_start tx_end exon_starts exon_ends = Ok ec
    /\ Forall (fun c => ~ (scale_at c == 0)%Q) ec
    /\ tx_start <= tx_end + 1
    /\ length ec = Z.to_nat (tx_end - tx_start + 1)
    /\ length gc = Z.to_nat (tx_end - tx_start + 1)
    /\ walk_order forward gc = walk 0 (map step (walk_order forward ec))
    /\ (forall key val, In (key, val) g2g ->
          exists i v,
            walk_order forward gc !! i = Some v
            /\ key = int v
            /\ val = walk_label tx_start tx_end forward (Z.of_nat i))
    /\ (forall v, In v gc -> has_key g2g (int v)).
Proof.
  intros Hrun.
  destruct (exon_coords_of tx_start tx_end exon_starts exon_ends)
    as [ec|err] eqn:Hec.
  2:{ unfold get_scaling in Hrun. rewrite Hec, bind_Raise in Hrun.
      discriminate Hrun. }
  exists ec. split; [reflexivity|].
  destruct (exon_coords_of_inv _ Hec) as [Hn Hlen].
  assert (Hnz : Forall (fun c => ~ (scale_at c == 0)%Q) ec).
  { apply List.Forall_forall. intros c Hc Hzero.
    rewrite (get_scaling_zero_scale ec Hec) in Hrun; [discriminate Hrun|].
    apply List.Exists_exists. exists c. split; assumption. }
  destruct (get_scaling_run ec Hec Hnz)
    as (gc' & g2g' & Hrun' & Hwalk & Hent & Hkeys).
  rewrite Hrun in Hrun'. injection Hrun' as <- <-.
  split; [exact Hnz|]. split; [exact Hn|]. split; [exact Hlen|].
  split; [|auto].
  rewrite <- (length_walk_order forward gc).
  rewrite Hwalk, length_walk, length_map, length_walk_order. exact Hlen.
Qed.

End ScalingRun.

(** X2.  The outcome of [get_scaling].  A region whose end lies more than
    one before its start raises ValueError (the array cannot be
    allocated); otherwise fewer exon ends than exon starts raise
    IndexError; otherwise the exon marks are computed, and the call
    raises ZeroDivisionError when some offset of the region has a zero
    scale (the exon scale on a marked offset, the intron scale on the
    others) and returns one coordinate per offset when none has. *)
Theorem get_scaling_outcome (tx_start tx_end : Z) (strand : pyval)
    (exon_starts exon_ends : list Z) (intron_scale exon_scale : Q)
    (reverse_minus : bool) :
  let run := get_scaling tx_start tx_end strand exon_starts exon_ends
               intron_scale exon_scale reverse_minus in
  (tx_end + 1 < tx_start -> run = Raise ValueError)
  /\ (tx_start <= tx_end + 1 ->
      (length exon_ends < length exon_starts)%nat ->
      run = Raise IndexError)
  /\ (tx_start <= tx_end + 1 ->
      (length exon_starts <= length exon_ends)%nat ->
      exists ec,
        exon_coords_of tx_start tx_end exon_starts exon_ends = Ok ec
        /\ (Exists (fun c => (scale_of exon_scale intron_scale c == 0)%Q) ec ->
            run = Raise ZeroDivisionError)
        /\ (Forall (fun c => ~ (scale_of exon_scale intron_scale c == 0)%Q) ec ->
            exists gc g2g,
              run = Ok (gc, g2g)
              /\ Z.of_nat (length gc) = tx_end - tx_start + 1)).
Proof.
  cbv zeta. split; [|split].
  - intros Hneg. unfold get_scaling, exon_coords_of, zeros.
    destruct (Z.ltb_spec (tx_end - tx_start + 1) 0) as [_|?]; [|lia].
    reflexivity.
  - intros Hn Hlt. unfold get_scaling, exon_coords_of.
    rewrite zeros_ok by lia. rewrite bind_Ok, range_of_nat.
    rewrite mark_exon_loop_unpaired by lia. reflexivity.
  - intros Hn Hle.
    destruct (exon_coords_of_ok tx_start tx_end exon_starts exon_ends Hn Hle)
      as (ec & Hec & Hlen).
    exists ec. split; [exact Hec|]. split.
    + intros Hz. apply (get_scaling_zero_scale _ _ _ _ _ _ _ _ ec Hec Hz).
    + intros Hnz.
      destruct (get_scaling_run tx_start tx_end strand exon_starts exon_ends
                  intron_scale exon_scale reverse_minus ec Hec Hnz)
        as (gc & g2g & Hrun & Hwalk & _).
      exists gc, g2g. split; [exact Hrun|].
      rewrite <- (length_walk_order (fills_forward strand reverse_minus) gc).
      rewrite Hwalk, length_walk, length_map, length_walk_order. lia.
Qed.

(** X2, witness: a region, a pair of exon lists and scales for each outcome. *)
Lemma get_scaling_outcome_witness :
  get_scaling 5 3 (PyStr "+") [] [] 1 1 false = Raise ValueError
  /\ get_scaling 0 3 (PyStr "+") [1] [] 1 1 false = Raise IndexError
  /\ (exists ec,
        exon_coords_of 0 3 [1] [3] = Ok ec
        /\ get_scaling 0 3 (PyStr "+") [1] [3] 0 1 false
           = Raise ZeroDivisionError)
  /\ (exists gc g2g,
        get_scaling 0 3 (PyStr "+") [1] [3] 2 1 false = Ok (gc, g2g)
        /\ Z.of_nat (length gc) = 3 - 0 + 1).
Proof.
  split; [|split; [|split]].
  - apply (proj1 (get_scaling_outcome 5 3 (PyStr "+") [] [] 1 1 false)). lia.
  - apply (proj1 (proj2 (get_scaling_outcome 0 3 (PyStr "+") [1] [] 1 1 false)));
      cbn; lia.
  - destruct (proj2 (proj2 (get_scaling_outcome 0 3 (PyStr "+") [1] [3] 0 1
                              false)))
      as (ec & Hec & Hz & _); [lia | cbn; lia |].
    exists ec. split; [exact Hec|]. apply Hz.
    vm_compute in Hec. injection Hec as <-.
    apply Exists_cons_hd. vm_compute. reflexivity.
  - destruct (proj2 (proj2 (get_scaling_outcome 0 3 (PyStr "+") [1] [3] 2 1
                              false)))
      as (ec & Hec & _ & Hok); [lia | cbn; lia |].
    apply Hok. vm_compute in Hec. injection Hec as <-.
    repeat constructor; vm_compute; discriminate.
Defined.

(** ** The exon marks *)

Lemma getitem_nat_inv {A} (l : list A) (k : nat) (a : A) :
  getitem l (Z.of_nat k) = Ok a -> l !! k = Some a.
Proof.
  unfold getitem, norm_index, in_range.
  destruct (Z.ltb_spec (Z.of_nat k) 0) as [?|_]; [lia|].
  destruct (_ && _); [|discriminate].
  rewrite Nat2Z.id. destruct (l !! k); [|discriminate].
  intros H. injection H as <-. reflexivity.
Qed.

Lemma lookup_slice_assign {A} (l : list A) (a b : Z) (v x : A) (j : nat) :
  l !! j = Some x ->
  slice_assign l a b v !! j
  = Some (if in_slice (Z.of_nat (length l)) a b (Z.of_nat j) then v else x).
Proof.
  intros Hj. unfold slice_assign, in_slice.
  rewrite list_lookup_imap, Hj. reflexivity.
Qed.

Section ExonMarks.

Variables (tx_start tx_end : Z) (exon_starts exon_ends : list Z).

Lemma mark_exon_loop_cells m : forall k (ec ec' : list Q),
  for_each (mark_exon tx_start exon_starts exon_ends)
    (map Z.of_nat (seq k m)) ec = Ok ec' ->
  forall j x, ec !! j = Some x ->
    ec' !! j
    = Some (if exon_marks tx_start (Z.of_nat (length ec))
                 (take m (drop k (zip exon_starts exon_ends))) (Z.of_nat j)
            then 1%Q else x).
Proof.
  induction m as [|m IH]; intros k ec ec' H j x Hj.
  - injection H as <-. rewrite take_0. exact Hj.
  - cbn [seq map for_each] in H.
    destruct (mark_exon tx_start exon_starts exon_ends (Z.of_nat k) ec)
      as [ec1|err] eqn:H1; [|rewrite bind_Raise in H; discriminate H].
    rewrite bind_Ok in H. unfold mark_exon in H1.
    destruct (getitem exon_starts (Z.of_nat k)) as [s|err] eqn:Hs;
      [|rewrite bind_Raise in H1; discriminate H1].
    rewrite bind_Ok in H1.
    destruct (getitem exon_ends (Z.of_nat k)) as [e|err] eqn:He;
      [|rewrite bind_Raise in H1; discriminate H1].
    rewrite bind_Ok in H1. injection H1 as <-.
    apply getitem_nat_inv in Hs, He.
    assert (Hz : zip exon_starts exon_ends !! k = Some (s, e)).
    { apply lookup_zip_with_Some. exists s, e. auto. }
    rewrite (drop_S _ _ _ Hz). cbn [take].
    rewrite (IH (S k) _ _ H j _ (lookup_slice_assign _ _ _ _ _ _ Hj)).
    rewrite length_slice_assign. unfold exon_marks. cbn [existsb].
    destruct (in_slice _ _ _ _); cbn [orb]; [|reflexivity].
    destruct (existsb _ _); reflexivity.
Qed.

(** The cells of [exon_coords]: a cell is [1] when one of the slices holds
    its index and [0] otherwise. *)
Lemma exon_coords_cells ec :
  exon_coords_of tx_start tx_end exon_starts exon_ends = Ok ec ->
  forall j, (j < length ec)%nat ->
    ec !! j
    = Some (if exon_marks tx_start (tx_end - tx_start + 1)
                 (zip exon_starts exon_ends) (Z.of_nat j)
            then 1%Q else 0%Q).
Proof.
  intros Hec j Hj.
  destruct (exon_coords_of_inv _ _ _ _ _ Hec) as [Hn Hlen].
  unfold exon_coords_of in Hec. rewrite zeros_ok in Hec by lia.
  rewrite bind_Ok, range_of_nat in Hec.
  rewrite (mark_exon_loop_cells _ _ _ _ Hec j 0%Q).
  - rewrite length_replicate, drop_0, Z2Nat.id by lia.
    rewrite take_ge; [reflexivity|].
    rewrite length_zip_with. lia.
  - apply lookup_replicate. split; [reflexivity | lia].
Qed.

(** X3.  Exons that start and end at or after [tx_start] mark the
    positions from their start up to, not including, their end: the
    cell of a position [p] of the region is [1] when some exon has
    [s <= p < e] and [0] otherwise.  The part of an exon past [tx_end]
    marks nothing and raises nothing. *)
Theorem exon_marks_inside_region (ec : list Q) (p : Z) :
  exon_coords_of tx_start tx_end exon_starts exon_ends = Ok ec ->
  Forall (fun '(s, e) => tx_start <= s /\ tx_start <= e)
    (zip exon_starts exon_ends) ->
  tx_start <= p <= tx_end ->
  exists c,
    ec !! Z.to_nat (p - tx_start) = Some c
    /\ (c = 1%Q \/ c = 0%Q)
    /\ (c = 1%Q <->
        exists s e, In (s, e) (zip exon_starts exon_ends) /\ s <= p < e).
Proof.
  intros Hec Hin Hp.
  destruct (exon_coords_of_inv _ _ _ _ _ Hec) as [Hn Hlen].
  rewrite (exon_coords_cells _ Hec) by lia.
  rewrite Z2Nat.id by lia.
  eexists. split; [reflexivity|].
  assert (Hiff : exon_marks tx_start (tx_end - tx_start + 1)
                   (zip exon_starts exon_ends) (p - tx_start) = true
                 <-> exists s e, In (s, e) (zip exon_starts exon_ends)
                                 /\ s <= p < e).
  { unfold exon_marks. rewrite existsb_exists. split.
    - intros ([s e] & Hse & Hm). exists s, e. split; [exact Hse|].
      rewrite List.Forall_forall in Hin. specialize (Hin _ Hse). cbn in Hin.
      unfold in_slice, slice_bound in Hm.
      destruct (Z.ltb_spec (s - tx_start) 0) as [?|_]; [lia|].
      destruct (Z.ltb_spec (e - tx_start) 0) as [?|_]; [lia|].
      apply andb_prop in Hm as [H1 H2]. lia.
    - intros (s & e & Hse & Hs). exists (s, e). split; [exact Hse|].
      rewrite List.Forall_forall in Hin. specialize (Hin _ Hse). cbn in Hin.
      unfold in_slice, slice_bound.
      destruct (Z.ltb_spec (s - tx_start) 0) as [?|_]; [lia|].
      destruct (Z.ltb_spec (e - tx_start) 0) as [?|_]; [lia|].
      apply andb_true_intro. split; lia. }
  destruct (exon_marks _ _ _ _).
  - split; [left; reflexivity|]. split; [intros _; apply Hiff; reflexivity|].
    reflexivity.
  - split; [right; reflexivity|]. split; [discriminate|].
    intros H. apply Hiff in H. discriminate H.
Qed.

(** X4.  An exon that starts before [tx_start] is not clipped to the
    region: its negative slice index counts from the end of the array.
    Offset [0] is marked only by an exon that starts at [tx_start] or at
    least one region length before it; and an exon that lies wholly
    before the region, less than one region length away, marks the
    offsets one region length to its right. *)
Theorem exon_marks_before_region (ec : list Q) :
  let n := tx_end - tx_start + 1 in
  exon_coords_of tx_start tx_end exon_starts exon_ends = Ok ec ->
  (ec !! 0%nat = Some 1%Q ->
   exists s e, In (s, e) (zip exon_starts exon_ends)
               /\ (s = tx_start \/ s <= tx_start - n))
  /\ (forall s e p,
        In (s, e) (zip exon_starts exon_ends) ->
        tx_start - n <= s -> e < tx_start -> s <= p < e ->
        ec !! Z.to_nat (p + n - tx_start) = Some 1%Q).
Proof.
  intros n Hec.
  destruct (exon_coords_of_inv _ _ _ _ _ Hec) as [Hn Hlen].
  split.
  - intros H0.
    assert (H0lt : (0 < length ec)%nat) by (apply lookup_lt_Some in H0; lia).
    rewrite (exon_coords_cells _ Hec) in H0 by lia.
    destruct (exon_marks _ _ _ _) eqn:Hm; [|discriminate H0].
    unfold exon_marks in Hm. apply existsb_exists in Hm as ([s e] & Hse & Hm).
    exists s, e. split; [exact Hse|].
    unfold in_slice, slice_bound in Hm.
    apply andb_prop in Hm as [H1 _]. apply Z.leb_le in H1.
    unfold n. destruct (Z.ltb_spec (s - tx_start) 0) as [Hneg|Hnn]; lia.
  - intros s e p Hse Hs He Hp.
    rewrite (exon_coords_cells _ Hec) by (unfold n in *; lia).
    rewrite Z2Nat.id by (unfold n in *; lia).
    replace (exon_marks _ _ _ _) with true; [reflexivity|].
    symmetry. unfold exon_marks. apply existsb_exists.
    exists (s, e). split; [exact Hse|].
    unfold in_slice, slice_bound. unfold n in *.
    destruct (Z.ltb_spec (s - tx_start) 0) as [_|?]; [|lia].
    destruct (Z.ltb_spec (e - tx_start) 0) as [_|?]; [|lia].
    apply andb_true_intro. split; lia.
Qed.

End ExonMarks.

(** X3, witness: the region 100..109 with the exon 103..106 inside it. *)
Lemma exon_marks_inside_region_witness :
  exists c,
    [0; 0; 0; 1; 1; 1; 0; 0; 0; 0]%Q !! Z.to_nat (105 - 100) = Some c
    /\ (c = 1%Q \/ c = 0%Q)
    /\ (c = 1%Q <-> exists s e, In (s, e) (zip [103] [106]) /\ s <= 105 < e).
Proof.
  apply (exon_marks_inside_region 100 109 [103] [106]).
  - vm_compute. reflexivity.
  - repeat constructor; lia.
  - lia.
Defined.

(** X4, witness: the region 100..109 with the exon 95..98 before it: the offsets of
    105..108 are marked. *)
Lemma exon_marks_before_region_witness :
  ([0; 0; 0; 0; 0; 1; 1; 1; 0; 0]%Q !! 0%nat = Some 1%Q ->
   exists s e, In (s, e) (zip [95] [98])
               /\ (s = 100 \/ s <= 100 - (109 - 100 + 1)))
  /\ (forall s e p,
        In (s, e) (zip [95] [98]) ->
        100 - (109 - 100 + 1) <= s -> e < 100 -> s <= p < e ->
        [0; 0; 0; 0; 0; 1; 1; 1; 0; 0]%Q
          !! Z.to_nat (p + (109 - 100 + 1) - 100) = Some 1%Q).
Proof.
  apply (exon_marks_before_region 100 109 [95] [98]).
  vm_compute. reflexivity.
Defined.

(** ** C1 *)

Lemma walk_order_map {A B} (f : A -> B) (forward : bool) (l : list A) :
  walk_order forward (map f l) = map f (walk_order forward l).
Proof.
  destruct forward; cbn [walk_order]; [reflexivity|].
  unfold reverse. rewrite <- !rev_alt. symmetry. apply map_rev.
Qed.

Lemma length_region_positions (tx_start tx_end : Z) :
  length (region_positions tx_start tx_end)
  = Z.to_nat (tx_end - tx_start + 1).
Proof.
  unfold region_positions, range.
  rewrite !length_map, length_seq. reflexivity.
Qed.

Lemma region_positions_lookup (tx_start tx_end : Z) (j : nat) :
  (j < Z.to_nat (tx_end - tx_start + 1))%nat ->
  region_positions tx_start tx_end !! j = Some (tx_start + Z.of_nat j).
Proof.
  intros Hj. unfold region_positions, range.
  change (map (fun i => tx_start + i)
            (map Z.of_nat (seq 0 (Z.to_nat (tx_end - tx_start + 1)))))
    with ((fun i => tx_start + i) <$>
            (Z.of_nat <$> seq 0 (Z.to_nat (tx_end - tx_start + 1)))).
  rewrite !list_lookup_fmap, lookup_seq_lt by exact Hj. reflexivity.
Qed.

(** Exons that start and end at or after [tx_start] mark the cells of
    the exonic positions, so the distance taken after a cell is the plot
    distance of its position. *)
Lemma exon_cells_plot_distance (tx_start tx_end : Z)
    (exon_starts exon_ends : list Z) (intron_scale exon_scale : Q)
    (ec : list Q) :
  exon_coords_of tx_start tx_end exon_starts exon_ends = Ok ec ->
  Forall (fun '(s, e) => tx_start <= s /\ tx_start <= e)
    (zip exon_starts exon_ends) ->
  map (plot_step exon_scale intron_scale) ec
  = map (plot_distance exon_scale intron_scale exon_starts exon_ends)
      (region_positions tx_start tx_end).
Proof.
  intros Hec Hin.
  destruct (exon_coords_of_inv _ _ _ _ _ Hec) as [Hn Hlen].
  apply list_eq_same_length with (length ec).
  - rewrite length_map, length_region_positions. symmetry. exact Hlen.
  - rewrite length_map. reflexivity.
  - intros j x y Hj Hx Hy.
    change ((plot_step exon_scale intron_scale <$> ec) !! j = Some x)
      in Hx.
    change ((plot_distance exon_scale intron_scale exon_starts exon_ends
               <$> region_positions tx_start tx_end) !! j = Some y) in Hy.
    rewrite list_lookup_fmap in Hx. rewrite list_lookup_fmap in Hy.
    rewrite (exon_coords_cells _ _ _ _ _ Hec j Hj) in Hx.
    rewrite region_positions_lookup in Hy by lia.
    cbn in Hx, Hy. injection Hx as <-. injection Hy as <-.
    unfold plot_step, plot_distance.
    assert (Hm : exon_marks tx_start (tx_end - tx_start + 1)
                   (zip exon_starts exon_ends) (Z.of_nat j)
                 = exonic exon_starts exon_ends (tx_start + Z.of_nat j)).
    { unfold exon_marks, exonic.
      induction (zip exon_starts exon_ends) as [|[s e] exons IH];
        [reflexivity|].
      apply Forall_cons_1 in Hin as [[Hs He] Hin]. cbn [existsb].
      rewrite (IH Hin). f_equal.
      unfold in_slice, slice_bound.
      destruct (Z.ltb_spec (s - tx_start) 0) as [?|_]; [lia|].
      destruct (Z.ltb_spec (e - tx_start) 0) as [?|_]; [lia|].
      destruct (Z.leb_spec s (tx_start + Z.of_nat j)),
               (Z.ltb_spec (tx_start + Z.of_nat j) e);
        cbn [andb]; [apply andb_true_intro; split| | |];
        try apply andb_false_iff; lia. }
    rewrite Hm.
    destruct (exonic exon_starts exon_ends (tx_start + Z.of_nat j));
      reflexivity.
Qed.




(** ** The closed form of the coordinates *)

Lemma walk_closed_form (exon_scale intron_scale : Q) (cells : list Q) :
  ~ (exon_scale == 0)%Q -> ~ (intron_scale == 0)%Q ->
  forall x i v,
    walk x (map (plot_step exon_scale intron_scale) cells) !! i = Some v ->
    (v == x + inject_Z (count_exonic (take i cells)) / exon_scale
          + inject_Z (Z.of_nat i - count_exonic (take i cells))
            / intron_scale)%Q.
Proof.
  intros Hes His. induction cells as [|c cells IH]; intros x i v Hi.
  - destruct i; discriminate Hi.
  - destruct i as [|i].
    + injection Hi as <-. cbn [take count_exonic].
      replace (Z.of_nat 0 - 0) with 0 by lia.
      change (inject_Z 0) with 0%Q. field. split; assumption.
    + cbn [map walk] in Hi. change ((?a :: ?l) !! S i) with (l !! i) in Hi.
      rewrite (IH _ _ _ Hi). cbn [take count_exonic].
      unfold plot_step. destruct (Qeq_bool c 1).
      * replace (Z.of_nat (S i) - (1 + count_exonic (take i cells)))
          with (Z.of_nat i - count_exonic (take i cells)) by lia.
        rewrite inject_Z_plus. change (inject_Z 1) with 1%Q.
        field. split; assumption.
      * replace (Z.of_nat (S i) - (0 + count_exonic (take i cells)))
          with (1 + (Z.of_nat i - count_exonic (take i cells))) by lia.
        rewrite Z.add_0_l.
        rewrite (inject_Z_plus 1). change (inject_Z 1) with 1%Q.
        field. split; assumption.
Qed.

(** X5.  The closed form of the coordinates.  When [get_scaling] returns,
    the coordinate of the [i]-th offset it walks (counted from the start
    of the region in a forward fill, from its end otherwise) is the number
    of marked offsets walked before it divided by the exon scale plus the
    number of unmarked ones divided by the intron scale. *)
Theorem get_scaling_closed_form (tx_start tx_end : Z) (strand : pyval)
    (exon_starts exon_ends : list Z) (intron_scale exon_scale : Q)
    (reverse_minus : bool) (gc : list Q) (g2g : list (Z * Z)) :
  ~ (exon_scale == 0)%Q -> ~ (intron_scale == 0)%Q ->
  get_scaling tx_start tx_end strand exon_starts exon_ends
    intron_scale exon_scale reverse_minus = Ok (gc, g2g) ->
  exists ec,
    exon_coords_of tx_start tx_end exon_starts exon_ends = Ok ec
    /\ forall (i : nat) (v : Q),
         walk_order (fills_forward strand reverse_minus) gc !! i = Some v ->
         let walked :=
           take i (walk_order (fills_forward strand reverse_minus) ec) in
         (v == inject_Z (count_exonic walked) / exon_scale
               + inject_Z (Z.of_nat i - count_exonic walked)
                 / intron_scale)%Q.
Proof.
  intros Hes His Hrun.
  destruct (get_scaling_inv _ _ _ _ _ _ _ _ _ _ Hrun)
    as (ec & Hec & _ & _ & _ & _ & Hwalk & _).
  exists ec. split; [exact Hec|]. intros i v Hi. cbv zeta.
  rewrite Hwalk in Hi.
  rewrite (walk_closed_form _ _ _ Hes His _ _ _ Hi).
  field. split; assumption.
Qed.

(** X5, witness: the region 10..15 with the exon 12..14 and the scales 2 and 1, read
    from its end. *)
Lemma get_scaling_closed_form_witness :
  exists ec,
    exon_coords_of 10 15 [12] [14] = Ok ec
    /\ forall (i : nat) (v : Q),
         walk_order (fills_forward (PyStr "-") true)
           [28 # 8; 12 # 4; 8 # 4; 4 # 4; 1 # 2; 0]%Q !! i = Some v ->
         let walked :=
           take i (walk_order (fills_forward (PyStr "-") true) ec) in
         (v == inject_Z (count_exonic walked) / 1
               + inject_Z (Z.of_nat i - count_exonic walked) / 2)%Q.
Proof.
  apply (get_scaling_closed_form 10 15 (PyStr "-") [12] [14] 2 1 true _
           [(0, 15); (1, 14); (2, 13); (3, 11)]).
  - vm_compute. discriminate.
  - vm_compute. discriminate.
  - vm_compute. reflexivity.
Defined.

(** ** The labels of graph_to_gene *)

Lemma In_walk_order {A} (forward : bool) (l : list A) (a : A) :
  In a (walk_order forward l) <-> In a l.
Proof.
  destruct forward; cbn [walk_order]; [reflexivity|].
  rewrite <- !list_elem_of_In. apply elem_of_reverse.
Qed.

(** X6.  What [graph_to_gene] holds when [get_scaling] returns.  Every
    entry was written for a slot of the array: in a forward fill its
    value is the genomic position of the slot; in a fill from the end it
    is that position plus one, so the labels run from [tx_start + 1] to
    [tx_end + 1].  And when the region is not empty, [0] is a key: the
    walk starts at the coordinate [0]. *)
Theorem graph_to_gene_labels (tx_start tx_end : Z) (strand : pyval)
    (exon_starts exon_ends : list Z) (intron_scale exon_scale : Q)
    (reverse_minus : bool) (gc : list Q) (g2g : list (Z * Z)) :
  get_scaling tx_start tx_end strand exon_starts exon_ends
    intron_scale exon_scale reverse_minus = Ok (gc, g2g) ->
  (forall key val, In (key, val) g2g ->
     exists slot : nat,
       (slot < length gc)%nat
       /\ tx_start <= tx_start + Z.of_nat slot <= tx_end
       /\ val = tx_start + Z.of_nat slot
                + (if fills_forward strand reverse_minus then 0 else 1))
  /\ (tx_start <= tx_end -> has_key g2g 0).
Proof.
  intros Hrun.
  destruct (get_scaling_inv _ _ _ _ _ _ _ _ _ _ Hrun)
    as (ec & _ & _ & Hn & Hlen_ec & Hlen & Hwalk & Hent & Hkeys).
  split.
  - intros key val Hin.
    destruct (Hent key val Hin) as (i & v & Hi & _ & ->).
    pose proof (lookup_lt_Some _ _ _ Hi) as Hlt.
    rewrite length_walk_order in Hlt.
    destruct (fills_forward strand reverse_minus);
      cbn [walk_order walk_label] in *.
    + exists i. split; [exact Hlt | lia].
    + exists (length gc - S i)%nat. split; lia.
  - intros Hreg. change 0 with (int 0). apply Hkeys.
    apply (In_walk_order (fills_forward strand reverse_minus)).
    rewrite Hwalk.
    destruct (walk_order (fills_forward strand reverse_minus) ec)
      as [|c cells] eqn:Hcells.
    + apply (f_equal length) in Hcells.
      rewrite length_walk_order in Hcells. cbn in Hcells. lia.
    + cbn [map walk]. left. reflexivity.
Qed.

(** X6, witness: the region 10..15 with the exon 12..14 and the scales 2
    and 1, read from its end. *)
Lemma graph_to_gene_labels_witness :
  (forall key val, In (key, val) [(0, 15); (1, 14); (2, 13); (3, 11)] ->
     exists slot : nat,
       (slot < length [28 # 8; 12 # 4; 8 # 4; 4 # 4; 1 # 2; 0]%Q)%nat
       /\ 10 <= 10 + Z.of_nat slot <= 15
       /\ val = 10 + Z.of_nat slot
                + (if fills_forward (PyStr "-") true then 0 else 1))
  /\ (10 <= 15 -> has_key [(0, 15); (1, 14); (2, 13); (3, 11)] 0).
Proof.
  apply (graph_to_gene_labels 10 15 (PyStr "-") [12] [14] 2 1 true).
  vm_compute. reflexivity.
Defined.

(** ** Truncation *)

Lemma int_nonneg (x : Q) : (0 <= x)%Q -> int x = Qfloor x.
Proof.
  destruct x as [a b]. unfold Qle, int, Qfloor. cbn. intros H.
  apply Z.quot_div_nonneg; lia.
Qed.

Lemma int_small_negative (x : Q) : (- (1) < x)%Q -> (x <= 0)%Q -> int x = 0.
Proof.
  destruct x as [a b]. unfold Qlt, Qle, int. cbn. intros H1 H2.
  apply Z.quot_small_iff; lia.
Qed.

(** ** The ticks of linspace *)

Lemma In_range (num i : Z) : In i (range num) -> 0 <= i < num.
Proof.
  unfold range. intros H. apply in_map_iff in H as (k & <- & Hk).
  apply in_seq in Hk. lia.
Qed.

(** ** The labels of the x ticks *)

Lemma int_opp (x : Q) : int (- x) = - int x.
Proof.
  destruct x as [a b]. unfold int. cbn. apply Z.quot_opp_l. lia.
Qed.

Lemma int_Qeq (x y : Q) : (x == y)%Q -> int x = int y.
Proof.
  intros H. destruct (Qlt_le_dec x 0) as [Hneg|Hnn].
  - assert (Hopp : forall q : Q, int q = - int (- q)).
    { intros q. rewrite int_opp. lia. }
    rewrite (Hopp x), (Hopp y). f_equal.
    rewrite !int_nonneg by lra. apply Qfloor_comp. lra.
  - rewrite !int_nonneg by lra. apply Qfloor_comp. exact H.
Qed.

Lemma dict_getitem_missing {V} (d : list (Z * V)) (key : Z) :
  (forall k v, In (k, v) d -> k <> key) ->
  dict_getitem d key = Raise KeyError.
Proof.
  induction d as [|[k v] d IH]; intros H; cbn; [reflexivity|].
  destruct (Z.eqb_spec k key) as [->|Hne].
  - exfalso. apply (H key v); [left|]; reflexivity.
  - apply IH. intros k' v' Hin. apply (H k' v'). right. exact Hin.
Qed.

Lemma for_samples_raises {A B} (f : A -> result B) (l1 l2 : list A) (a : A)
    (e : exn) :
  (forall x, In x l1 -> exists b, f x = Ok b) -> f a = Raise e ->
  for_samples f (l1 ++ a :: l2) = Raise e.
Proof.
  intros Hok Ha. induction l1 as [|x l1 IH]; cbn [app for_samples].
  - rewrite Ha. reflexivity.
  - destruct (Hok x) as [b Hb]; [left; reflexivity|].
    rewrite Hb, bind_Ok, IH; [reflexivity|].
    intros y Hy. apply Hok. right. exact Hy.
Qed.

(** X8.  A region of one position cannot carry two x ticks or more: its
    only coordinate is [0], so the ticks run from [0] to [-1], and the
    last one truncates to [-1], which is no key of [graph_to_gene]. *)
Theorem x_tick_labels_single_position (tx_start : Z) (strand : pyval)
    (exon_starts exon_ends : list Z) (intron_scale exon_scale : Q)
    (reverse_minus : bool) (gc : list Q) (g2g : list (Z * Z))
    (nx_ticks : Z) :
  2 <= nx_ticks ->
  get_scaling tx_start tx_start strand exon_starts exon_ends
    intron_scale exon_scale reverse_minus = Ok (gc, g2g) ->
  gc = [0%Q] /\ x_tick_labels g2g gc nx_ticks = Raise KeyError.
Proof.
  intros Hnx Hrun.
  destruct (get_scaling_inv _ _ _ _ _ _ _ _ _ _ Hrun)
    as (ec & _ & _ & _ & Hlen_ec & Hlen & Hwalk & Hent & Hkeys).
  replace (tx_start - tx_start + 1) with 1 in * by lia.
  assert (Hgc : gc = [0%Q]).
  { set (f := fills_forward strand reverse_minus) in *.
    assert (Hw : walk_order f gc = [0%Q]).
    { rewrite Hwalk.
      destruct (walk_order f ec) as [|c [|c' cells]] eqn:Hc.
      - apply (f_equal length) in Hc. rewrite length_walk_order in Hc.
        cbn in Hc. lia.
      - reflexivity.
      - apply (f_equal length) in Hc. rewrite length_walk_order in Hc.
        cbn in Hc. lia. }
    destruct f; cbn [walk_order] in Hw; [exact Hw|].
    rewrite <- (reverse_involutive gc), Hw. reflexivity. }
  split; [exact Hgc|]. subst gc.
  unfold x_tick_labels. cbn [py_max fold_left]. rewrite bind_Ok.
  unfold linspace.
  destruct (Z.ltb_spec nx_ticks 0) as [?|_]; [lia|].
  destruct (Z.eqb_spec nx_ticks 1) as [?|_]; [lia|].
  rewrite bind_Ok.
  assert (Hrange : range nx_ticks = range (nx_ticks - 1) ++ [nx_ticks - 1]).
  { unfold range. replace (Z.to_nat nx_ticks)
      with (S (Z.to_nat (nx_ticks - 1))) by lia.
    rewrite seq_S, map_app. cbn [map Nat.add]. do 2 f_equal. lia. }
  rewrite Hrange, map_app. cbn [map].
  assert (HD : (1 <= inject_Z (nx_ticks - 1))%Q).
  { change 1%Q with (inject_Z 1). rewrite <- Zle_Qle. lia. }
  rewrite for_samples_raises with (e := KeyError); [reflexivity | |].
  - intros t Ht. apply in_map_iff in Ht as (i & <- & Hi).
    apply In_range in Hi.
    assert (HI0 : (0 <= inject_Z i)%Q).
    { change 0%Q with (inject_Z 0). rewrite <- Zle_Qle. lia. }
    assert (HI1 : (inject_Z i + 1 <= inject_Z (nx_ticks - 1))%Q).
    { change 1%Q with (inject_Z 1). rewrite <- inject_Z_plus, <- Zle_Qle.
      lia. }
    set (D := inject_Z (nx_ticks - 1)) in *. set (I := inject_Z i) in *.
    assert (Heq : ((0 + I * ((0 - 1 - 0) / D)) * D == - I)%Q).
    { field. lra. }
    rewrite int_small_negative.
    + apply (Hkeys 0%Q). left. reflexivity.
    + apply Qmult_lt_r with D; [lra|]. rewrite Heq. nra.
    + apply Qmult_le_r with D; [lra|]. rewrite Heq. nra.
  - apply dict_getitem_missing. intros k v Hin.
    destruct (Hent k v Hin) as (i & x & Hi & -> & _).
    assert (Hx : x = 0%Q).
    { apply list_elem_of_lookup_2, list_elem_of_In, In_walk_order in Hi.
      destruct Hi as [<-|[]]. reflexivity. }
    subst x.
    rewrite (int_Qeq (0 + inject_Z (nx_ticks - 1)
                          * ((0 - 1 - 0) / inject_Z (nx_ticks - 1)))%Q
               (- (1))%Q); [vm_compute; lia|].
    field. lra.
Qed.

(** X8, witness: the region 7..7 with three ticks. *)
Lemma x_tick_labels_single_position_witness :
  [0%Q] = [0%Q] /\ x_tick_labels [(0, 7)] [0%Q] 3 = Raise KeyError.
Proof.
  apply (x_tick_labels_single_position 7 (PyStr "+") [] [] 1 1 false).
  - lia.
  - vm_compute. reflexivity.
Defined.

(** ** Bezier points *)

(** X9.  [cubic_bezier] returns a point exactly when it is handed four
    control points (unpacking any other number raises ValueError).  Each
    coordinate of the point is the cubic Bernstein combination of that
    coordinate of the control points, and the curve starts at the first
    control point and ends at the last. *)
Theorem cubic_bezier_curve (pts : list point) (t : Q) :
  (length pts <> 4%nat -> cubic_bezier pts t = Raise ValueError)
  /\ (forall p0 p1 p2 p3, pts = [p0; p1; p2; p3] ->
      exists b b0 b1,
        cubic_bezier pts t = Ok b
        /\ (forall coord : point -> Q, coord = fst \/ coord = snd ->
            (coord b ==
             (1 - t) ^ 3 * coord p0 + 3 * t * (1 - t) ^ 2 * coord p1
             + 3 * t ^ 2 * (1 - t) * coord p2 + t ^ 3 * coord p3)%Q)
        /\ cubic_bezier pts 0 = Ok b0 /\ point_eq b0 p0
        /\ cubic_bezier pts 1 = Ok b1 /\ point_eq b1 p3).
Proof.
  split.
  - intros Hlen. destruct pts as [|p0 [|p1 [|p2 [|p3 [|p4 rest]]]]];
      try reflexivity. cbn in Hlen. lia.
  - intros p0 p1 p2 p3 ->. cbn [cubic_bezier].
    eexists _, _, _. split; [reflexivity|]. split.
    { intros coord [-> | ->]; unfold padd, scale; cbn [fst snd]; ring. }
    split; [reflexivity|]. split.
    { unfold point_eq, padd, scale. cbn [fst snd]. split; ring. }
    split; [reflexivity|].
    unfold point_eq, padd, scale. cbn [fst snd]. split; ring.
Qed.

(** ** The anchor of a junction label *)

Lemma getitem_In {A} (l : list A) (i : Z) (a : A) :
  getitem l i = Ok a -> In a l.
Proof.
  unfold getitem. destruct (in_range _ _); [|discriminate].
  destruct (l !! _) as [b|] eqn:Hb; [|discriminate].
  intros H. injection H as <-.
  apply list_elem_of_In. eapply list_elem_of_lookup_2. exact Hb.
Qed.

Lemma for_each_append_inv {I B} (body : I -> list B -> result (list B))
    (P : B -> Prop) (l : list I) :
  (forall i acc res, body i acc = Ok res ->
     exists b, res = acc ++ [b] /\ P b) ->
  forall acc res,
    for_each body l acc = Ok res ->
    exists bs, res = acc ++ bs /\ Forall P bs /\ length bs = length l.
Proof.
  intros Hbody. induction l as [|i l IH]; intros acc res H.
  - injection H as <-. exists []. rewrite app_nil_r. auto.
  - cbn [for_each] in H.
    destruct (body i acc) as [acc1|e] eqn:H1;
      [|rewrite bind_Raise in H; discriminate H].
    rewrite bind_Ok in H.
    destruct (Hbody _ _ _ H1) as (b & -> & Hb).
    destruct (IH _ _ H) as (bs & -> & Hbs & Hlen).
    exists (b :: bs). rewrite <- app_assoc. cbn [app length].
    split; [reflexivity|]. split; [constructor; assumption | lia].
Qed.

Lemma bezier_midpoint (ss1 ss2 y0 y1 y2 y3 : Q) (m : point) :
  cubic_bezier [(ss1, y0); (ss1, y1); (ss2, y2); (ss2, y3)] (1 # 2) = Ok m ->
  (fst m == (ss1 + ss2) / 2)%Q
  /\ (snd m == (y0 + 3 * y1 + 3 * y2 + y3) / 8)%Q.
Proof.
  cbn [cubic_bezier]. intros H. injection H as <-.
  unfold padd, scale. cbn [fst snd]. split; field.
Qed.

Ltac bind_inv H :=
  match type of H with
  | (Ok _ ≫= _) = Ok _ => rewrite bind_Ok in H
  | (?m ≫= _) = Ok _ =>
      let e := fresh "e" in
      destruct m as [?|e] eqn:?;
      [rewrite bind_Ok in H | rewrite bind_Raise in H; discriminate H]
  end.

Ltac centred_arc H ss1 ss2 :=
  match type of H with
  | (cubic_bezier [(_, ?y0); (_, ?y1); (_, ?y2); (_, ?y3)] _ ≫= _) = Ok _ =>
      let Hm := fresh "Hm" in
      destruct (cubic_bezier [(ss1, y0); (ss1, y1); (ss2, y2); (ss2, y3)]
                  (1 # 2)) as [?m|?e] eqn:Hm;
      [rewrite bind_Ok in H | rewrite bind_Raise in H; discriminate H];
      repeat bind_inv H;
      injection H as <-;
      eexists; split; [reflexivity|];
      exists ss1, ss2, y0, y1, y2, y3; cbn [pts midpt];
      split; [reflexivity|]; split; [assumption|]; split; [assumption|];
      exact (bezier_midpoint _ _ _ _ _ _ _ Hm)
  end.

Lemma utils_junction_body_inv (read_depth_object : ReadDepth)
    (graph_coords : list Q) (y_max_arg : option Q)
    (number_junctions_arg no_bam : bool)
    (min_junction_count junction_count_gap : Q)
    (item : Z * Junction) (patches res : list arc) :
  Utils.junction_body read_depth_object graph_coords y_max_arg
    number_junctions_arg no_bam min_junction_count junction_count_gap
    item patches = Ok res ->
  exists a, res = patches ++ [a] /\ label_centred graph_coords a.
Proof.
  unfold Utils.junction_body. destruct item as [plotted_count jxn].
  destruct (Utils.junction_indices _ _ _) as [[i1 m1] [i2 m2]].
  intros H.
  destruct (getitem graph_coords i1) as [ss1|e] eqn:H1;
    [|rewrite bind_Raise in H; discriminate H].
  rewrite bind_Ok in H.
  destruct (getitem graph_coords i2) as [ss2|e] eqn:H2;
    [|rewrite bind_Raise in H; discriminate H].
  rewrite bind_Ok in H.
  apply getitem_In in H1, H2.
  destruct (plotted_count mod 2 =? 0); cbv iota in H.
  - rewrite bind_Ok in H. centred_arc H ss1 ss2.
  - destruct (getitem (wiggle read_depth_object) i1) as [left_dens|e];
      [|rewrite !bind_Raise in H; discriminate H].
    rewrite bind_Ok in H.
    destruct (getitem (wiggle read_depth_object) i2) as [right_dens|e];
      [|rewrite !bind_Raise in H; discriminate H].
    rewrite !bind_Ok in H. centred_arc H ss1 ss2.
Qed.

Lemma new_src_junction_body_inv (read_depth_object : ReadDepth)
    (graphcoords : list Q) (number_junctions_arg : bool) (ymin : Q)
    (item : Z * Junction) (patches res : list arc) :
  NewSrc.junction_body read_depth_object graphcoords number_junctions_arg
    ymin item patches = Ok res ->
  exists a, res = patches ++ [a] /\ label_centred graphcoords a.
Proof.
  unfold NewSrc.junction_body. destruct item as [plotted_count jxn].
  intros H. cbv zeta in H.
  set (i1 := NewSrc.__get_limited_index__
               (jxn_start jxn - NewSrc.tx_start read_depth_object - 1)
               (Z.of_nat (length graphcoords))) in H.
  set (i2 := NewSrc.__get_limited_index__
               (jxn_end jxn - NewSrc.tx_start read_depth_object)
               (Z.of_nat (length graphcoords))) in H.
  destruct (getitem graphcoords i1) as [ss1|e] eqn:H1;
    [|rewrite bind_Raise in H; discriminate H].
  rewrite bind_Ok in H.
  destruct (getitem graphcoords i2) as [ss2|e] eqn:H2;
    [|rewrite bind_Raise in H; discriminate H].
  rewrite bind_Ok in H.
  apply getitem_In in H1, H2.
  destruct (plotted_count mod 2 =? 1); cbv iota in H.
  - rewrite bind_Ok in H. centred_arc H ss1 ss2.
  - set (j1 := NewSrc.__get_limited_index__
                 (jxn_start jxn - NewSrc.tx_start read_depth_object - 1)
                 (Z.of_nat (length (wiggle read_depth_object)))) in H.
    set (j2 := NewSrc.__get_limited_index__
                 (jxn_end jxn - NewSrc.tx_start read_depth_object)
                 (Z.of_nat (length (wiggle read_depth_object)))) in H.
    destruct (getitem (wiggle read_depth_object) j1) as [leftdens|e];
      [|rewrite !bind_Raise in H; discriminate H].
    rewrite bind_Ok in H.
    destruct (getitem (wiggle read_depth_object) j2) as [rightdens|e];
      [|rewrite !bind_Raise in H; discriminate H].
    rewrite !bind_Ok in H. centred_arc H ss1 ss2.
Qed.

Lemma utils_plot_density_single_inv (read_depth_object : ReadDepth)
    (graph_coords : list Q) (graph_to_gene : list (Z * Z))
    (y_max_arg : option Q) (number_junctions_arg show_x_axis : bool)
    (nx_ticks : Z) (no_bam : bool) (p : panel) :
  Utils.plot_density_single read_depth_object graph_coords graph_to_gene
    y_max_arg number_junctions_arg show_x_axis nx_ticks no_bam = Ok p ->
  Forall (label_centred graph_coords) (arcs p)
  /\ length (arcs p) = length (junctions_dict read_depth_object)
  /\ xticks p
     = (if show_x_axis
        then match x_tick_labels graph_to_gene graph_coords nx_ticks with
             | Ok t => Some t
             | Raise _ => None
             end
        else None)
  /\ (show_x_axis = true ->
      exists t, x_tick_labels graph_to_gene graph_coords nx_ticks = Ok t)
  /\ py_max graph_coords = Ok (xlim_upper p).
Proof.
  unfold Utils.plot_density_single. intros H.
  destruct (for_each (Utils.copy_body _ _) _ _) as [[cx cw]|e];
    [|rewrite bind_Raise in H; discriminate H].
  rewrite bind_Ok in H.
  destruct (if no_bam then py_max cw else Ok 0%Q) as [?|e];
    [|rewrite bind_Raise in H; discriminate H].
  rewrite bind_Ok in H.
  destruct (Utils.junction_count_bounds _) as [[mx mn]|e];
    [|rewrite bind_Raise in H; discriminate H].
  rewrite bind_Ok in H.
  destruct (for_each (Utils.junction_body _ _ _ _ _ _ _) _ _)
    as [patches|e] eqn:Hloop; [|rewrite bind_Raise in H; discriminate H].
  rewrite bind_Ok in H.
  destruct (for_each_append_inv _ (label_centred graph_coords) _
              (fun i acc res =>
                 utils_junction_body_inv read_depth_object graph_coords
                   y_max_arg number_junctions_arg no_bam mn (mx - mn)%Q
                   i acc res) _ _ Hloop)
    as (bs & -> & Hbs & Hlen).
  cbn [app] in H.
  rewrite length_enumerate in Hlen.
  assert (Hlen' : length bs = length (junctions_dict read_depth_object)).
  { rewrite Hlen. unfold Utils.jxns_sorted_list, Utils.jxns, keys.
    rewrite (Permutation_length
               (sorted_key_reverse_Permutation _ _)).
    apply length_map. }
  destruct show_x_axis.
  - destruct (x_tick_labels graph_to_gene graph_coords nx_ticks) as [t|e];
      [|rewrite !bind_Raise in H; discriminate H].
    rewrite !bind_Ok in H.
    destruct (py_max graph_coords) as [xlim|e];
      [|rewrite bind_Raise in H; discriminate H].
    rewrite bind_Ok in H. injection H as <-. cbn.
    split; [exact Hbs|]. split; [exact Hlen'|].
    split; [reflexivity|]. split; [eauto | reflexivity].
  - rewrite bind_Ok in H.
    destruct (py_max graph_coords) as [xlim|e];
      [|rewrite bind_Raise in H; discriminate H].
    rewrite bind_Ok in H. injection H as <-. cbn.
    split; [exact Hbs|]. split; [exact Hlen'|].
    split; [reflexivity|]. split; [discriminate | reflexivity].
Qed.

Lemma new_src_plot_density_single_inv
    (junction_lt : Junction -> Junction -> bool)
    (read_depth_object : ReadDepth) (graphcoords : list Q)
    (graphToGene : list (Z * Z)) (ymax_arg : option Q)
    (number_junctions_arg : bool) (resolution_arg : Q) (showXaxis : bool)
    (nxticks_arg : Z) (p : panel) :
  NewSrc.plot_density_single junction_lt read_depth_object graphcoords
    graphToGene ymax_arg number_junctions_arg resolution_arg showXaxis
    nxticks_arg = Ok p ->
  Forall (label_centred graphcoords) (arcs p)
  /\ length (arcs p) = length (junctions_dict read_depth_object)
  /\ xticks p
     = (if showXaxis
        then match x_tick_labels graphToGene graphcoords nxticks_arg with
             | Ok t => Some t
             | Raise _ => None
             end
        else None)
  /\ (showXaxis = true ->
      exists t, x_tick_labels graphToGene graphcoords nxticks_arg = Ok t)
  /\ py_max graphcoords = Ok (xlim_upper p)
  /\ NewSrc.compress (wiggle read_depth_object) graphcoords resolution_arg
     = Ok (compressed_x p, compressed_wiggle p).
Proof.
  unfold NewSrc.plot_density_single. intros H.
  destruct (py_max (wiggle read_depth_object)) as [maxheight|e];
    [|rewrite bind_Raise in H; discriminate H].
  rewrite bind_Ok in H. cbv zeta in H.
  destruct (NewSrc.compress _ _ _) as [[cx cw]|e];
    [|rewrite bind_Raise in H; discriminate H].
  rewrite bind_Ok in H.
  destruct (for_each (NewSrc.junction_body _ _ _ _) _ _)
    as [patches|e] eqn:Hloop; [|rewrite bind_Raise in H; discriminate H].
  rewrite bind_Ok in H.
  destruct (for_each_append_inv _ (label_centred graphcoords) _
              (fun i acc res =>
                 new_src_junction_body_inv read_depth_object graphcoords
                   number_junctions_arg _ i acc res) _ _ Hloop)
    as (bs & -> & Hbs & Hlen).
  cbn [app] in H.
  rewrite length_enumerate in Hlen.
  assert (Hlen' : length bs = length (junctions_dict read_depth_object)).
  { rewrite Hlen. unfold NewSrc.jxns_sorted_list, NewSrc.jxns, keys.
    rewrite (Permutation_length (stable_sort_Permutation _ _)).
    apply length_map. }
  destruct showXaxis.
  - destruct (x_tick_labels graphToGene graphcoords nxticks_arg) as [t|e];
      [|rewrite !bind_Raise in H; discriminate H].
    rewrite !bind_Ok in H.
    destruct (py_max graphcoords) as [xlim|e];
      [|rewrite bind_Raise in H; discriminate H].
    rewrite bind_Ok in H. injection H as <-. cbn.
    split; [exact Hbs|]. split; [exact Hlen'|].
    split; [reflexivity|]. split; [eauto|]. split; reflexivity.
  - rewrite bind_Ok in H.
    destruct (py_max graphcoords) as [xlim|e];
      [|rewrite bind_Raise in H; discriminate H].
    rewrite bind_Ok in H. injection H as <-. cbn.
    split; [exact Hbs|]. split; [exact Hlen'|].
    split; [reflexivity|]. split; [discriminate|]. split; reflexivity.
Qed.

(** X10.  In both files the label of every junction is anchored at the
    middle of its arc: the arc has four control points, two over each of
    two coordinates of the array (which the clamped indices select), and
    [cubic_bezier] at [1/2] puts the anchor midway between these
    coordinates, at the height [(y0 + 3 y1 + 3 y2 + y3) / 8]. *)
Theorem junction_labels_centred (junction_lt : Junction -> Junction -> bool)
    (read_depth_object : ReadDepth) (graph_coords : list Q)
    (graph_to_gene : list (Z * Z)) (y_max_arg : option Q)
    (number_junctions_arg show_x_axis : bool) (nx_ticks : Z)
    (no_bam : bool) (resolution_arg : Q) :
  (forall p,
     Utils.plot_density_single read_depth_object graph_coords graph_to_gene
       y_max_arg number_junctions_arg show_x_axis nx_ticks no_bam = Ok p ->
     Forall (label_centred graph_coords) (arcs p))
  /\ (forall p,
        NewSrc.plot_density_single junction_lt read_depth_object
          graph_coords graph_to_gene y_max_arg number_junctions_arg
          resolution_arg show_x_axis nx_ticks = Ok p ->
        Forall (label_centred graph_coords) (arcs p)).
Proof.
  split; intros p Hp.
  - apply (utils_plot_density_single_inv _ _ _ _ _ _ _ _ _ Hp).
  - apply (new_src_plot_density_single_inv _ _ _ _ _ _ _ _ _ _ Hp).
Qed.

(** X10, witness: the example sample drawn by both files. *)
Lemma junction_labels_centred_witness :
  (exists p,
     Utils.plot_density_single example_read_depth example_graph_coords
       example_graph_to_gene (Some 8%Q) true true 4 false = Ok p
     /\ Forall (label_centred example_graph_coords) (arcs p))
  /\ (exists p,
        NewSrc.plot_density_single (fun a b => span a <? span b)
          example_read_depth example_graph_coords example_graph_to_gene
          (Some 8%Q) true (1 # 2) true 4 = Ok p
        /\ Forall (label_centred example_graph_coords) (arcs p)).
Proof.
  pose proof (junction_labels_centred (fun a b => span a <? span b)
                example_read_depth example_graph_coords
                example_graph_to_gene (Some 8%Q) true true 4 false (1 # 2))
    as [Hu Hn].
  split.
  - eexists. split; [vm_compute; reflexivity|].
    apply Hu. vm_compute. reflexivity.
  - eexists. split; [vm_compute; reflexivity|].
    apply Hn. vm_compute. reflexivity.
Defined.

(** ** The upper bound of the y axis *)

(** X11.  The bound [new_src] shares among the panels is an even integer,
    at least every panel's upper limit, and less than the greatest of
    them plus two; without panels there is none and [max] raises
    ValueError. *)
Theorem max_used_yval_is_even_bound (used_yvals : list Q) :
  (used_yvals = [] ->
   NewSrc.max_used_yval_of used_yvals = Raise ValueError)
  /\ (used_yvals <> [] ->
      exists bound,
        NewSrc.max_used_yval_of used_yvals = Ok bound
        /\ Z.even bound = true
        /\ Forall (fun y => y <= inject_Z bound)%Q used_yvals
        /\ Exists (fun y => inject_Z bound < y + 2)%Q used_yvals).
Proof.
  split.
  - intros ->. reflexivity.
  - intros Hne. destruct (py_max_spec used_yvals Hne) as (m & Hm & Hall & Hin).
    unfold NewSrc.max_used_yval_of. rewrite Hm, bind_Ok.
    eexists. split; [reflexivity|].
    set (c := Qceiling m).
    assert (Hb : let b := if c mod 2 =? 1 then c + 1 else c in
                 Z.even b = true /\ c <= b < c + 2).
    { cbv zeta. pose proof (Zmod_even c) as Hc.
      destruct (Z.eqb_spec (c mod 2) 1) as [H1|H1].
      - split; [|lia]. rewrite Z.even_add.
        destruct (Z.even c); [lia | reflexivity].
      - split; [|lia]. destruct (Z.even c); [reflexivity | lia]. }
    cbv zeta in Hb. destruct Hb as (Heven & Hlo & Hhi).
    split; [exact Heven|]. split.
    + eapply Forall_impl; [exact Hall|]. cbn. intros y Hy.
      apply Qle_trans with m; [exact Hy|].
      apply Qle_trans with (inject_Z c); [apply Qle_ceiling|].
      rewrite <- Zle_Qle. exact Hlo.
    + apply List.Exists_exists. exists m. split; [exact Hin|].
      pose proof (Qceiling_lt m) as Hlt. fold c in Hlt.
      apply Qle_lt_trans with (inject_Z (c + 1)).
      * rewrite <- Zle_Qle. lia.
      * replace (c + 1) with ((c - 1) + 2) by lia.
        rewrite inject_Z_plus. change (inject_Z 2) with 2%Q. lra.
Qed.

Lemma is_odd_integer (z : Z) : Utils.is_odd (inject_Z z) = Z.odd z.
Proof.
  unfold Utils.is_odd.
  change 2%Q with (inject_Z 2) at 2.
  rewrite <- Zdiv_Qdiv.
  assert (H : (inject_Z z - 2 * inject_Z (z / 2) == inject_Z (z mod 2))%Q).
  { rewrite (Z.mod_eq z 2) by lia. unfold Z.sub.
    rewrite inject_Z_plus, inject_Z_opp, inject_Z_mult.
    change (inject_Z 2) with 2%Q. ring. }
  pose proof (Zmod_odd z) as Hodd.
  destruct (Qeq_bool _ 1) eqn:Hb.
  - apply Qeq_bool_iff in Hb. rewrite H in Hb.
    change 1%Q with (inject_Z 1) in Hb. apply eq_sym.
    destruct (Z.odd z); [reflexivity|]. rewrite Hodd in Hb.
    exfalso. revert Hb. unfold Qeq. cbn. lia.
  - apply Qeq_bool_neq in Hb. rewrite H in Hb.
    destruct (Z.odd z); [|reflexivity]. rewrite Hodd in Hb.
    exfalso. apply Hb. reflexivity.
Qed.

Lemma is_odd_Qeq (x y : Q) : (x == y)%Q -> Utils.is_odd x = Utils.is_odd y.
Proof.
  intros H. unfold Utils.is_odd.
  assert (Hf : Qfloor (x / 2) = Qfloor (y / 2)).
  { apply Qfloor_comp. apply Qdiv_comp; [exact H | reflexivity]. }
  rewrite Hf.
  destruct (Qeq_bool (y - _) 1) eqn:Hy.
  - apply Qeq_bool_iff. apply Qeq_bool_iff in Hy. lra.
  - destruct (Qeq_bool (x - _) 1) eqn:Hx; [|reflexivity].
    apply Qeq_bool_iff in Hx. apply Qeq_bool_neq in Hy.
    exfalso. apply Hy. lra.
Qed.

Lemma is_odd_is_integer (x : Q) :
  Utils.is_odd x = true -> exists z, (x == inject_Z z)%Q.
Proof.
  unfold Utils.is_odd. intros H. apply Qeq_bool_iff in H.
  exists (1 + 2 * Qfloor (x / 2)).
  rewrite inject_Z_plus, inject_Z_mult.
  change (inject_Z 1) with 1%Q. change (inject_Z 2) with 2%Q. lra.
Qed.

(** X12.  [utils] raises the upper end of a panel's y axis by one exactly
    when the sample's maximum is an odd integer ([x % 2 == 1]): for an
    integer maximum the end is the next even integer, and a maximum that
    is no integer is kept as it is, never rounded up. *)
Theorem utils_spine_upper_parity (settings : Settings)
    (splice_region : SpliceRegion) (graph_coords : list Q)
    (graph_to_gene : list (Z * Z)) (no_bam : bool)
    (n_samples i : Z) (d : ReadDepth) (p : panel) (y : yaxis) :
  Utils.plot_sample settings splice_region graph_coords graph_to_gene no_bam
    n_samples (i, d) = Ok (p, y) ->
  (forall z, (rd_max d == inject_Z z)%Q ->
     let bound := if Z.odd z then z + 1 else z in
     (spine_upper y == inject_Z bound)%Q /\ Z.even bound = true)
  /\ ((forall z, ~ (rd_max d == inject_Z z)%Q) ->
      spine_upper y = rd_max d).
Proof.
  intros H.
  destruct (utils_plot_sample_inv _ _ _ _ _ _ _ _ _ _ H) as [-> _].
  split.
  - intros z Hz. cbv zeta.
    rewrite (is_odd_Qeq _ _ Hz), is_odd_integer.
    rewrite <- (Z.negb_even z).
    destruct (Z.even z) eqn:Hev; cbn [negb].
    + split; [exact Hz | exact Hev].
    + split; [|rewrite Z.even_add, Hev; reflexivity].
      rewrite inject_Z_plus. change (inject_Z 1) with 1%Q. lra.
  - intros Hnot. destruct (Utils.is_odd (rd_max d)) eqn:Hodd; [|reflexivity].
    destruct (is_odd_is_integer _ Hodd) as [z Hz].
    destruct (Hnot z Hz).
Qed.

(** X12, witness: the sample with the odd maximum 7 on the example window. *)
Lemma utils_spine_upper_parity_witness :
  let d := {| rd_start := 10; wiggle := replicate 11 7%Q;
              junctions_dict := []; rd_max := 7 |} in
  exists p y,
    Utils.plot_sample example_settings example_splice_region
      example_graph_coords example_graph_to_gene false 1 (0, d) = Ok (p, y)
    /\ (forall z, (rd_max d == inject_Z z)%Q ->
          let bound := if Z.odd z then z + 1 else z in
          (spine_upper y == inject_Z bound)%Q /\ Z.even bound = true)
    /\ ((forall z, ~ (rd_max d == inject_Z z)%Q) ->
        spine_upper y = rd_max d).
Proof.
  cbv zeta. eexists _, _. split; [vm_compute; reflexivity|].
  eapply (utils_spine_upper_parity example_settings example_splice_region
            example_graph_coords example_graph_to_gene false 1 0
           {| rd_start := 10; wiggle := replicate 11 7%Q;
              junctions_dict := []; rd_max := 7 |}).
  vm_compute. reflexivity.
Defined.

(** ** The x ticks of a render *)

(** X13.  In both files only the last panel of a render carries x ticks
    and their labels; every other panel is drawn without, and the render
    has one panel per sample. *)
Theorem x_ticks_on_last_panel_only
    (junction_lt : Junction -> Junction -> bool)
    (get_ylim_upper : panel -> Q)
    (exon_eqb exon_ltb : Exon -> Exon -> bool) (settings : Settings)
    (read_depths_dict : list ReadDepth) (splice_region : SpliceRegion)
    (show_gene no_bam : bool) :
  (forall graph_coords graph_to_gene samples gene_structure,
     Utils.plot_density settings read_depths_dict splice_region show_gene
       no_bam
     = UtilsTranscripts.Returns
         (Ok (graph_coords, graph_to_gene, samples, gene_structure)) ->
     length samples = length read_depths_dict
     /\ ticks_on_last_panel_only graph_to_gene graph_coords
          (nxticks settings) (map fst samples))
  /\ (forall graphcoords graphToGene samples gene_structure,
        NewSrc.plot_density junction_lt get_ylim_upper exon_eqb exon_ltb
          settings read_depths_dict splice_region show_gene
        = Ok (graphcoords, graphToGene, samples, gene_structure) ->
        length samples = length read_depths_dict
        /\ ticks_on_last_panel_only graphToGene graphcoords
             (nxticks settings) (map fst samples)).
Proof.
  split.
  - intros gc g2g samples gs H.
    destruct (utils_plot_density_inv _ _ _ _ _ _ _ _ _ H)
      as (_ & _ & Hloop & _).
    assert (Hlen : length samples = length read_depths_dict).
    { rewrite <- (Forall2_length _ _ _ Hloop). apply length_enumerate. }
    split; [exact Hlen|].
    intros i p Hp. rewrite length_map, Hlen.
    rewrite list_lookup_fmap in Hp.
    destruct (samples !! i) as [[p' y]|] eqn:Hs; [|discriminate Hp].
    injection Hp as ->.
    destruct (Forall2_enumerate_lookup _ _ _ _ _ Hloop Hs) as (d & Hd & Hrun).
    destruct (utils_plot_sample_inv _ _ _ _ _ _ _ _ _ _ Hrun)
      as (_ & _ & Hpds & _).
    destruct (utils_plot_density_single_inv _ _ _ _ _ _ _ _ _ Hpds)
      as (_ & _ & Hticks & Hread & _).
    destruct (decide (S i = length read_depths_dict)) as [Hlast|Hnot].
    + destruct (Z.eqb_spec (Z.of_nat i) (Z.of_nat (length read_depths_dict) - 1))
        as [_|?]; [|lia].
      destruct (Hread eq_refl) as [t Ht]. exists t. split; [exact Ht|].
      rewrite Hticks, Ht. reflexivity.
    + destruct (Z.eqb_spec (Z.of_nat i) (Z.of_nat (length read_depths_dict) - 1))
        as [?|_]; [lia|]. exact Hticks.
  - intros gc g2g samples gs H.
    destruct (new_src_plot_density_inv _ _ _ _ _ _ _ _ _ _ _ _ H)
      as (_ & _ & _ & Hloop & _).
    assert (Hlen : length (map fst samples) = length read_depths_dict).
    { rewrite <- (Forall2_length _ _ _ Hloop). apply length_enumerate. }
    split; [rewrite length_map in Hlen; exact Hlen|].
    intros i p Hp. rewrite Hlen.
    destruct (Forall2_enumerate_lookup _ _ _ _ _ Hloop Hp)
      as (d & Hd & _ & _ & Hrun).
    cbn [fst snd] in Hrun.
    destruct (new_src_plot_density_single_inv _ _ _ _ _ _ _ _ _ _ Hrun)
      as (_ & _ & Hticks & Hread & _).
    apply lookup_lt_Some in Hd.
    destruct (decide (S i = length read_depths_dict)) as [Hlast|Hnot].
    + destruct (Z.ltb_spec (Z.of_nat i) (Z.of_nat (length read_depths_dict) - 1))
        as [?|_]; [lia|]. cbn [negb] in *.
      destruct (Hread eq_refl) as [t Ht]. exists t. split; [exact Ht|].
      rewrite Hticks, Ht. reflexivity.
    + destruct (Z.ltb_spec (Z.of_nat i) (Z.of_nat (length read_depths_dict) - 1))
        as [_|?]; [|lia]. exact Hticks.
Qed.

(** X13, witness: the example region drawn with two samples. *)
Lemma x_ticks_on_last_panel_only_witness :
  (exists graph_coords graph_to_gene samples gene_structure,
     Utils.plot_density example_settings
       [example_read_depth; example_read_depth] example_splice_region
       false false
     = UtilsTranscripts.Returns
         (Ok (graph_coords, graph_to_gene, samples, gene_structure))
     /\ length samples = 2%nat
     /\ ticks_on_last_panel_only graph_to_gene graph_coords 4
          (map fst samples))
  /\ (exists graphcoords graphToGene samples gene_structure,
        NewSrc.plot_density (fun a b => span a <? span b) (fun _ => 9%Q)
          example_exon_eqb example_exon_ltb
          example_settings [example_read_depth; example_read_depth]
          example_splice_region false
        = Ok (graphcoords, graphToGene, samples, gene_structure)
        /\ length samples = 2%nat
        /\ ticks_on_last_panel_only graphToGene graphcoords 4
             (map fst samples)).
Proof.
  pose proof (x_ticks_on_last_panel_only (fun a b => span a <? span b)
                (fun _ => 9%Q) example_exon_eqb example_exon_ltb
                example_settings
                [example_read_depth; example_read_depth]
                example_splice_region false false) as [Hu Hn].
  split.
  - eexists _, _, _, _. split; [vm_compute; reflexivity|].
    eapply Hu. vm_compute. reflexivity.
  - eexists _, _, _, _. split; [vm_compute; reflexivity|].
    eapply Hn. vm_compute. reflexivity.
Defined.

(** ** The compressed depths of new_src *)

Section CompressInvariant.

Variables (wiggle graphcoords : list Q) (resolution : Q).

Local Abbreviation compress_invariant :=
  (compress_loop_invariant_of graphcoords).

Lemma compress_body_invariant (i : Z) (st st' : NewSrc.compress_state) :
  NewSrc.compress_body wiggle graphcoords resolution i st = Ok st' ->
  compress_invariant st ->
  compress_invariant st'
  /\ (length (fst (fst (fst st'))) <= S (length (fst (fst (fst st)))))%nat.
Proof.
  destruct st as [[[cx cw] prevx] tmpval].
  unfold NewSrc.compress_body. intros H (Hlen & Hcx & Hprev).
  destruct (getitem wiggle i) as [w|e] eqn:Hw;
    [|rewrite bind_Raise in H; discriminate H].
  rewrite bind_Ok in H.
  destruct (getitem graphcoords i) as [g|e] eqn:Hg;
    [|rewrite bind_Raise in H; discriminate H].
  rewrite bind_Ok in H.
  apply getitem_In in Hg.
  destruct (Qltb resolution (Qabs (g - prevx))).
  - unfold pydiv in H. destruct (Qeq_bool _ 0);
      [rewrite bind_Raise in H; discriminate H|].
    rewrite bind_Ok in H. injection H as <-. cbn [fst].
    split; [|rewrite length_app; cbn; lia].
    split; [rewrite !length_app; cbn; lia|].
    split; [apply Forall_app; split;
            [exact Hcx | repeat constructor; exact Hprev]|].
    exact Hg.
  - injection H as <-. cbn [fst]. split; [|lia].
    split; [exact Hlen|]. split; [exact Hcx | exact Hprev].
Qed.

Lemma compress_loop_invariant (l : list Z) :
  forall st st',
    for_each (NewSrc.compress_body wiggle graphcoords resolution) l st
    = Ok st' ->
    compress_invariant st ->
    compress_invariant st'
    /\ (length (fst (fst (fst st')))
        <= length (fst (fst (fst st))) + length l)%nat.
Proof.
  induction l as [|i l IH]; intros st st' H Hinv.
  - injection H as <-. split; [exact Hinv | lia].
  - cbn [for_each] in H.
    destruct (NewSrc.compress_body wiggle graphcoords resolution i st)
      as [st1|e] eqn:H1; [|rewrite bind_Raise in H; discriminate H].
    rewrite bind_Ok in H.
    destruct (compress_body_invariant _ _ _ H1 Hinv) as [Hinv1 Hlen1].
    destruct (IH _ _ H Hinv1) as [Hinv' Hlen'].
    split; [exact Hinv'|]. cbn [length]. lia.
Qed.

End CompressInvariant.

(** X14.  What [new_src] hands to [fill_between]: the two compressed
    sequences have the same length, at most one point per sample (fewer
    when the resolution is not negative, as the first sample never closes
    a bucket); and every x is a coordinate of the array. *)
Theorem new_src_compressed_sequences (wiggle graphcoords : list Q)
    (resolution : Q) (cx cw : list Q) :
  NewSrc.compress wiggle graphcoords resolution = Ok (cx, cw) ->
  length cx = length cw
  /\ (length cx <= length graphcoords)%nat
  /\ ((0 <= resolution)%Q -> (length cx < length graphcoords)%nat)
  /\ Forall (fun x => In x graphcoords) cx.
Proof.
  unfold NewSrc.compress, NewSrc.compress_loop. intros H.
  destruct (getitem graphcoords 0) as [g0|e] eqn:Hg0;
    [|rewrite !bind_Raise in H; discriminate H].
  rewrite bind_Ok in H.
  destruct (for_each _ _ _) as [[[[cx' cw'] prevx] tmpval]|e] eqn:Hloop;
    [|rewrite bind_Raise in H; discriminate H].
  rewrite bind_Ok in H. injection H as -> ->.
  pose proof (getitem_In _ _ _ Hg0) as Hin0.
  assert (Hinit : compress_loop_invariant_of graphcoords ([], [], g0, [])).
  { cbn. repeat split; try constructor. exact Hin0. }
  destruct (compress_loop_invariant wiggle graphcoords resolution
              _ _ _ Hloop Hinit)
    as [(Hlen & Hcx & _) Hcount].
  cbn [fst length] in Hcount.
  unfold range in Hcount. rewrite length_map, length_seq, Nat2Z.id in Hcount.
  split; [exact Hlen|]. split; [lia|]. split; [|exact Hcx].
  intros Hres.
  {
    destruct graphcoords as [|g gs] eqn:Hgc; [discriminate Hg0|].
    rewrite <- Hgc in *.
    assert (Hg : g0 = g).
    { rewrite Hgc in Hg0. cbn in Hg0. injection Hg0 as <-. reflexivity. }
    rewrite range_of_nat in Hloop. rewrite Hgc in Hloop at 2.
    cbn [length seq map for_each] in Hloop.
    destruct (NewSrc.compress_body wiggle graphcoords resolution
                (Z.of_nat 0) ([], [], g0, []))
      as [st1|e] eqn:H1; [|rewrite bind_Raise in Hloop; discriminate Hloop].
    rewrite bind_Ok in Hloop.
    assert (Hst1 : fst (fst (fst st1)) = []).
    { unfold NewSrc.compress_body in H1.
      destruct (getitem wiggle (Z.of_nat 0)) as [w|e];
        [|rewrite bind_Raise in H1; discriminate H1].
      rewrite bind_Ok in H1. change (Z.of_nat 0) with 0 in H1.
      rewrite Hg0, bind_Ok in H1.
      assert (Hq : Qltb resolution (Qabs (g0 - g0)) = false).
      { apply Qltb_false. rewrite (Qabs_wd (g0 - g0) 0) by ring.
        exact Hres. }
      rewrite Hq in H1. injection H1 as <-. reflexivity. }
    destruct (compress_loop_invariant wiggle graphcoords resolution
                _ _ _ Hloop) as [_ Hcount'].
    { destruct (compress_body_invariant wiggle graphcoords resolution
                  _ _ _ H1 Hinit) as [Hinv1 _]. exact Hinv1. }
    rewrite Hst1 in Hcount'. cbn [fst length] in Hcount'.
    rewrite length_map, length_seq in Hcount'.
    rewrite Hgc. cbn [length]. lia. }
Qed.

(** X14, witness: three samples on three coordinates one unit apart, resolution 1/2. *)
Lemma new_src_compressed_sequences_witness :
  exists cx cw,
    NewSrc.compress [4; 6; 8]%Q [0; 1; 2]%Q (1 # 2) = Ok (cx, cw)
    /\ length cx = length cw
    /\ (length cx <= length [0; 1; 2]%Q)%nat
    /\ ((0 <= 1 # 2)%Q -> (length cx < length [0; 1; 2]%Q)%nat)
    /\ Forall (fun x => In x [0; 1; 2]%Q) cx.
Proof.
  eexists _, _. split; [vm_compute; reflexivity|].
  apply (new_src_compressed_sequences [4; 6; 8]%Q [0; 1; 2]%Q (1 # 2)).
  vm_compute. reflexivity.
Defined.

Lemma StronglySorted_Qlt_snoc (l : list Q) (a b : Q) :
  StronglySorted Qlt (l ++ [a]) -> (a < b)%Q ->
  StronglySorted Qlt ((l ++ [a]) ++ [b]).
Proof.
  intros Hs Hab. induction l as [|x l IH]; cbn [app] in *.
  - repeat constructor. exact Hab.
  - apply StronglySorted_inv in Hs as [Hs Hx].
    constructor; [apply IH; exact Hs|].
    apply Forall_app. split; [exact Hx|]. repeat constructor.
    rewrite List.Forall_forall in Hx.
    apply Qlt_trans with a; [|exact Hab].
    apply Hx. apply in_or_app. right. left. reflexivity.
Qed.

Lemma compress_loop_sorted (wiggle graphcoords : list Q) (resolution : Q) m :
  (0 <= resolution)%Q -> nondecreasing graphcoords ->
  forall (k : nat) cx cw prevx tmpval cx' cw' prevx' tmpval',
    for_each (NewSrc.compress_body wiggle graphcoords resolution)
      (map Z.of_nat (seq k m)) (cx, cw, prevx, tmpval)
    = Ok (cx', cw', prevx', tmpval') ->
    (exists p, (p <= k)%nat /\ graphcoords !! p = Some prevx) ->
    StronglySorted Qlt (cx ++ [prevx]) ->
    StronglySorted Qlt (cx' ++ [prevx']).
Proof.
  intros Hres Hmono.
  induction m as [|m IH];
    intros k cx cw prevx tmpval cx' cw' prevx' tmpval' H Hp Hs.
  - injection H as <- <- <- <-. exact Hs.
  - cbn [seq map for_each] in H.
    destruct (NewSrc.compress_body wiggle graphcoords resolution
                (Z.of_nat k) (cx, cw, prevx, tmpval))
      as [st1|e] eqn:H1; [|rewrite bind_Raise in H; discriminate H].
    rewrite bind_Ok in H. unfold NewSrc.compress_body in H1.
    destruct (getitem wiggle (Z.of_nat k)) as [w|e];
      [|rewrite bind_Raise in H1; discriminate H1].
    rewrite bind_Ok in H1.
    destruct (getitem graphcoords (Z.of_nat k)) as [g|e] eqn:Hg;
      [|rewrite bind_Raise in H1; discriminate H1].
    rewrite bind_Ok in H1. apply getitem_nat_inv in Hg.
    destruct Hp as (p & Hpk & Hpx).
    destruct (Qltb resolution (Qabs (g - prevx))) eqn:Hq.
    + unfold pydiv in H1. destruct (Qeq_bool _ 0);
        [rewrite bind_Raise in H1; discriminate H1|].
      rewrite bind_Ok in H1. injection H1 as <-.
      apply (IH _ _ _ _ _ _ _ _ _ H).
      * exists k. split; [lia | exact Hg].
      * apply StronglySorted_Qlt_snoc; [exact Hs|].
        apply Qltb_true in Hq.
        pose proof (Hmono p k prevx g Hpk Hpx Hg) as Hle.
        destruct (Qle_lt_or_eq _ _ Hle) as [Hlt|Heq]; [exact Hlt|].
        exfalso. rewrite (Qabs_wd (g - prevx) 0) in Hq by lra.
        change (Qabs 0) with 0%Q in Hq. lra.
    + injection H1 as <-.
      apply (IH _ _ _ _ _ _ _ _ _ H); [|exact Hs].
      exists p. split; [lia | exact Hpx].
Qed.

(** X15.  With a resolution that is not negative and coordinates that do
    not decrease along the array, the x values [new_src] hands to
    [fill_between] increase strictly: a bucket is closed only by a
    coordinate more than the resolution away from its start. *)
Theorem new_src_compressed_x_increasing (wiggle graphcoords : list Q)
    (resolution : Q) (cx cw : list Q) :
  (0 <= resolution)%Q -> nondecreasing graphcoords ->
  NewSrc.compress wiggle graphcoords resolution = Ok (cx, cw) ->
  StronglySorted Qlt cx.
Proof.
  intros Hres Hmono. unfold NewSrc.compress, NewSrc.compress_loop. intros H.
  destruct (getitem graphcoords 0) as [g0|e] eqn:Hg0;
    [|rewrite !bind_Raise in H; discriminate H].
  rewrite bind_Ok in H.
  destruct (for_each _ _ _) as [[[[cx' cw'] prevx] tmpval]|e] eqn:Hloop;
    [|rewrite bind_Raise in H; discriminate H].
  rewrite bind_Ok in H. injection H as -> ->.
  rewrite range_of_nat in Hloop.
  assert (Hs : StronglySorted Qlt (cx ++ [prevx])).
  { apply (compress_loop_sorted _ _ _ _ Hres Hmono _ _ _ _ _ _ _ _ _ Hloop).
    - exists 0%nat. split; [lia|].
      apply (getitem_nat_inv graphcoords 0). exact Hg0.
    - repeat constructor. }
  clear -Hs. induction cx as [|x cx IH]; [constructor|].
  cbn [app] in Hs. apply StronglySorted_inv in Hs as [Hs Hx].
  constructor; [apply IH; exact Hs|].
  apply Forall_app in Hx as [Hx _]. exact Hx.
Qed.

(** X15, witness: five samples on coordinates that do not decrease, resolution 1/2. *)
Lemma new_src_compressed_x_increasing_witness :
  StronglySorted Qlt [0; 1; 3]%Q.
Proof.
  apply (new_src_compressed_x_increasing [4; 6; 8; 2; 2]%Q
           [0; 1; 1; 3; 4]%Q (1 # 2) _ [10 # 2; 10 # 2; 2]%Q).
  - unfold Qle. cbn. lia.
  - intros i j a b Hij Ha Hb.
    destruct i as [|[|[|[|[|i]]]]]; destruct j as [|[|[|[|[|j]]]]];
      try lia; cbn in Ha, Hb; try discriminate;
      injection Ha as <-; injection Hb as <-; unfold Qle; cbn; lia.
  - vm_compute. reflexivity.
Defined.

(** ** The transcript rows *)

Lemma exon_loop_inv (tx_start : Z) (graph_coords : list Q) (y_loc : Q)
    (exons : list Exon) :
  forall strand boxes strand' boxes',
    for_each (exon_body tx_start graph_coords y_loc) exons (strand, boxes)
    = Ok (strand', boxes') ->
    strand' = fold_left (fun _ exon => exon_strand exon) exons strand
    /\ exists new,
         boxes' = boxes ++ new
         /\ Forall2 (exon_box tx_start graph_coords y_loc) exons new.
Proof.
  induction exons as [|exon exons IH]; intros strand boxes strand' boxes' H.
  - injection H as <- <-. split; [reflexivity|].
    exists []. rewrite app_nil_r. split; [reflexivity | constructor].
  - cbn [for_each] in H.
    destruct (exon_body tx_start graph_coords y_loc exon (strand, boxes))
      as [[s1 b1]|e] eqn:H1; [|rewrite bind_Raise in H; discriminate H].
    rewrite bind_Ok in H. unfold exon_body in H1. cbv zeta beta iota in H1.
    destruct (getitem graph_coords (exon_start exon - tx_start))
      as [gs|e] eqn:Hgs; [|rewrite bind_Raise in H1; discriminate H1].
    rewrite bind_Ok in H1.
    destruct (getitem graph_coords (exon_end exon - tx_start))
      as [ge|e] eqn:Hge; [|rewrite bind_Raise in H1; discriminate H1].
    rewrite bind_Ok in H1. injection H1 as <- <-.
    destruct (IH _ _ _ _ H) as (-> & new & -> & Hnew).
    split; [reflexivity|].
    eexists (_ :: new). rewrite <- app_assoc. split; [reflexivity|].
    constructor; [|exact Hnew]. exists gs, ge. auto.
Qed.

Lemma row_height_S (y : Q) (k : nat) :
  row_height y (S k) = row_height (y + 1)%Q k.
Proof. reflexivity. Qed.

Lemma row_height_eq (k : nat) : forall y : Q,
  (row_height y k == y + inject_Z (Z.of_nat k))%Q.
Proof.
  induction k as [|k IH]; intros y.
  - cbn [row_height]. change (inject_Z (Z.of_nat 0)) with 0%Q. ring.
  - cbn [row_height]. rewrite IH, Nat2Z.inj_succ.
    unfold Z.succ. rewrite inject_Z_plus. change (inject_Z 1) with 1%Q. ring.
Qed.

Section NewSrcRows.

Variables (tx_start : Z) (graphcoords : list Q).
Variables (reverse_minus show_gene : bool) (label_x_axis : Q).

Lemma new_src_transcript_body_inv (transcript : Transcript) (yloc : Q)
    (rows : list transcript_row) (st' : Q * list transcript_row) :
  NewSrcTranscripts.transcript_body tx_start graphcoords reverse_minus
    show_gene label_x_axis transcript (yloc, rows) = Ok st' ->
  exists row,
    st' = ((yloc + 1)%Q, rows ++ [row])
    /\ new_src_row tx_start graphcoords reverse_minus yloc transcript row.
Proof.
  unfold NewSrcTranscripts.transcript_body. cbv zeta. intros H.
  destruct (for_each _ _ _) as [[strand boxes]|e] eqn:Hloop;
    [|rewrite bind_Raise in H; discriminate H].
  rewrite bind_Ok in H.
  destruct (py_min graphcoords) as [lo|e] eqn:Hlo;
    [|rewrite bind_Raise in H; discriminate H].
  rewrite bind_Ok in H.
  destruct (py_max graphcoords) as [hi|e] eqn:Hhi;
    [|rewrite bind_Raise in H; discriminate H].
  rewrite bind_Ok in H. injection H as <-.
  destruct (exon_loop_inv _ _ _ _ _ _ _ _ Hloop) as (-> & new & -> & Hnew).
  eexists. split; [reflexivity|].
  exists lo, hi. cbn [row_exons row_intron row_arrows app].
  split; [exact Hlo|]. split; [exact Hhi|]. split; [exact Hnew|].
  split; reflexivity.
Qed.

Lemma new_src_transcript_loop_inv (l : list Transcript) :
  forall yloc rows yloc' rows',
    for_each (NewSrcTranscripts.transcript_body tx_start graphcoords
                reverse_minus show_gene label_x_axis) l (yloc, rows)
    = Ok (yloc', rows') ->
    exists new,
      rows' = rows ++ new
      /\ length new = length l
      /\ forall k t, l !! k = Some t ->
           exists row,
             new !! k = Some row
             /\ new_src_row tx_start graphcoords reverse_minus
                  (row_height yloc k) t row.
Proof.
  induction l as [|t l IH]; intros yloc rows yloc' rows' H.
  - injection H as <- <-. exists []. rewrite app_nil_r.
    split; [reflexivity|]. split; [reflexivity|].
    intros k t Hk. destruct k; discriminate Hk.
  - cbn [for_each] in H.
    destruct (NewSrcTranscripts.transcript_body _ _ _ _ _ t (yloc, rows))
      as [st1|e] eqn:H1; [|rewrite bind_Raise in H; discriminate H].
    rewrite bind_Ok in H.
    destruct (new_src_transcript_body_inv _ _ _ _ H1) as (row & -> & Hrow).
    destruct (IH _ _ _ _ H) as (new & -> & Hlen & Hnew).
    exists (row :: new). rewrite <- app_assoc.
    split; [reflexivity|]. split; [cbn; lia|].
    intros [|k] t' Hk.
    + injection Hk as <-. exists row. split; [reflexivity | exact Hrow].
    + apply (Hnew k t' Hk).
Qed.

End NewSrcRows.

Section NewSrcSort.

Variables (exon_eqb exon_ltb : Exon -> Exon -> bool).

Local Abbreviation keyed_lt :=
  (fun a b : Z * Exon * Transcript =>
     NewSrcTranscripts.key_lt exon_eqb exon_ltb (fst a) (fst b)).

Lemma sort_key_eq (t : Transcript) :
  NewSrcTranscripts.sort_key t
  = match tr_exons t with
    | [] => Raise IndexError
    | first :: _ => Ok (Z.of_nat (length (tr_exons t)), first)
    end.
Proof.
  unfold NewSrcTranscripts.sort_key. destruct (tr_exons t); reflexivity.
Qed.

Lemma sort_keys_inv (transcripts : list Transcript) :
  forall keyed,
    for_samples
      (fun x => k ← NewSrcTranscripts.sort_key x; Ok (k, x)) transcripts
    = Ok keyed ->
    map snd keyed = transcripts
    /\ Forall (fun kx => fst (fst kx) = Z.of_nat (length (tr_exons (snd kx))))
         keyed
    /\ Forall (fun t => tr_exons t <> []) transcripts.
Proof.
  induction transcripts as [|t ts IH]; intros keyed H; cbn [for_samples] in H.
  - injection H as <-. repeat split; constructor.
  - rewrite sort_key_eq in H.
    destruct (tr_exons t) as [|first exons] eqn:Hfirst;
      [rewrite !bind_Raise in H; discriminate H|].
    rewrite !bind_Ok in H.
    destruct (for_samples _ ts) as [keyed'|e] eqn:Hrest;
      [|rewrite bind_Raise in H; discriminate H].
    rewrite bind_Ok in H. injection H as <-.
    destruct (IH _ eq_refl) as (Hmap & Hkeys & Hne).
    cbn [map snd]. rewrite Hmap.
    split; [reflexivity|].
    split; [constructor; [cbn; rewrite Hfirst; reflexivity | exact Hkeys]|].
    constructor; [|exact Hne]. congruence.
Qed.

Lemma sort_keys_raise (transcripts : list Transcript) :
  Exists (fun t => tr_exons t = []) transcripts ->
  for_samples
    (fun x => k ← NewSrcTranscripts.sort_key x; Ok (k, x)) transcripts
  = Raise IndexError.
Proof.
  induction transcripts as [|t ts IH]; intros H; [inversion H|].
  cbn [for_samples]. rewrite sort_key_eq.
  destruct (tr_exons t) as [|first exons] eqn:Hexons.
  - reflexivity.
  - rewrite !bind_Ok. rewrite IH; [reflexivity|].
    apply Exists_cons in H as [H|H]; [congruence | exact H].
Qed.

Lemma sorted_transcripts_inv (transcripts sorted : list Transcript) :
  NewSrcTranscripts.sorted_transcripts exon_eqb exon_ltb transcripts
  = Ok sorted ->
  Permutation sorted transcripts
  /\ StronglySorted
       (fun a b => (length (tr_exons a) <= length (tr_exons b))%nat) sorted
  /\ Forall (fun t => tr_exons t <> []) transcripts.
Proof.
  unfold NewSrcTranscripts.sorted_transcripts. intros H.
  destruct (for_samples _ transcripts) as [keyed|e] eqn:Hkeys;
    [|rewrite bind_Raise in H; discriminate H].
  rewrite bind_Ok in H. injection H as <-.
  destruct (sort_keys_inv _ _ Hkeys) as (Hmap & Hlen & Hne).
  pose proof (stable_sort_Permutation keyed_lt keyed) as Hperm.
  split; [rewrite <- Hmap; apply Permutation_map; exact Hperm|].
  split; [|exact Hne].
  assert (Hs : StronglySorted
                 (fun a b : Z * Exon * Transcript => fst (fst a) <= fst (fst b))
                 (stable_sort keyed_lt keyed)).
  { apply Sorted.Sorted_StronglySorted; [intros a b c; lia|].
    apply stable_sort_Sorted_by.
    - intros x y. unfold NewSrcTranscripts.key_lt.
      destruct (Z.eqb_spec (fst (fst y)) (fst (fst x))); [lia|].
      intros Hlt. apply Z.ltb_lt in Hlt. lia.
    - intros x y. unfold NewSrcTranscripts.key_lt.
      destruct (Z.eqb_spec (fst (fst y)) (fst (fst x))); [lia|].
      intros Hlt. apply Z.ltb_ge in Hlt. lia. }
  assert (Hlen' : Forall
            (fun kx => fst (fst kx) = Z.of_nat (length (tr_exons (snd kx))))
            (stable_sort keyed_lt keyed)).
  { rewrite List.Forall_forall in Hlen |- *. intros kx Hin. apply Hlen.
    apply (Permutation_in _ Hperm). exact Hin. }
  clear Hperm. revert Hlen'.
  induction Hs as [|kx l Hs IH Hall]; intros Hlen'; cbn [map];
    [constructor|].
  apply Forall_cons_1 in Hlen' as [Hkx Hl].
  constructor; [apply IH; exact Hl|].
  rewrite List.Forall_forall in Hall, Hl |- *.
  intros t Ht. apply in_map_iff in Ht as (ky & <- & Hky).
  specialize (Hall _ Hky). specialize (Hl _ Hky). lia.
Qed.

End NewSrcSort.

(** X16.  [new_src] cannot draw a transcript without exons: the sort key
    [(len(x.exons), x.exons[0])] is computed for every transcript before
    any is drawn, and its lookup raises IndexError. *)
Theorem new_src_transcript_without_exons
    (exon_eqb exon_ltb : Exon -> Exon -> bool) (tx_start : Z)
    (graphcoords : list Q) (reverse_minus show_gene : bool)
    (label_x_axis : Q) (transcripts : list Transcript) :
  Exists (fun t => tr_exons t = []) transcripts ->
  NewSrcTranscripts.plot_transcripts exon_eqb exon_ltb tx_start graphcoords
    reverse_minus show_gene label_x_axis transcripts = Raise IndexError.
Proof.
  intros H. unfold NewSrcTranscripts.plot_transcripts,
    NewSrcTranscripts.sorted_transcripts.
  rewrite (sort_keys_raise _ H). reflexivity.
Qed.

(** X17.  The rows of [new_src].  When [plot_transcripts] returns, the
    transcripts are drawn by ascending number of exons, the [k]-th of
    them (from [0]) on the row at height [k + 1]; whatever the extent of
    the transcript, the intron line of its row spans the whole array and
    the row has fifty arrows spread over it, which follow the strand of
    the transcript's last exon; the y axis ends half a row above the
    number of transcripts. *)
Theorem new_src_transcript_rows
    (exon_eqb exon_ltb : Exon -> Exon -> bool) (tx_start : Z)
    (graphcoords : list Q) (reverse_minus show_gene : bool)
    (label_x_axis : Q) (transcripts : list Transcript)
    (rows : list transcript_row) (xlim : Q) (ylim : Q * Q) :
  NewSrcTranscripts.plot_transcripts exon_eqb exon_ltb tx_start graphcoords
    reverse_minus show_gene label_x_axis transcripts
  = Ok (rows, xlim, ylim) ->
  exists sorted,
    Permutation sorted transcripts
    /\ StronglySorted
         (fun a b => (length (tr_exons a) <= length (tr_exons b))%nat) sorted
    /\ length rows = length transcripts
    /\ ylim = ((- (5 # 10))%Q,
               (inject_Z (Z.of_nat (length transcripts)) + (5 # 10))%Q)
    /\ py_max graphcoords = Ok xlim
    /\ forall k t, sorted !! k = Some t ->
         exists row,
           rows !! k = Some row
           /\ new_src_row tx_start graphcoords reverse_minus
                (row_height 1 k) t row
           /\ (row_height 1 k == inject_Z (Z.of_nat k) + 1)%Q
           /\ length (row_arrows row) = 50%nat.
Proof.
  unfold NewSrcTranscripts.plot_transcripts. cbv zeta. intros H.
  destruct (NewSrcTranscripts.sorted_transcripts _ _ _) as [sorted|e] eqn:Hs;
    [|rewrite bind_Raise in H; discriminate H].
  rewrite bind_Ok in H.
  destruct (for_each _ _ _) as [[yloc' rows']|e] eqn:Hloop;
    [|rewrite bind_Raise in H; discriminate H].
  rewrite bind_Ok in H.
  destruct (py_max graphcoords) as [hi|e] eqn:Hhi;
    [|rewrite bind_Raise in H; discriminate H].
  rewrite bind_Ok in H. injection H as <- <- <-.
  destruct (sorted_transcripts_inv _ _ _ _ Hs) as (Hperm & Hsorted & _).
  destruct (new_src_transcript_loop_inv _ _ _ _ _ _ _ _ _ _ Hloop)
    as (new & -> & Hlen & Hrows).
  cbn [app] in *.
  exists sorted. split; [exact Hperm|]. split; [exact Hsorted|].
  rewrite <- (Permutation_length Hperm).
  split; [exact Hlen|]. split; [reflexivity|]. split; [reflexivity|].
  intros k t Hk. destruct (Hrows k t Hk) as (row & Hrow & Hspec).
  exists row. split; [exact Hrow|]. split; [exact Hspec|].
  split; [rewrite row_height_eq; ring|].
  destruct Hspec as (lo & hi' & _ & _ & _ & _ & ->).
  rewrite length_map. reflexivity.
Qed.

Section UtilsRows.

Import UtilsTranscripts.

Variables (tx_start : Z) (graph_coords : list Q).
Variables (reverse_minus show_gene : bool).

Lemma narrows_of_inv (length hi : Q) (n : Z) :
  narrows_of length hi = Returns (Ok n) ->
  ~ (hi == 0)%Q /\ n = Qceiling (length / hi * 50).
Proof.
  unfold narrows_of. destruct (Qeq_bool hi 0) eqn:Hhi.
  - destruct (Qeq_bool length 0); discriminate.
  - intros H. injection H as <-. split; [|reflexivity].
    apply Qeq_bool_neq. exact Hhi.
Qed.

Lemma utils_transcript_body_inv (distance : Q) (transcript : Transcript)
    (y_loc : Q) (rows : list transcript_row)
    (st' : Q * list transcript_row) :
  transcript_body tx_start graph_coords reverse_minus show_gene distance
    transcript (y_loc, rows) = Returns (Ok st') ->
  exists row,
    st' = ((y_loc + 1)%Q, rows ++ [row])
    /\ utils_row tx_start graph_coords reverse_minus y_loc transcript row.
Proof.
  unfold transcript_body. cbv zeta. intros H.
  apply outcome_bind_inv in H as ([strand boxes] & Hloop & H).
  apply outcome_bind_inv in H as (start_x & Hstart & H).
  apply outcome_bind_inv in H as (end_x & Hend & H).
  apply outcome_bind_inv in H as (hi & Hhi & H).
  apply outcome_bind_inv in H as (narrows & Hn & H).
  injection Hloop as Hloop. injection Hstart as Hstart.
  injection Hend as Hend. injection Hhi as Hhi. injection H as <-.
  destruct (exon_loop_inv _ _ _ _ _ _ _ _ Hloop) as (-> & new & -> & Hnew).
  destruct (narrows_of_inv _ _ _ Hn) as [Hnz ->].
  eexists. split; [reflexivity|].
  exists start_x, end_x, hi. cbn [row_exons row_intron row_arrows app].
  split; [exact Hstart|]. split; [exact Hend|]. split; [exact Hhi|].
  split; [exact Hnz|]. split; [exact Hnew|]. split; reflexivity.
Qed.

Lemma utils_transcript_loop_inv (distance : Q) (l : list Transcript) :
  forall y_loc rows y_loc' rows',
    for_rows (transcript_body tx_start graph_coords reverse_minus show_gene
                distance) l (y_loc, rows)
    = Returns (Ok (y_loc', rows')) ->
    exists new,
      rows' = rows ++ new
      /\ length new = length l
      /\ forall k t, l !! k = Some t ->
           exists row,
             new !! k = Some row
             /\ utils_row tx_start graph_coords reverse_minus
                  (row_height y_loc k) t row.
Proof.
  induction l as [|t l IH]; intros y_loc rows y_loc' rows' H.
  - injection H as <- <-. exists []. rewrite app_nil_r.
    split; [reflexivity|]. split; [reflexivity|].
    intros k t Hk. destruct k; discriminate Hk.
  - cbn [for_rows] in H.
    apply outcome_bind_inv in H as (st1 & H1 & H).
    destruct (utils_transcript_body_inv _ _ _ _ _ H1) as (row & -> & Hrow).
    destruct (IH _ _ _ _ H) as (new & -> & Hlen & Hnew).
    exists (row :: new). rewrite <- app_assoc.
    split; [reflexivity|]. split; [cbn; lia|].
    intros [|k] t' Hk.
    + injection Hk as <-. exists row. split; [reflexivity | exact Hrow].
    + apply (Hnew k t' Hk).
Qed.

Lemma utils_plot_transcripts_inv (transcripts : list Transcript)
    (rows : list transcript_row) (xlim : Q) (ylim : Q * Q) :
  plot_transcripts tx_start graph_coords reverse_minus show_gene transcripts
  = Returns (Ok (rows, xlim, ylim)) ->
  py_max graph_coords = Ok xlim
  /\ ylim = ((- (5 # 10))%Q,
             (inject_Z (Z.of_nat (length transcripts)) + (5 # 10))%Q)
  /\ length rows = length transcripts
  /\ forall k t, transcripts !! k = Some t ->
       exists row,
         rows !! k = Some row
         /\ utils_row tx_start graph_coords reverse_minus
              (row_height 0 k) t row.
Proof.
  unfold plot_transcripts. cbv zeta. intros H.
  apply outcome_bind_inv in H as (hi & Hhi & H).
  apply outcome_bind_inv in H as (lo & Hlo & H).
  apply outcome_bind_inv in H as ([y' rows'] & Hloop & H).
  apply outcome_bind_inv in H as (xlim' & Hxlim & H).
  injection Hxlim as Hxlim. injection H as <- <- <-.
  destruct (utils_transcript_loop_inv _ _ _ _ _ _ Hloop)
    as (new & -> & Hlen & Hrows).
  cbn [app]. auto.
Qed.

End UtilsRows.

Lemma narrows_nonpositive (L hi : Q) :
  (L <= 0)%Q -> (0 < hi)%Q -> Qceiling (L / hi * 50) <= 0.
Proof.
  intros HL Hpos. rewrite <- (Qceiling_Z 0). apply Qceiling_resp_le.
  assert (Hq : (L / hi <= 0)%Q).
  { apply Qle_shift_div_r; [exact Hpos | lra]. }
  change (inject_Z 0) with 0%Q. lra.
Qed.

(** X18.  The rows of [utils].  When [plot_transcripts] returns, the
    transcripts are drawn in the order given, the [k]-th (from [0]) at
    height [k], with one box per exon and an intron line between the
    coordinates of the transcript's two ends.  A transcript whose end
    coordinate is not right of its start coordinate gets no arrow; one
    whose extent is positive and at most the width of the plot gets
    between one and fifty arrows, the tip of each between its two
    ends. *)
Theorem utils_transcript_rows (tx_start : Z) (graph_coords : list Q)
    (reverse_minus show_gene : bool) (transcripts : list Transcript)
    (rows : list transcript_row) (xlim : Q) (ylim : Q * Q) :
  UtilsTranscripts.plot_transcripts tx_start graph_coords reverse_minus
    show_gene transcripts = UtilsTranscripts.Returns (Ok (rows, xlim, ylim)) ->
  length rows = length transcripts
  /\ ylim = ((- (5 # 10))%Q,
             (inject_Z (Z.of_nat (length transcripts)) + (5 # 10))%Q)
  /\ forall k t, transcripts !! k = Some t ->
       exists row start_x end_x,
         rows !! k = Some row
         /\ getitem graph_coords (tr_start t - tx_start) = Ok start_x
         /\ getitem graph_coords (tr_end t - tx_start) = Ok end_x
         /\ row_intron row
            = ([start_x; end_x], [row_height 0 k; row_height 0 k])
         /\ (row_height 0 k == inject_Z (Z.of_nat k))%Q
         /\ length (row_exons row) = length (tr_exons t)
         /\ ((end_x <= start_x)%Q -> (0 < xlim)%Q -> row_arrows row = [])
         /\ ((start_x < end_x)%Q -> (end_x - start_x <= xlim)%Q ->
             (1 <= length (row_arrows row) <= 50)%nat
             /\ Forall
                  (fun a =>
                     exists loc spread,
                       a = arrow_at (arrow_strand t) reverse_minus loc
                             spread (row_height 0 k)
                       /\ (start_x <= loc)%Q /\ (loc < end_x)%Q)
                  (row_arrows row)).
Proof.
  intros H.
  destruct (utils_plot_transcripts_inv _ _ _ _ _ _ _ _ H)
    as (Hxlim & Hylim & Hlen & Hrows).
  split; [exact Hlen|]. split; [exact Hylim|].
  intros k t Hk. destruct (Hrows k t Hk) as (row & Hrow & Hspec).
  destruct Hspec
    as (start_x & end_x & hi & Hs & He & Hhi & Hnz & Hboxes & Hintron & Harr).
  cbv zeta in Harr.
  rewrite Hxlim in Hhi. injection Hhi as <-.
  exists row, start_x, end_x.
  split; [exact Hrow|]. split; [exact Hs|]. split; [exact He|].
  split; [exact Hintron|].
  split; [rewrite row_height_eq; ring|].
  split; [symmetry; apply (Forall2_length _ _ _ Hboxes)|].
  set (L := (end_x - start_x)%Q) in *.
  set (n := Qceiling (L / xlim * 50)) in *.
  split.
  - intros Hle Hpos.
    assert (Hn : n <= 0).
    { apply narrows_nonpositive; [unfold L; lra | exact Hpos]. }
    rewrite Harr. unfold range.
    replace (Z.to_nat n) with 0%nat by lia. reflexivity.
  - intros Hlt Hwidth.
    assert (Hpos : (0 < xlim)%Q) by (unfold L in *; lra).
    assert (Hq0 : (0 < L / xlim * 50)%Q).
    { assert (0 < L / xlim)%Q;
        [apply Qlt_shift_div_l; unfold L; lra | lra]. }
    assert (Hq1 : (L / xlim * 50 <= 50)%Q).
    { assert (L / xlim <= 1)%Q;
        [apply Qle_shift_div_r; unfold L in *; lra | lra]. }
    assert (Hn1 : 1 <= n).
    { pose proof (Qle_ceiling (L / xlim * 50)) as Hc. fold n in Hc.
      assert (Hz : (0 < inject_Z n)%Q) by lra.
      change 0%Q with (inject_Z 0) in Hz. rewrite <- Zlt_Qlt in Hz. lia. }
    assert (Hn50 : n <= 50).
    { rewrite <- (Qceiling_Z 50). apply Qceiling_resp_le. exact Hq1. }
    rewrite Harr. rewrite length_map.
    split; [unfold range; rewrite length_map, length_seq; lia|].
    apply List.Forall_forall. intros a Ha.
    apply in_map_iff in Ha as (i & <- & Hi). apply In_range in Hi.
    eexists _, _. split; [reflexivity|].
    assert (HN : (1 <= inject_Z n)%Q).
    { change 1%Q with (inject_Z 1). rewrite <- Zle_Qle. exact Hn1. }
    assert (HI0 : (0 <= inject_Z i)%Q).
    { change 0%Q with (inject_Z 0). rewrite <- Zle_Qle. lia. }
    assert (HI1 : (inject_Z i + 1 <= inject_Z n)%Q).
    { change 1%Q with (inject_Z 1). rewrite <- inject_Z_plus, <- Zle_Qle.
      lia. }
    set (N := inject_Z n) in *. set (I := inject_Z i) in *.
    assert (HL : (0 < L)%Q) by (unfold L; lra).
    assert (Hq : (0 <= I * L / N /\ I * L / N < L)%Q).
    { split.
      - apply Qle_shift_div_l; [lra | nra].
      - apply Qlt_shift_div_r; [lra | nra]. }
    destruct Hq as [Hq0' Hq1'].
    set (q := (I * L / N)%Q) in *. clearbody q. unfold L in Hq1'.
    split; lra.
Qed.

Lemma getitem_nonneg_inv {A} (l : list A) (i : Z) (a : A) :
  0 <= i -> getitem l i = Ok a -> l !! Z.to_nat i = Some a.
Proof.
  intros Hi H. apply getitem_nat_inv. rewrite Z2Nat.id by exact Hi. exact H.
Qed.

(** The array of a fill from the end, with scales above zero: its values
    are not negative and do not increase along the array. *)
Lemma get_scaling_mirrored (tx_start tx_end : Z) (strand : pyval)
    (exon_starts exon_ends : list Z) (intron_scale exon_scale : Q)
    (reverse_minus : bool) (gc : list Q) (g2g : list (Z * Z)) :
  (0 < exon_scale)%Q -> (0 < intron_scale)%Q ->
  fills_forward strand reverse_minus = false ->
  get_scaling tx_start tx_end strand exon_starts exon_ends
    intron_scale exon_scale reverse_minus = Ok (gc, g2g) ->
  nonincreasing gc
  /\ Forall (fun v => 0 <= v)%Q gc
  /\ length gc = Z.to_nat (tx_end - tx_start + 1).
Proof.
  intros Hes His Hback Hrun.
  destruct (get_scaling_inv _ _ _ _ _ _ _ _ _ _ Hrun)
    as (ec & _ & _ & _ & _ & Hlen & Hwalk & _).
  rewrite Hback in Hwalk. cbn [walk_order] in Hwalk.
  assert (Hsteps : Forall (fun d => 0 <= d)%Q
                     (map (plot_step exon_scale intron_scale) (reverse ec))).
  { apply List.Forall_forall. intros d Hd.
    apply in_map_iff in Hd as (c & <- & _).
    apply Qlt_le_weak. apply plot_step_pos; assumption. }
  split; [|split; [|exact Hlen]].
  - intros i j a b Hij Ha Hb.
    pose proof (lookup_lt_Some _ _ _ Ha) as Hi.
    pose proof (lookup_lt_Some _ _ _ Hb) as Hj.
    apply (walk_monotone _ 0%Q (length gc - S j) (length gc - S i) b a
             Hsteps); [lia | |].
    + rewrite <- Hwalk, reverse_lookup by lia.
      replace (length gc - S (length gc - S j))%nat with j by lia. exact Hb.
    + rewrite <- Hwalk, reverse_lookup by lia.
      replace (length gc - S (length gc - S i))%nat with i by lia. exact Ha.
  - apply List.Forall_forall. intros v Hv.
    apply list_elem_of_In in Hv. rewrite <- elem_of_reverse, Hwalk in Hv.
    apply list_elem_of_lookup in Hv as [i Hi].
    apply (walk_lookup_ge _ _ _ _ Hsteps Hi).
Qed.

(** X19.  On an array filled from the end ([reverse_minus] on a strand
    other than ['+']) [utils] draws no intron arrow at all: the
    coordinates decrease along the region, so the coordinate of a
    transcript's end is not right of that of its start, and
    [math.ceil(length / max(graph_coords) * 50)] is not positive. *)
Theorem utils_mirrored_transcripts_have_no_arrows (tx_start tx_end : Z)
    (strand : pyval) (exon_starts exon_ends : list Z)
    (intron_scale exon_scale : Q) (reverse_minus show_gene : bool)
    (gc : list Q) (g2g : list (Z * Z)) (transcripts : list Transcript)
    (rows : list transcript_row) (xlim : Q) (ylim : Q * Q) :
  (0 < exon_scale)%Q -> (0 < intron_scale)%Q ->
  fills_forward strand reverse_minus = false ->
  get_scaling tx_start tx_end strand exon_starts exon_ends
    intron_scale exon_scale reverse_minus = Ok (gc, g2g) ->
  Forall (fun t => tx_start <= tr_start t /\ tr_start t <= tr_end t) transcripts ->
  UtilsTranscripts.plot_transcripts tx_start gc reverse_minus show_gene
    transcripts = UtilsTranscripts.Returns (Ok (rows, xlim, ylim)) ->
  length rows = length transcripts
  /\ Forall (fun row => row_arrows row = []) rows.
Proof.
  intros Hes His Hback Hrun Hin Hplot.
  destruct (get_scaling_mirrored _ _ _ _ _ _ _ _ _ _ Hes His Hback Hrun)
    as (Hmono & Hnn & _).
  destruct (utils_plot_transcripts_inv _ _ _ _ _ _ _ _ Hplot)
    as (Hxlim & _ & Hlen & Hrows).
  split; [exact Hlen|].
  apply List.Forall_forall. intros row Hrow.
  apply list_elem_of_In, list_elem_of_lookup in Hrow as [k Hk].
  destruct (lookup_lt_is_Some_2 transcripts k) as [t Ht];
    [rewrite <- Hlen; apply (lookup_lt_Some _ _ _ Hk)|].
  destruct (Hrows k t Ht) as (row' & Hrow' & Hspec).
  rewrite Hk in Hrow'. injection Hrow' as <-.
  destruct Hspec
    as (start_x & end_x & hi & Hs & He & Hhi & Hnz & _ & _ & Harr).
  cbv zeta in Harr. rewrite Harr.
  rewrite List.Forall_forall in Hin. destruct (Hin t) as [Hstart Hend].
  { apply list_elem_of_In. eapply list_elem_of_lookup_2. exact Ht. }
  apply getitem_nonneg_inv in Hs; [|lia].
  apply getitem_nonneg_inv in He; [|lia].
  assert (Hle : (end_x <= start_x)%Q).
  { apply (Hmono (Z.to_nat (tr_start t - tx_start))
             (Z.to_nat (tr_end t - tx_start)) start_x end_x);
      [lia | exact Hs | exact He]. }
  assert (Hpos : (0 < hi)%Q).
  { destruct (py_max_spec gc) as (m & Hm & _ & Hmin).
    { intros ->. discriminate Hhi. }
    rewrite Hhi in Hm. injection Hm as <-.
    rewrite List.Forall_forall in Hnn. specialize (Hnn _ Hmin).
    destruct (Qle_lt_or_eq _ _ Hnn) as [Hlt|Heq]; [exact Hlt|].
    exfalso. apply Hnz. symmetry. exact Heq. }
  pose proof (narrows_nonpositive (end_x - start_x) hi ltac:(lra) Hpos) as Hn.
  unfold range. replace (Z.to_nat _) with 0%nat by lia. reflexivity.
Qed.

(** ** The transcript rows of the example window *)

(** X16, witness: a transcript without exons among the two of the example. *)
Lemma new_src_transcript_without_exons_witness :
  NewSrcTranscripts.plot_transcripts example_exon_eqb example_exon_ltb 10
    example_graph_coords false false (- (1800))%Q
    ({| tr_transcript := "T0"; tr_gene := "G"; tr_exons := [];
        tr_start := 12; tr_end := 15 |} :: example_transcripts)
  = Raise IndexError.
Proof.
  apply new_src_transcript_without_exons.
  apply Exists_cons_hd. reflexivity.
Defined.

(** X17, witness: the two transcripts of the example drawn by [new_src]. *)
Lemma new_src_transcript_rows_witness :
  exists rows xlim ylim sorted,
    NewSrcTranscripts.plot_transcripts example_exon_eqb example_exon_ltb 10
      example_graph_coords false false (- (1800))%Q example_transcripts
    = Ok (rows, xlim, ylim)
    /\ Permutation sorted example_transcripts
    /\ StronglySorted
         (fun a b => (length (tr_exons a) <= length (tr_exons b))%nat) sorted
    /\ length rows = length example_transcripts
    /\ ylim = ((- (5 # 10))%Q,
               (inject_Z (Z.of_nat (length example_transcripts))
                + (5 # 10))%Q)
    /\ py_max example_graph_coords = Ok xlim
    /\ forall k t, sorted !! k = Some t ->
         exists row,
           rows !! k = Some row
           /\ new_src_row 10 example_graph_coords false (row_height 1 k) t
                row
           /\ (row_height 1 k == inject_Z (Z.of_nat k) + 1)%Q
           /\ length (row_arrows row) = 50%nat.
Proof.
  destruct (new_src_transcript_rows example_exon_eqb example_exon_ltb 10
              example_graph_coords false false (- (1800))%Q
              example_transcripts _ _ _
              ltac:(vm_compute; reflexivity))
    as (sorted & H).
  eexists _, _, _, sorted. split; [vm_compute; reflexivity | exact H].
Defined.

(** X18, witness: the two transcripts of the example drawn by [utils]. *)
Lemma utils_transcript_rows_witness :
  exists rows xlim ylim,
    UtilsTranscripts.plot_transcripts 10 example_graph_coords false false
      example_transcripts = UtilsTranscripts.Returns (Ok (rows, xlim, ylim))
    /\ length rows = length example_transcripts
    /\ ylim = ((- (5 # 10))%Q,
               (inject_Z (Z.of_nat (length example_transcripts))
                + (5 # 10))%Q)
    /\ forall k t, example_transcripts !! k = Some t ->
         exists row start_x end_x,
           rows !! k = Some row
           /\ getitem example_graph_coords (tr_start t - 10) = Ok start_x
           /\ getitem example_graph_coords (tr_end t - 10) = Ok end_x
           /\ row_intron row
              = ([start_x; end_x], [row_height 0 k; row_height 0 k])
           /\ (row_height 0 k == inject_Z (Z.of_nat k))%Q
           /\ length (row_exons row) = length (tr_exons t)
           /\ ((end_x <= start_x)%Q -> (0 < xlim)%Q -> row_arrows row = [])
           /\ ((start_x < end_x)%Q -> (end_x - start_x <= xlim)%Q ->
               (1 <= length (row_arrows row) <= 50)%nat
               /\ Forall
                    (fun a =>
                       exists loc spread,
                         a = arrow_at (arrow_strand t) false loc spread
                               (row_height 0 k)
                         /\ (start_x <= loc)%Q /\ (loc < end_x)%Q)
                    (row_arrows row)).
Proof.
  pose proof (utils_transcript_rows 10 example_graph_coords false false
                example_transcripts _ _ _ ltac:(vm_compute; reflexivity))
    as H.
  eexists _, _, _. split; [vm_compute; reflexivity | exact H].
Defined.

(** X19, witness: the example window read from its end, with its two transcripts. *)
Lemma utils_mirrored_transcripts_have_no_arrows_witness :
  exists gc g2g rows xlim ylim,
    get_scaling 10 20 (PyStr "-") [12] [15] 1 1 true = Ok (gc, g2g)
    /\ UtilsTranscripts.plot_transcripts 10 gc true false
         example_transcripts
       = UtilsTranscripts.Returns (Ok (rows, xlim, ylim))
    /\ length rows = length example_transcripts
    /\ Forall (fun row => row_arrows row = []) rows.
Proof.
  pose proof (utils_mirrored_transcripts_have_no_arrows 10 20 (PyStr "-")
                [12] [15] 1 1 true false _ _ example_transcripts _ _ _
                ltac:(reflexivity) ltac:(reflexivity) ltac:(reflexivity)
                ltac:(vm_compute; reflexivity)
                ltac:(repeat constructor; cbn; lia)
                ltac:(vm_compute; reflexivity))
    as H.
  eexists _, _, _, _, _.
  split; [vm_compute; reflexivity|].
  split; [vm_compute; reflexivity | exact H].
Defined.

(** ** When a panel can be drawn *)

Lemma for_each_Ok_each {I S} (body : I -> S -> result S) (l : list I) :
  forall s s',
    for_each body l s = Ok s' ->
    forall i, In i l -> exists s1 s2, body i s1 = Ok s2.
Proof.
  induction l as [|j l IH]; intros s s' H i Hi; [destruct Hi|].
  cbn [for_each] in H.
  destruct (body j s) as [s1|e] eqn:H1;
    [|rewrite bind_Raise in H; discriminate H].
  rewrite bind_Ok in H. destruct Hi as [->|Hi].
  - exists s, s1. exact H1.
  - apply (IH _ _ H i Hi).
Qed.

Lemma last_index_in_range (n : nat) :
  (0 < n)%nat -> In (Z.of_nat (n - 1)) (range (Z.of_nat n)).
Proof.
  intros Hn. rewrite range_of_nat. apply in_map. apply in_seq. lia.
Qed.

Lemma utils_plot_density_single_reads_wiggle (read_depth_object : ReadDepth)
    (graph_coords : list Q) (graph_to_gene : list (Z * Z))
    (y_max_arg : option Q) (number_junctions_arg show_x_axis : bool)
    (nx_ticks : Z) (no_bam : bool) (p : panel) :
  Utils.plot_density_single read_depth_object graph_coords graph_to_gene
    y_max_arg number_junctions_arg show_x_axis nx_ticks no_bam = Ok p ->
  (length graph_coords <= length (wiggle read_depth_object))%nat.
Proof.
  unfold Utils.plot_density_single. intros H.
  destruct (for_each (Utils.copy_body _ _) _ _) as [[cx cw]|e] eqn:Hcopy;
    [|rewrite bind_Raise in H; discriminate H].
  destruct (length graph_coords) as [|n] eqn:Hn; [lia|].
  destruct (for_each_Ok_each _ _ _ _ Hcopy (Z.of_nat (S n - 1)))
    as ([cx1 cw1] & s2 & Hbody); [apply last_index_in_range; lia|].
  unfold Utils.copy_body in Hbody.
  destruct (getitem (wiggle read_depth_object) (Z.of_nat (S n - 1)))
    as [w|e] eqn:Hw; [|rewrite bind_Raise in Hbody; discriminate Hbody].
  apply getitem_nat_inv, lookup_lt_Some in Hw. lia.
Qed.

Lemma new_src_compress_reads_wiggle (wiggle graphcoords : list Q)
    (resolution : Q) (cx cw : list Q) :
  NewSrc.compress wiggle graphcoords resolution = Ok (cx, cw) ->
  (0 < length graphcoords <= length wiggle)%nat.
Proof.
  unfold NewSrc.compress, NewSrc.compress_loop. intros H.
  destruct (getitem graphcoords 0) as [g0|e] eqn:Hg0;
    [|rewrite !bind_Raise in H; discriminate H].
  rewrite bind_Ok in H.
  destruct (for_each _ _ _) as [st|e] eqn:Hloop;
    [|rewrite bind_Raise in H; discriminate H].
  apply (getitem_nat_inv graphcoords 0), lookup_lt_Some in Hg0.
  split; [exact Hg0|].
  destruct (for_each_Ok_each _ _ _ _ Hloop
              (Z.of_nat (length graphcoords - 1)))
    as ([[[cx1 cw1] prevx] tmpval] & s2 & Hbody);
    [apply last_index_in_range; exact Hg0|].
  unfold NewSrc.compress_body in Hbody.
  destruct (getitem wiggle (Z.of_nat (length graphcoords - 1)))
    as [w|e] eqn:Hw; [|rewrite bind_Raise in Hbody; discriminate Hbody].
  apply getitem_nat_inv, lookup_lt_Some in Hw. lia.
Qed.

(** X20.  When a panel can be drawn.  In both files
    [plot_density_single] returns exactly when the coordinate array is
    not empty, the sample has a depth for each of its slots and, if the
    x axis is shown, every x tick has its label; junctions never make it
    fail, wherever they lie. *)
Theorem plot_density_single_returns_iff
    (junction_lt : Junction -> Junction -> bool)
    (read_depth_object : ReadDepth) (graph_coords : list Q)
    (graph_to_gene : list (Z * Z)) (y_max_arg : option Q)
    (number_junctions_arg show_x_axis : bool) (nx_ticks : Z)
    (no_bam : bool) (resolution_arg : Q) :
  let ready :=
    (0 < length graph_coords)%nat
    /\ (length graph_coords <= length (wiggle read_depth_object))%nat
    /\ x_axis_readable graph_to_gene graph_coords show_x_axis nx_ticks in
  ((exists p,
      Utils.plot_density_single read_depth_object graph_coords graph_to_gene
        y_max_arg number_junctions_arg show_x_axis nx_ticks no_bam = Ok p)
   <-> ready)
  /\ ((exists p,
         NewSrc.plot_density_single junction_lt read_depth_object
           graph_coords graph_to_gene y_max_arg number_junctions_arg
           resolution_arg show_x_axis nx_ticks = Ok p)
      <-> ready).
Proof.
  cbv zeta. split; split.
  - intros [p Hp].
    destruct (utils_plot_density_single_inv _ _ _ _ _ _ _ _ _ Hp)
      as (_ & _ & _ & Hread & Hmax).
    split; [|split].
    + destruct graph_coords; [discriminate Hmax | cbn; lia].
    + apply (utils_plot_density_single_reads_wiggle _ _ _ _ _ _ _ _ _ Hp).
    + exact Hread.
  - intros (Hne & Hcov & Hread).
    destruct (utils_plot_density_single_ok read_depth_object graph_coords
                graph_to_gene y_max_arg number_junctions_arg show_x_axis
                nx_ticks no_bam Hne Hcov Hread) as (p & _ & _ & Hp & _).
    exists p. exact Hp.
  - intros [p Hp].
    destruct (new_src_plot_density_single_inv _ _ _ _ _ _ _ _ _ _ Hp)
      as (_ & _ & _ & Hread & _ & Hcompress).
    destruct (new_src_compress_reads_wiggle _ _ _ _ _ Hcompress).
    split; [assumption|]. split; [assumption | exact Hread].
  - intros (Hne & Hcov & Hread).
    destruct (new_src_plot_density_single_ok junction_lt read_depth_object
                graph_coords graph_to_gene y_max_arg number_junctions_arg
                resolution_arg show_x_axis nx_ticks Hne Hcov Hread)
      as (p & _ & Hp & _).
    exists p. exact Hp.
Qed.

(** ** The y ticks *)

Lemma linspace_spec (start stop : Q) (num : Z) (ts : list Q) :
  linspace start stop num = Ok ts ->
  length ts = Z.to_nat num
  /\ (forall v, head ts = Some v -> (v == start)%Q)
  /\ (2 <= num -> exists v, last ts = Some v /\ (v == stop)%Q).
Proof.
  unfold linspace. intros H.
  destruct (Z.ltb_spec num 0) as [?|Hnum]; [discriminate H|].
  destruct (Z.eqb_spec num 1) as [->|Hne].
  - injection H as <-. split; [reflexivity|].
    split; [|lia]. intros v Hv. injection Hv as <-. reflexivity.
  - injection H as <-. unfold range.
    rewrite !length_map, length_seq. split; [reflexivity|]. split.
    + intros v Hv. destruct (Z.to_nat num) as [|n]; [discriminate Hv|].
      cbn in Hv. injection Hv as <-.
      change (inject_Z (Z.of_nat 0)) with 0%Q. ring.
    + intros H2.
      replace (Z.to_nat num) with (S (Z.to_nat (num - 1))) by lia.
      rewrite seq_S, !map_app. cbn [map]. rewrite last_snoc.
      eexists. split; [reflexivity|].
      cbn [Nat.add]. rewrite Z2Nat.id by lia.
      assert (HD : (1 <= inject_Z (num - 1))%Q).
      { change 1%Q with (inject_Z 1). rewrite <- Zle_Qle. lia. }
      field. lra.
Qed.

(** X21.  The y ticks of a render.  Each panel of [utils] that has a bam
    carries [nyticks + 1] y ticks that span its own axis, from [0] to the
    upper end of its spine; without a bam it carries none.  The panels of
    [new_src] all carry the same ticks, which span the shared axis. *)
Theorem y_ticks_span_the_axis (junction_lt : Junction -> Junction -> bool)
    (get_ylim_upper : panel -> Q)
    (exon_eqb exon_ltb : Exon -> Exon -> bool) (settings : Settings)
    (read_depths_dict : list ReadDepth) (splice_region : SpliceRegion)
    (show_gene no_bam : bool) :
  (forall graph_coords graph_to_gene samples gene_structure,
     Utils.plot_density settings read_depths_dict splice_region show_gene
       no_bam
     = UtilsTranscripts.Returns
         (Ok (graph_coords, graph_to_gene, samples, gene_structure)) ->
     Forall (fun s =>
               if no_bam then yticks (snd s) = []
               else ticks_span (nyticks settings + 1) (snd s))
       samples)
  /\ (forall graphcoords graphToGene samples gene_structure,
        NewSrc.plot_density junction_lt get_ylim_upper exon_eqb exon_ltb
          settings read_depths_dict splice_region show_gene
        = Ok (graphcoords, graphToGene, samples, gene_structure) ->
        exists ticks,
          Forall (fun s => yticks (snd s) = ticks
                           /\ ticks_span (nyticks settings + 1) (snd s))
            samples).
Proof.
  split.
  - intros gc g2g samples gs H.
    destruct (utils_plot_density_inv _ _ _ _ _ _ _ _ _ H)
      as (_ & _ & Hloop & _).
    apply List.Forall_forall. intros [p y] Hs.
    apply list_elem_of_In, list_elem_of_lookup in Hs as [i Hs].
    destruct (Forall2_enumerate_lookup _ _ _ _ _ Hloop Hs) as (d & _ & Hrun).
    destruct (utils_plot_sample_inv _ _ _ _ _ _ _ _ _ _ Hrun)
      as (Hspine & (ticks & Hticks & Hy) & _).
    cbn [snd]. destruct no_bam; [exact Hy|].
    destruct (linspace_spec _ _ _ _ Hticks) as (Hlen & Hhead & Hlast).
    unfold ticks_span. rewrite Hy, Hspine. auto.
  - intros gc g2g samples gs H.
    destruct (new_src_plot_density_inv _ _ _ _ _ _ _ _ _ _ _ _ H)
      as (m & ticks & _ & _ & _ & Hticks & Hall & _).
    exists ticks. eapply Forall_impl; [exact Hall|].
    intros [p y]. cbn [snd]. intros (_ & _ & _ & Hspine & Hy).
    split; [exact Hy|].
    destruct (linspace_spec _ _ _ _ Hticks) as (Hlen & Hhead & Hlast).
    unfold ticks_span. rewrite Hy, Hspine. auto.
Qed.

(** X21, witness: the example region drawn with two samples. *)
Lemma y_ticks_span_the_axis_witness :
  (exists graph_coords graph_to_gene samples gene_structure,
     Utils.plot_density example_settings
       [example_read_depth; example_read_depth] example_splice_region
       false false
     = UtilsTranscripts.Returns
         (Ok (graph_coords, graph_to_gene, samples, gene_structure))
     /\ Forall (fun s => ticks_span (nyticks example_settings + 1) (snd s))
          samples)
  /\ (exists graphcoords graphToGene samples gene_structure ticks,
        NewSrc.plot_density (fun a b => span a <? span b) (fun _ => 9%Q)
          example_exon_eqb example_exon_ltb
          example_settings [example_read_depth; example_read_depth]
          example_splice_region false
        = Ok (graphcoords, graphToGene, samples, gene_structure)
        /\ Forall (fun s => yticks (snd s) = ticks
                            /\ ticks_span (nyticks example_settings + 1)
                                 (snd s))
             samples).
Proof.
  pose proof (y_ticks_span_the_axis (fun a b => span a <? span b)
                (fun _ => 9%Q) example_exon_eqb example_exon_ltb
                example_settings
                [example_read_depth; example_read_depth]
                example_splice_region false false) as [Hu Hn].
  split.
  - eexists _, _, _, _. split; [vm_compute; reflexivity|].
    apply (Hu _ _ _ _ ltac:(vm_compute; reflexivity)).
  - destruct (Hn _ _ _ _ ltac:(vm_compute; reflexivity)) as [ticks H].
    eexists _, _, _, _, ticks. split; [vm_compute; reflexivity | exact H].
Defined.

(** X20, witness: the example sample on the example window. *)
Lemma plot_density_single_returns_iff_witness :
  (exists p,
     Utils.plot_density_single example_read_depth example_graph_coords
       example_graph_to_gene (Some 8%Q) true true 4 false = Ok p)
  /\ (exists p,
        NewSrc.plot_density_single (fun a b => span a <? span b)
          example_read_depth example_graph_coords example_graph_to_gene
          (Some 8%Q) true (1 # 2) true 4 = Ok p).
Proof.
  pose proof (plot_density_single_returns_iff (fun a b => span a <? span b)
                example_read_depth example_graph_coords
                example_graph_to_gene (Some 8%Q) true true 4 false (1 # 2))
    as [Hu Hn].
  assert (Hready :
            (0 < length example_graph_coords)%nat
            /\ (length example_graph_coords
                <= length (wiggle example_read_depth))%nat
            /\ x_axis_readable example_graph_to_gene example_graph_coords
                 true 4).
  { split; [cbn; lia|]. split; [cbn; lia|].
    intros _. eexists. vm_compute. reflexivity. }
  split; [apply Hu | apply Hn]; exact Hready.
Defined.

(** ** The indicator lines and the gene structure of a render *)

Lemma walk_In_le ds : forall x v,
  Forall (fun d => d <= 0)%Q ds -> In v (walk x ds) -> (v <= x)%Q.
Proof.
  induction ds as [|d ds IH]; intros x v Hds Hv; [destruct Hv|].
  apply Forall_cons_1 in Hds as [Hd Hds]. cbn [walk] in Hv.
  destruct Hv as [<- | Hv]; [apply Qle_refl|].
  specialize (IH _ _ Hds Hv). lra.
Qed.

Lemma Qdiv_negative (q : Q) : (q < 0)%Q -> (1 / q <= 0)%Q.
Proof.
  intros Hq.
  assert (H : (q * (1 / q) == 1)%Q) by (field; lra).
  destruct (Qlt_le_dec 0 (1 / q)) as [Hpos|Hle]; [|exact Hle].
  exfalso. nra.
Qed.

Lemma py_max_inv (l : list Q) (m : Q) :
  py_max l = Ok m -> Forall (fun x => x <= m)%Q l /\ In m l.
Proof.
  intros H. destruct (py_max_spec l) as (m' & Hm' & Hall & Hin).
  { intros ->. discriminate H. }
  rewrite H in Hm'. injection Hm' as <-. split; assumption.
Qed.


(** X23.  In [utils] a region with transcripts cannot be drawn with two
    negative scales: no coordinate is then above [0], [max(graph_coords)]
    is [0], and the number of arrows,
    [math.ceil(length / max(graph_coords) * 50)], cannot be computed. *)
Theorem utils_negative_scales_draw_no_transcript (settings : Settings)
    (read_depths_dict : list ReadDepth) (splice_region : SpliceRegion)
    (show_gene no_bam : bool) :
  (exon_scale settings < 0)%Q -> (intron_scale settings < 0)%Q ->
  sr_transcripts splice_region <> [] ->
  Utils.plot_density settings read_depths_dict splice_region show_gene
    no_bam = UtilsTranscripts.RaisesOverflowError
  \/ exists e,
       Utils.plot_density settings read_depths_dict splice_region show_gene
         no_bam = UtilsTranscripts.Returns (Raise e).
Proof.
  intros Hes His Htr.
  destruct (Utils.plot_density settings read_depths_dict splice_region
              show_gene no_bam)
    as [[[[[gc g2g] samples] gs]|e]|] eqn:Hrun;
    [exfalso | right; exists e; reflexivity | left; reflexivity].
  destruct (utils_plot_density_inv _ _ _ _ _ _ _ _ _ Hrun)
    as (Hscaling & _ & _ & Hgs).
  destruct (sr_transcripts splice_region) as [|t ts]; [contradiction|].
  destruct Hgs as ([[rows xlim] ylim] & Hdrawn & _).
  destruct (utils_plot_transcripts_inv _ _ _ _ _ _ _ _ Hdrawn)
    as (_ & _ & _ & Hrows).
  destruct (Hrows 0%nat t eq_refl) as (row & _ & Hrow).
  destruct Hrow as (start_x & end_x & hi & _ & _ & Hhi & Hnz & _).
  apply Hnz.
  destruct (py_max_inv _ _ Hhi) as [Hall Hin].
  destruct (get_scaling_inv _ _ _ _ _ _ _ _ _ _ Hscaling)
    as (ec & _ & _ & _ & _ & _ & Hwalk & _).
  set (f := fills_forward (PyStr (sr_strand splice_region))
              (reverse_minus settings)) in *.
  assert (Hsteps : Forall (fun d => d <= 0)%Q
                     (map (plot_step (exon_scale settings)
                             (intron_scale settings)) (walk_order f ec))).
  { apply List.Forall_forall. intros d Hd.
    apply in_map_iff in Hd as (c & <- & _). unfold plot_step.
    destruct (Qeq_bool c 1); apply Qdiv_negative; assumption. }
  assert (Hle : (hi <= 0)%Q).
  { apply (walk_In_le _ 0%Q hi Hsteps). rewrite <- Hwalk.
    apply In_walk_order. exact Hin. }
  assert (Hge : (0 <= hi)%Q).
  { rewrite List.Forall_forall in Hall. apply Hall.
    apply (In_walk_order f). rewrite Hwalk.
    destruct (walk_order f ec) as [|c cells] eqn:Hcells.
    - exfalso. apply (In_walk_order f) in Hin. rewrite Hwalk in Hin.
      destruct Hin.
    - cbn [map walk]. left. reflexivity. }
  lra.
Qed.

(** X23, witness: the region 10..12 with one transcript and the scales -1
    and -2. *)
Lemma utils_negative_scales_draw_no_transcript_witness :
  let splice_region :=
    {| sr_chromosome := "chr1"; sr_start := 10; sr_end := 12;
       sr_strand := "+"; sr_exon_starts := [10]; sr_exon_ends := [12];
       sr_transcripts :=
         [ {| tr_transcript := "T1"; tr_gene := "G";
              tr_exons := [ {| exon_start := 10; exon_end := 12;
                               exon_strand := "+" |} ];
              tr_start := 10; tr_end := 12 |} ];
       sr_sites := [] |} in
  let settings :=
    {| intron_scale := - 1; exon_scale := - 2; reverse_minus := false;
       number_junctions := true; resolution := 1 # 2;
       nxticks := 4; nyticks := 3; colors := None |} in
  let depth :=
    {| rd_start := 10; wiggle := [3; 3; 3]%Q; junctions_dict := [];
       rd_max := 3 |} in
  Utils.plot_density settings [depth] splice_region false false
  = UtilsTranscripts.RaisesOverflowError
  \/ exists e,
       Utils.plot_density settings [depth] splice_region false false
       = UtilsTranscripts.Returns (Raise e).
Proof.
  cbv zeta.
  apply (utils_negative_scales_draw_no_transcript
           {| intron_scale := - 1; exon_scale := - 2;
              reverse_minus := false; number_junctions := true;
              resolution := 1 # 2; nxticks := 4; nyticks := 3;
              colors := None |}
           [ {| rd_start := 10; wiggle := [3; 3; 3]%Q;
                junctions_dict := []; rd_max := 3 |} ]
           {| sr_chromosome := "chr1"; sr_start := 10; sr_end := 12;
              sr_strand := "+"; sr_exon_starts := [10];
              sr_exon_ends := [12];
              sr_transcripts :=
                [ {| tr_transcript := "T1"; tr_gene := "G";
                     tr_exons := [ {| exon_start := 10; exon_end := 12;
                                      exon_strand := "+" |} ];
                     tr_start := 10; tr_end := 12 |} ];
              sr_sites := [] |}
           false false).
  - reflexivity.
  - reflexivity.
  - discriminate.
Defined.

(** X24.  A render of [new_src] that is given colours needs one for every
    sample: [colors[i]] is looked up for each of them. *)
Theorem new_src_colors_cover_the_samples
    (junction_lt : Junction -> Junction -> bool)
    (get_ylim_upper : panel -> Q)
    (exon_eqb exon_ltb : Exon -> Exon -> bool) (settings : Settings)
    (read_depths_dict : list ReadDepth) (splice_region : SpliceRegion)
    (show_gene : bool) (colors_list : list string)
    (graphcoords : list Q) (graphToGene : list (Z * Z))
    (samples : list (panel * yaxis))
    (gene_structure : list transcript_row * Q * (Q * Q)) :
  colors settings = Some colors_list ->
  NewSrc.plot_density junction_lt get_ylim_upper exon_eqb exon_ltb settings
    read_depths_dict splice_region show_gene
  = Ok (graphcoords, graphToGene, samples, gene_structure) ->
  (length read_depths_dict <= length colors_list)%nat.
Proof.
  intros Hcolors H.
  destruct (new_src_plot_density_inv _ _ _ _ _ _ _ _ _ _ _ _ H)
    as (_ & _ & _ & Hloop & _).
  destruct (length read_depths_dict) as [|n] eqn:Hn; [lia|].
  destruct (lookup_lt_is_Some_2 (enumerate read_depths_dict) n)
    as [[i d] Hitem]; [rewrite length_enumerate; lia|].
  destruct (Forall2_lookup_l _ _ _ _ _ Hloop Hitem)
    as (p & _ & color & Hcolor & _).
  rewrite enumerate_lookup in Hitem.
  destruct (read_depths_dict !! n) as [d'|]; [|discriminate Hitem].
  injection Hitem as <- <-. cbn [fst] in Hcolor.
  unfold NewSrc.color_of in Hcolor. rewrite Hcolors in Hcolor.
  destruct (getitem colors_list (Z.of_nat n)) as [c|e] eqn:Hc;
    [|rewrite bind_Raise in Hcolor; discriminate Hcolor].
  apply getitem_nat_inv, lookup_lt_Some in Hc. lia.
Qed.


(** X24, witness: two samples and two colours. *)
Lemma new_src_colors_cover_the_samples_witness :
  (length [example_read_depth; example_read_depth]
   <= length ["red"; "blue"]%string)%nat.
Proof.
  eapply (new_src_colors_cover_the_samples
            (fun a b => span a <? span b) (fun _ => 9%Q)
            example_exon_eqb example_exon_ltb
            {| intron_scale := 1; exon_scale := 1; reverse_minus := false;
               number_junctions := true; resolution := 1 # 2;
               nxticks := 4; nyticks := 3;
               colors := Some ["red"; "blue"]%string |}
            [example_read_depth; example_read_depth]
            example_splice_region false).
  - reflexivity.
  - vm_compute. reflexivity.
Defined.
